(** * ZenGO Studio: the asynchronous job lifecycle, verified

    A shallow embedding of [backend/server.js] (the Express gateway in
    front of the RunPod provider) and of the React client [App.js] (the
    poller and the result materializer), with the properties stated by
    the lifecycle specification.

    Layout:
    - [JS]: the fragment of ECMAScript the two files rely on (values,
      truthiness, property reads, [ToString], rounding to a double,
      [parseInt], [parseFloat], [String.prototype.trim], [Math.min],
      [decodeURIComponent]);
    - [Eff]: a state-and-exception monad for handlers and callbacks;
    - [Server]: the route handlers and the middleware chain of server.js;
    - [Browser]: [atob], [Uint8Array] stores and [Blob];
    - [Client]: the component state, [stopPolling], [pollStatus],
      [handleGenerate], [base64ToBlob] of App.js, and the component as a
      transition system over clicks, settled requests and timer slots;
    - [Props], [ClientProps]: the vocabulary of the statements;
    - [JSFacts]: [parseInt] and [parseFloat] read back what
      [Number::toString] prints;
    - [StatusResolver], [Gateway], [RateLimiter]: the gateway side;
    - [ClientFacts], [Poller], [Session]: the client side;
    - [Startup], [Wire], [Reach], [Stack]: the start-up of server.js,
      JSON between the two programs, the vocabulary of the further
      properties, and [stop_one] of scripts/local-stack.sh;
    - [Handlers], [Routes], [Origins]: the handlers on every input;
    - [TrimFacts], [Callbacks], [Reachable]: the callbacks on every
      reply, and what holds in every state the component can reach;
    - [EndToEnd]: the client and the gateway together;
    - [StackFacts]: stopping a process of the local stack.

    Timer callbacks are taken to run to completion one at a time (the
    interval is assumed longer than a round trip, as the design notes
    say); overlapping callbacks are outside the model. *)

From Stdlib Require Import List String Ascii Bool ZArith NArith PArith Lia.
Import ListNotations.

Set Warnings "-register-all".

(* ===================================================================== *)
(** * The ECMAScript fragment *)
(* ===================================================================== *)

Module JS.

Local Open Scope N_scope.
Local Open Scope list_scope.

(** A JavaScript string is a sequence of UTF-16 code units. *)
Definition jsstring := list N.

(** A literal of the source text, as code units. *)
Definition str (s : string) : jsstring :=
  map N_of_ascii (list_ascii_of_string s).

Fixpoint str_eqb (a b : jsstring) : bool :=
  match a, b with
  | [], [] => true
  | x :: a', y :: b' => (x =? y) && str_eqb a' b'
  | _, _ => false
  end.

(** ** Numbers

    A Number is NaN, an infinity, or a finite value written in decimal
    as [(-1)^neg * m * 10^e].  A finite double is kept as its shortest
    round-trip decimal, the one [Number::toString] prints, so a
    statement over all [number]s covers all doubles; [round] below
    takes any decimal to the double nearest to it, and a [number] that
    [round] leaves as it is stands for a double.  The shortest decimals
    of two doubles are ordered as the doubles are, so comparison and
    [Math.min] are computed on the decimals. *)
Inductive number :=
| NaN
| Inf (neg : bool)
| Fin (neg : bool) (m : N) (e : Z).

(** [m * 10^e] with the trailing zeros of [m] moved into [e]. *)
Fixpoint strip_zeros (fuel : nat) (m : N) (e : Z) : N * Z :=
  match fuel with
  | O => (m, e)
  | S fuel' =>
      if (m =? 0) then (0, 0%Z)
      else if (m mod 10 =? 0) then strip_zeros fuel' (m / 10) (e + 1)%Z
      else (m, e)
  end.

Definition normal (m : N) (e : Z) : N * Z :=
  strip_zeros (S (N.to_nat (N.log2 m))) m e.

(** The integer [z * 10^k] scaled to a common exponent, for comparison. *)
Definition scaled (neg : bool) (m : N) (e e0 : Z) : Z :=
  let v := (Z.of_N m * 10 ^ (e - e0))%Z in
  if neg then (- v)%Z else v.

(** [a <= b] on non-NaN numbers. *)
Definition leb (a b : number) : bool :=
  match a, b with
  | NaN, _ | _, NaN => false
  | Inf true, _ => true
  | _, Inf false => true
  | Inf false, _ => false
  | _, Inf true => false
  | Fin na ma ea, Fin nb mb eb =>
      let e0 := Z.min ea eb in
      (scaled na ma ea e0 <=? scaled nb mb eb e0)%Z
  end.

(** [Math.min] of two arguments: NaN if either is NaN, else the smaller
    (the first one on a tie). *)
Definition Math_min (a b : number) : number :=
  match a, b with
  | NaN, _ | _, NaN => NaN
  | _, _ => if leb a b then a else b
  end.

(** The integer a finite number prints as, when its decimal has no
    fraction. *)
Definition to_Z (x : number) : option Z :=
  match x with
  | Fin neg m e => if (0 <=? e)%Z then Some (scaled neg m e 0) else None
  | _ => None
  end.

(** ** Values *)
Inductive value :=
| JUndefined
| JNull
| JBool (b : bool)
| JNum (x : number)
| JStr (s : jsstring)
| JArr (items : list value)
| JObj (fields : list (jsstring * value)).

Definition JS (s : string) : value := JStr (str s).

(** [ToBoolean]. *)
Definition truthy (v : value) : bool :=
  match v with
  | JUndefined | JNull => false
  | JBool b => b
  | JNum NaN => false
  | JNum (Inf _) => true
  | JNum (Fin _ m _) => negb (m =? 0)
  | JStr s => match s with [] => false | _ => true end
  | JArr _ | JObj _ => true
  end.

(** [a || b]. *)
Definition or_else (a b : value) : value := if truthy a then a else b.

(** [v === "literal"]. *)
Definition is_str (v : value) (s : string) : bool :=
  match v with JStr x => str_eqb x (str s) | _ => false end.

Fixpoint assoc (k : jsstring) (fields : list (jsstring * value)) : value :=
  match fields with
  | [] => JUndefined
  | (k', v) :: rest => if str_eqb k k' then v else assoc k rest
  end.

Definition has_key (k : jsstring) (fields : list (jsstring * value)) : bool :=
  existsb (fun kv => str_eqb k (fst kv)) fields.

(** [o.k = v] on an object under construction: the property is created
    at the end, or overwritten in place. *)
Fixpoint set_field (k : jsstring) (v : value) (fields : list (jsstring * value))
  : list (jsstring * value) :=
  match fields with
  | [] => [(k, v)]
  | (k', v') :: rest =>
      if str_eqb k k' then (k, v) :: rest else (k', v') :: set_field k v rest
  end.

(** ** Exceptions *)
Inductive exn :=
| TypeError                       (* raised by the engine itself *)
| InvalidCharacterError           (* the DOMException of [atob] *)
| Rejected (message : jsstring)   (* a rejected [fetch] / [json()] promise *)
| Error (message : jsstring).     (* [new Error(message)] *)

Inductive result (A : Type) :=
| Ok (a : A)
| Throw (e : exn).
Arguments Ok {A} a.
Arguments Throw {A} e.

Definition rbind {A B} (r : result A) (k : A -> result B) : result B :=
  match r with Ok a => k a | Throw e => Throw e end.

(** [v.k] for the property names the two files read ([id], [status],
    [output], [error], [message], [audio_base64], ...): none of them is
    inherited from a prototype, so a read finds an own property of an
    object or [undefined]; reading from [null] or [undefined] throws. *)
Definition get (v : value) (k : string) : result value :=
  match v with
  | JUndefined | JNull => Throw TypeError
  | JObj fields => Ok (assoc (str k) fields)
  | _ => Ok JUndefined
  end.

(** ** White space and trimming *)

(** [StrWhiteSpaceChar]: WhiteSpace and LineTerminator code units. *)
Definition is_ws (c : N) : bool :=
  ((9 <=? c) && (c <=? 13)) || (c =? 32) || (c =? 160) || (c =? 5760)
  || ((8192 <=? c) && (c <=? 8202)) || (c =? 8232) || (c =? 8233)
  || (c =? 8239) || (c =? 8287) || (c =? 12288) || (c =? 65279).

Fixpoint trim_start (s : jsstring) : jsstring :=
  match s with
  | c :: s' => if is_ws c then trim_start s' else s
  | [] => []
  end.

Definition trim_end (s : jsstring) : jsstring := rev (trim_start (rev s)).

(** [String.prototype.trim]. *)
Definition trim (s : jsstring) : jsstring := trim_end (trim_start s).

(** [v.trim()]: only a string has the method. *)
Definition call_trim (v : value) : result value :=
  match v with
  | JStr s => Ok (JStr (trim s))
  | _ => Throw TypeError
  end.

(** ASCII lower case of a code unit. *)
Definition lower (c : N) : N :=
  if (65 <=? c) && (c <=? 90) then c + 32 else c.

(** ** Digits *)

Definition is_digit (c : N) : bool := (48 <=? c) && (c <=? 57).

Definition hex_val (c : N) : option N :=
  if is_digit c then Some (c - 48)
  else if (97 <=? c) && (c <=? 102) then Some (c - 87)
  else if (65 <=? c) && (c <=? 70) then Some (c - 55)
  else None.

Definition dec_val (c : N) : option N :=
  if is_digit c then Some (c - 48) else None.

(** The longest prefix of digits in a radix, as a value and a count,
    with the rest of the input. *)
Fixpoint read_digits (val : N -> option N) (radix : N) (s : jsstring)
  (acc : N) (count : nat) : N * nat * jsstring :=
  match s with
  | c :: s' =>
      match val c with
      | Some d => read_digits val radix s' (acc * radix + d) (S count)
      | None => (acc, count, s)
      end
  | [] => (acc, count, [])
  end.

Fixpoint digits_fuel (fuel : nat) (n : N) (acc : jsstring) : jsstring :=
  match fuel with
  | O => acc
  | S fuel' =>
      let acc' := (48 + n mod 10) :: acc in
      if (n / 10 =? 0) then acc' else digits_fuel fuel' (n / 10) acc'
  end.

(** The decimal digits of [n], most significant first. *)
Definition digits (n : N) : jsstring :=
  digits_fuel (S (N.to_nat (N.log2 n))) n [].

(** ** The Number value of a decimal

    [parseInt] and [parseFloat] hand back the double nearest to the
    decimal they have read, ties going to the even significand: an
    infinity past the largest double, a zero below half the smallest
    one.  (For numerals of more than 20 digits the specification lets an
    engine approximate; engines round the whole numeral, as is done
    here.) *)

(** [m * b^e] as a fraction. *)
Definition fraction (b m : N) (e : Z) : N * N :=
  if (0 <=? e)%Z then (m * b ^ Z.to_N e, 1) else (m, b ^ Z.to_N (- e)).

(** The largest [g] with [b^g <= p / q], for [p] and [q] positive: one
    of the two candidates that the sizes of [p] and [q] leave. *)
Definition magnitude (b : N) (size : N -> Z) (p q : N) : Z :=
  let g := (size p - size q)%Z in
  let '(l, r) := fraction b 1 g in
  if (q * l <=? p * r) then g else (g - 1)%Z.

Definition log2_floor (p q : N) : Z :=
  magnitude 2 (fun n => Z.of_N (N.log2 n)) p q.

Definition log10_floor (p q : N) : Z :=
  magnitude 10 (fun n => Z.of_nat (List.length (digits n)) - 1)%Z p q.

(** The double nearest to [p / q > 0]: [Some (M, E)] for [M * 2^E] with
    [M < 2^53] and [-1074 <= E <= 971] (a subnormal has [E = -1074] and
    [M < 2^52]), [None] past the largest double. *)
Definition nearest (p q : N) : option (N * Z) :=
  let E := Z.max (log2_floor p q - 52) (-1074) in
  let '(l, r) := fraction 2 1 E in
  let num := p * r in
  let den := q * l in
  let quo := num / den in
  let rem := num mod den in
  let M := if (den <? 2 * rem) || ((2 * rem =? den) && N.odd quo)
           then quo + 1 else quo in
  let '(M', E') := if M =? 2 ^ 53 then (2 ^ 52, (E + 1)%Z) else (M, E) in
  if (971 <? E')%Z then None else Some (M', E').

Definition same_double (a b : option (N * Z)) : bool :=
  match a, b with
  | Some (m, e), Some (m', e') => (m =? m') && (e =? e')%Z
  | _, _ => false
  end.

(** The decimal [s * 10^(k - n)] of [n] digits nearest to [p / q] that
    reads back as the double [d], if there is one: only the two
    neighbours of [p / q] on that grid can. *)
Definition digits_for (d : option (N * Z)) (p q : N) (k n : Z)
  : option (N * Z) :=
  let x := (k - n)%Z in
  let '(l, r) := fraction 10 1 x in
  let num := p * r in
  let den := q * l in
  let lo := num / den in
  let rem := num mod den in
  let reads s := let '(a, b) := fraction 10 s x in same_double (nearest a b) d in
  let lower := (2 * rem <? den) || ((2 * rem =? den) && N.even lo) in
  match reads lo, reads (lo + 1) with
  | true, true => Some (if lower then lo else lo + 1, x)
  | true, false => Some (lo, x)
  | false, true => Some (lo + 1, x)
  | false, false => None
  end.

Fixpoint shortest_from (fuel : nat) (d : option (N * Z)) (p q : N) (k n : Z)
  : option (N * Z) :=
  match fuel with
  | O => None
  | S fuel' =>
      match digits_for d p q k n with
      | Some sx => Some sx
      | None => shortest_from fuel' d p q k (n + 1)
      end
  end.

(** The decimal [Number::toString] prints for the double [M * 2^E]: as
    few digits as read back as that double and, of those, the nearest
    to it.  Seventeen digits always do; the exact expansion stands
    behind them to keep the function total. *)
Definition shortest (M : N) (E : Z) : N * Z :=
  let '(p, q) := fraction 2 M E in
  let k := (log10_floor p q + 1)%Z in
  match shortest_from 17 (Some (M, E)) p q k 1 with
  | Some (s, x) => normal s x
  | None =>
      if (0 <=? E)%Z then normal p 0 else normal (M * 5 ^ Z.to_N (- E)) E
  end.

(** The Number value for the decimal [x]. *)
Definition round (x : number) : number :=
  match x with
  | Fin neg m e =>
      let '(m', e') := normal m e in
      if m' =? 0 then Fin neg 0 0 else
      let '(p, q) := fraction 10 m' e' in
      match nearest p q with
      | None => Inf neg
      | Some (M, E) =>
          if M =? 0 then Fin neg 0 0
          else let '(s, e'') := shortest M E in Fin neg s e''
      end
  | _ => x
  end.

(** The canonical form of a finite number, and of a literal of the
    source text. *)
Definition mk_fin (neg : bool) (m : N) (e : Z) : number :=
  let '(m', e') := normal m e in Fin neg m' e'.

Definition of_Z (z : Z) : number := mk_fin (z <? 0)%Z (Z.abs_N z) 0.

(** [a || b] on numbers. *)
Definition or_num (a b : number) : number :=
  if truthy (JNum a) then a else b.

(** [err.message].  The wording of an engine-raised TypeError and of a
    DOMException is left to the engine; one fixed text stands for it. *)
Definition message_of (e : exn) : jsstring :=
  match e with
  | TypeError => str "TypeError"
  | InvalidCharacterError => str "InvalidCharacterError"
  | Rejected m => m
  | Error m => m
  end.

Definition sign_text (neg : bool) : jsstring :=
  if neg then str "-" else [].

(** ** [Number::toString] (radix 10) *)
Definition number_to_string (x : number) : jsstring :=
  match x with
  | NaN => str "NaN"
  | Inf neg => sign_text neg ++ str "Infinity"
  | Fin neg m e =>
      let '(s, e') := normal m e in
      if (s =? 0) then str "0" else
      let ds := digits s in
      let k := Z.of_nat (List.length ds) in
      let n := (k + e')%Z in
      let body :=
        if ((k <=? n) && (n <=? 21))%Z then
          ds ++ repeat 48 (Z.to_nat (n - k))
        else if ((0 <? n) && (n <=? 21))%Z then
          firstn (Z.to_nat n) ds ++ str "." ++ skipn (Z.to_nat n) ds
        else if ((-6 <? n) && (n <=? 0))%Z then
          str "0." ++ repeat 48 (Z.to_nat (- n)) ++ ds
        else
          let ex := (n - 1)%Z in
          let tail :=
            str "e" ++ (if (ex <? 0)%Z then str "-" else str "+")
                    ++ digits (Z.abs_N ex) in
          match ds with
          | [d] => [d] ++ tail
          | d :: more => [d] ++ str "." ++ more ++ tail
          | [] => tail
          end
      in sign_text neg ++ body
  end.

(** ** [ToString]

    A plain object prints as [[object Object]] unless it has an own
    property [toString]: a JSON value is not callable, so
    OrdinaryToPrimitive falls through to [valueOf], gets no primitive,
    and throws.  An array prints its elements joined by commas, with
    [null] and [undefined] elements printed as empty. *)
Fixpoint to_string (v : value) : result jsstring :=
  match v with
  | JUndefined => Ok (str "undefined")
  | JNull => Ok (str "null")
  | JBool b => Ok (if b then str "true" else str "false")
  | JNum x => Ok (number_to_string x)
  | JStr s => Ok s
  | JArr items =>
      (fix join (l : list value) : result jsstring :=
         match l with
         | [] => Ok []
         | x :: rest =>
             rbind (match x with
                    | JUndefined | JNull => Ok []
                    | _ => to_string x
                    end)
               (fun sx =>
                  match rest with
                  | [] => Ok sx
                  | _ => rbind (join rest) (fun sr => Ok (sx ++ str "," ++ sr))
                  end)
         end) items
  | JObj fields =>
      if has_key (str "toString") fields then Throw TypeError
      else Ok (str "[object Object]")
  end.

(** A leading [-] or [+]. *)
Definition strip_sign (s : jsstring) : bool * jsstring :=
  match s with
  | c :: s' =>
      if c =? 45 then (true, s') else if c =? 43 then (false, s') else (false, s)
  | [] => (false, [])
  end.

(** A leading [0x] or [0X]. *)
Definition hex_prefix (s : jsstring) : bool :=
  match s with
  | c1 :: c2 :: _ => (c1 =? 48) && ((c2 =? 120) || (c2 =? 88))
  | _ => false
  end.

(** ** [parseInt(string)] with the radix left out *)
Definition parseInt_str (input : jsstring) : number :=
  let '(neg, s) := strip_sign (trim_start input) in
  let '(mathInt, count, _) :=
    if hex_prefix s then read_digits hex_val 16 (skipn 2 s) 0 O
    else read_digits dec_val 10 s 0 O in
  match count with
  | O => NaN
  | _ => round (mk_fin neg mathInt 0)
  end.

Definition parseInt (v : value) : result number :=
  rbind (to_string v) (fun s => Ok (parseInt_str s)).

(** ** [parseFloat(string)]: the longest prefix that is a
    StrDecimalLiteral *)
Fixpoint starts_with (p s : jsstring) : bool :=
  match p, s with
  | [], _ => true
  | x :: p', y :: s' => (x =? y) && starts_with p' s'
  | _, [] => false
  end.

(** The value of an ExponentPart at the head of [s], zero when there
    is none. *)
Definition read_exponent (s : jsstring) : Z :=
  match s with
  | c :: s' =>
      if (c =? 101) || (c =? 69) then
        let '(neg, s'') := strip_sign s' in
        let '(ex, count, _) := read_digits dec_val 10 s'' 0 O in
        match count with
        | O => 0%Z
        | _ => if neg then (- Z.of_N ex)%Z else Z.of_N ex
        end
      else 0%Z
  | [] => 0%Z
  end.

Definition is_dot (s : jsstring) : bool :=
  match s with c :: _ => c =? 46 | [] => false end.

Definition parseFloat_str (input : jsstring) : number :=
  let '(neg, s) := strip_sign (trim_start input) in
  if starts_with (str "Infinity") s then Inf neg else
  let '(ip, icount, s1) := read_digits dec_val 10 s 0 O in
  if is_dot s1 then
    let '(m, fcount, s3) := read_digits dec_val 10 (tl s1) ip O in
    match icount, fcount with
    | O, O => NaN
    | _, _ => round (mk_fin neg m (read_exponent s3 - Z.of_nat fcount))
    end
  else
    match icount with
    | O => NaN
    | _ => round (mk_fin neg ip (read_exponent s1))
    end.

Definition parseFloat (v : value) : result number :=
  rbind (to_string v) (fun s => Ok (parseFloat_str s)).

(** ** [decodeURIComponent] *)

(** The octet of an escape [%XX] at the head of [s], with what follows. *)
Definition escape (s : jsstring) : option (N * jsstring) :=
  match s with
  | 37 :: a :: b :: rest =>
      match hex_val a, hex_val b with
      | Some x, Some y => Some (16 * x + y, rest)
      | _, _ => None
      end
  | _ => None
  end.

(** [n] continuation octets [10xxxxxx], each written as an escape,
    added to the bits [acc]. *)
Fixpoint continuation (n : nat) (acc : N) (s : jsstring) : option (N * jsstring) :=
  match n with
  | O => Some (acc, s)
  | S n' =>
      match escape s with
      | Some (o, rest) =>
          if (128 <=? o) && (o <? 192)
          then continuation n' (acc * 64 + (o - 128)) rest
          else None
      | None => None
      end
  end.

(** The code units of a code point. *)
Definition utf16 (cp : N) : jsstring :=
  if cp <? 65536 then [cp]
  else [55296 + (cp - 65536) / 1024; 56320 + (cp - 65536) mod 1024].

(** The sequence of escapes at the head of [s] that spells one code
    point in UTF-8, decoded, with what follows; [None] when the octets
    are not the UTF-8 of a code point. *)
Definition escaped_point (s : jsstring) : option (jsstring * jsstring) :=
  match escape s with
  | None => None
  | Some (o, rest) =>
      if o <? 128 then Some ([o], rest)
      else if (194 <=? o) && (o <? 224) then
        match continuation 1 (o - 192) rest with
        | Some (cp, rest') => Some ([cp], rest')
        | None => None
        end
      else if (224 <=? o) && (o <? 240) then
        match continuation 2 (o - 224) rest with
        | Some (cp, rest') =>
            if (2048 <=? cp) && negb ((55296 <=? cp) && (cp <? 57344))
            then Some ([cp], rest') else None
        | None => None
        end
      else if (240 <=? o) && (o <? 245) then
        match continuation 3 (o - 240) rest with
        | Some (cp, rest') =>
            if (65536 <=? cp) && (cp <? 1114112)
            then Some (utf16 cp, rest') else None
        | None => None
        end
      else None
  end.

Fixpoint decode_fuel (fuel : nat) (s : jsstring) : option jsstring :=
  match fuel with
  | O => Some []
  | S fuel' =>
      match s with
      | [] => Some []
      | c :: s' =>
          if c =? 37 then
            match escaped_point s with
            | Some (units, rest) =>
                match decode_fuel fuel' rest with
                | Some t => Some (units ++ t)
                | None => None
                end
            | None => None
            end
          else
            match decode_fuel fuel' s' with
            | Some t => Some (c :: t)
            | None => None
            end
      end
  end.

(** Every escape sequence is replaced by the code point it spells;
    [None] stands for the URIError thrown at a [%] that does not start
    one. *)
Definition decodeURIComponent (s : jsstring) : option jsstring :=
  decode_fuel (List.length s) s.

End JS.

(* ===================================================================== *)
(** * Handlers as computations: state, effects and exceptions *)
(* ===================================================================== *)

Module Eff.
Import JS.

(** A computation over a state [St] either returns or throws; the state
    it has built up to a throw is kept, as in JavaScript. *)
Definition M (St A : Type) : Type := St -> St * result A.

Definition ret {St A} (a : A) : M St A := fun s => (s, Ok a).

Definition bind {St A B} (c : M St A) (k : A -> M St B) : M St B :=
  fun s =>
    match c s with
    | (s', Ok a) => k a s'
    | (s', Throw e) => (s', Throw e)
    end.

Definition throw {St A} (e : exn) : M St A := fun s => (s, Throw e).

(** [try { c } catch (err) { h err }]. *)
Definition try_catch {St A} (c : M St A) (h : exn -> M St A) : M St A :=
  fun s =>
    match c s with
    | (s', Ok a) => (s', Ok a)
    | (s', Throw e) => h e s'
    end.

Definition lift {St A} (r : result A) : M St A := fun s => (s, r).

Definition modify {St} (f : St -> St) : M St unit := fun s => (f s, Ok tt).

Definition gets {St A} (f : St -> A) : M St A := fun s => (s, Ok (f s)).

Definition when {St} (b : bool) (c : M St unit) : M St unit :=
  if b then c else ret tt.

Declare Scope eff_scope.
Delimit Scope eff_scope with eff.
Notation "x <- c ;; k" := (bind c (fun x => k))
  (at level 61, c at next level, right associativity) : eff_scope.
Notation "c ;; k" := (bind c (fun _ => k))
  (at level 61, right associativity) : eff_scope.

End Eff.

(* ===================================================================== *)
(** * backend/server.js *)
(* ===================================================================== *)

Module Server.
Import JS Eff.
Local Open Scope string_scope.
Local Open Scope list_scope.
Local Open Scope eff_scope.

(** ** Config *)
Record config := {
  RUNPOD_API_KEY : jsstring;
  RUNPOD_ENDPOINT_ID : jsstring;
  allowedOrigins : list jsstring
}.

Definition RUNPOD_BASE (cfg : config) : jsstring :=
  str "https://api.runpod.ai/v2/" ++ RUNPOD_ENDPOINT_ID cfg.

(** ** The outside world *)

(** What one [fetch] to the provider comes back with: a rejected
    promise, or a response with its status code and the outcome of
    reading its body as text or as JSON. *)
Inductive upstream :=
| Unreachable (message : jsstring)
| Responds (status : Z) (text : result jsstring) (json : result value).

Inductive effect :=
| Outbound (method : string) (url : jsstring) (body : option value)
| Console (is_error : bool) (line : jsstring).

(** State of the in-memory rate-limit store for one key: the hits
    counted in the current window and the time at which it ends. *)
Record window := { totalHits : Z; resetTime : Z }.

Record world := {
  trace : list effect;
  store : list (jsstring * window)
}.

Record response := { code : Z; payload : value }.

Definition emit (e : effect) : M world unit :=
  modify (fun w => {| trace := trace w ++ [e]; store := store w |}).

Definition console_log (line : jsstring) : M world unit :=
  emit (Console false line).

Definition console_error (line : jsstring) : M world unit :=
  emit (Console true line).

(** [response.ok]. *)
Definition ok (status : Z) : bool := (200 <=? status)%Z && (status <=? 299)%Z.

(** [await fetch(url, {method, body})]: one outbound call, then the
    provider's answer. *)
Definition fetch (method : string) (url : jsstring) (body : option value)
  (up : upstream) : M world (Z * result jsstring * result value) :=
  emit (Outbound method url body) ;;
  match up with
  | Unreachable m => throw (Rejected m)
  | Responds status text json => ret (status, text, json)
  end.

(** An object literal. *)
Definition obj (fields : list (string * value)) : value :=
  JObj (map (fun kv => (str (fst kv), snd kv)) fields).

(** [res.status(code).json(body)]. *)
Definition reply (code : Z) (body : value) : M world response :=
  ret {| code := code; payload := body |}.

(** [!v || !v.trim()]. *)
Definition blank (v : value) : M world bool :=
  if negb (truthy v) then ret true
  else t <- lift (call_trim v) ;; ret (negb (truthy t)).

(** [v.length] of a string or an array. *)
Definition length_of (v : value) : result value :=
  match v with
  | JStr s => Ok (JNum (of_Z (Z.of_nat (List.length s))))
  | JArr l => Ok (JNum (of_Z (Z.of_nat (List.length l))))
  | _ => get v "length"
  end.

Definition internal_error (tag : string) (err : exn) : M world response :=
  console_error (str tag ++ str " Error: " ++ message_of err) ;;
  reply 500 (obj [("error", JS "Internal server error")]).

(** ** GET /api/health *)
Definition health (cfg : config) : M world response :=
  reply 200 (obj [("status", JS "ok");
                  ("endpoint", JStr (RUNPOD_ENDPOINT_ID cfg))]).

(** ** POST /api/generate *)
Definition generate (cfg : config) (body : value) (up : upstream)
  : M world response :=
  try_catch
    (lyrics <- lift (get body "lyrics") ;;
     tags <- lift (get body "tags") ;;
     duration_ms <- lift (get body "duration_ms") ;;
     temperature <- lift (get body "temperature") ;;
     topk <- lift (get body "topk") ;;
     cfg_scale <- lift (get body "cfg_scale") ;;
     no_lyrics <- blank lyrics ;;
     if no_lyrics then reply 400 (obj [("error", JS "lyrics is required")]) else
     no_tags <- blank tags ;;
     if no_tags then reply 400 (obj [("error", JS "tags is required")]) else
     parsed <- lift (parseInt duration_ms) ;;
     let duration := Math_min (or_num parsed (of_Z 120000)) (of_Z 240000) in
     lyrics' <- lift (call_trim lyrics) ;;
     tags' <- lift (call_trim tags) ;;
     temperature' <- lift (parseFloat temperature) ;;
     topk' <- lift (parseInt topk) ;;
     cfg_scale' <- lift (parseFloat cfg_scale) ;;
     let payload :=
       obj [("input",
             obj [("lyrics", lyrics');
                  ("tags", tags');
                  ("duration_ms", JNum duration);
                  ("temperature", JNum (or_num temperature' (mk_fin false 1 0)));
                  ("topk", JNum (or_num topk' (of_Z 50)));
                  ("cfg_scale", JNum (or_num cfg_scale' (mk_fin false 15 (-1))))])] in
     len <- lift (length_of lyrics) ;;
     len_text <- lift (to_string len) ;;
     tags_text <- lift (to_string tags) ;;
     console_log (str "[generate] Submitting job: lyrics=" ++ len_text
                  ++ str " chars, tags=" ++ [34%N] ++ tags_text ++ [34%N]
                  ++ str ", duration=" ++ number_to_string duration ++ str "ms") ;;
     r <- fetch "POST" (RUNPOD_BASE cfg ++ str "/run") (Some payload) up ;;
     let '(status, text, json) := r in
     if negb (ok status) then
       text' <- lift text ;;
       console_error (str "[generate] RunPod error: "
                      ++ number_to_string (of_Z status) ++ str " " ++ text') ;;
       reply 502 (obj [("error", JS "Failed to submit job to RunPod")])
     else
       data <- lift json ;;
       id <- lift (get data "id") ;;
       id_text <- lift (to_string id) ;;
       console_log (str "[generate] Job submitted: " ++ id_text) ;;
       st <- lift (get data "status") ;;
       reply 200 (obj [("jobId", id); ("status", st)]))
    (internal_error "[generate]").

(** ** GET /api/status/:jobId *)
Definition status (cfg : config) (jobId : jsstring) (up : upstream)
  : M world response :=
  try_catch
    (r <- fetch "GET" (RUNPOD_BASE cfg ++ str "/status/" ++ jobId) None up ;;
     let '(code, text, json) := r in
     if negb (ok code) then
       text' <- lift text ;;
       console_error (str "[status] RunPod error: "
                      ++ number_to_string (of_Z code) ++ str " " ++ text') ;;
       reply 502 (obj [("error", JS "Failed to get job status")])
     else
       data <- lift json ;;
       id <- lift (get data "id") ;;
       st <- lift (get data "status") ;;
       let result := [(str "jobId", id); (str "status", st)] in
       output <- (if is_str st "COMPLETED" then lift (get data "output")
                  else ret JUndefined) ;;
       let result :=
         if is_str st "COMPLETED" && truthy output
         then set_field (str "output") output result else result in
       error <- (if is_str st "FAILED" then lift (get data "error")
                 else ret JUndefined) ;;
       let result :=
         if is_str st "FAILED"
         then set_field (str "error") (or_else error (JS "Job failed")) result
         else result in
       reply 200 (JObj result))
    (internal_error "[status]").

(** ** POST /api/cancel/:jobId *)
Definition cancel (cfg : config) (jobId : jsstring) (up : upstream)
  : M world response :=
  try_catch
    (r <- fetch "POST" (RUNPOD_BASE cfg ++ str "/cancel/" ++ jobId) None up ;;
     let '(_, _, json) := r in
     data <- lift json ;;
     reply 200 data)
    (internal_error "[cancel]").

(** ** The middleware chain *)

Record request := {
  method : string;
  path : list jsstring;       (* the URL path as sent, split at its slashes *)
  origin : option jsstring;   (* the Origin header *)
  ip : jsstring;
  body : value;               (* as left by [express.json] *)
  now : Z                     (* arrival time, in milliseconds *)
}.

(** Express matches path segments without regard to letter case. *)
Definition seg (s : jsstring) (name : string) : bool :=
  str_eqb (map lower s) (str name).

(** The [origin] callback given to [cors]. *)
Definition cors_allows (cfg : config) (o : option jsstring) : bool :=
  match o with
  | None => true
  | Some [] => true
  | Some o' => existsb (str_eqb o') (allowedOrigins cfg)
  end.

(** [app.use("/api/", limiter)]: the mount point covers every path whose
    first segment is [api]. *)
Definition under_api (p : list jsstring) : bool :=
  match p with
  | s :: _ => seg s "api"
  | [] => false
  end.

(** [req.path.startsWith("/api/")], on the split path. *)
Definition starts_with_api (p : list jsstring) : bool :=
  match p with
  | s :: _ :: _ => str_eqb s (str "api")
  | _ => false
  end.

Definition windowMs : Z := 60 * 1000.
Definition max : Z := 10.

Fixpoint lookup (k : jsstring) (st : list (jsstring * window)) : option window :=
  match st with
  | [] => None
  | (k', w) :: rest => if str_eqb k k' then Some w else lookup k rest
  end.

Fixpoint update (k : jsstring) (w : window) (st : list (jsstring * window))
  : list (jsstring * window) :=
  match st with
  | [] => [(k, w)]
  | (k', w') :: rest =>
      if str_eqb k k' then (k, w) :: rest else (k', w') :: update k w rest
  end.

(** Modelled from the spec: the middleware that [rateLimit] builds
    (package express-rate-limit, a dependency that is not part of the
    sources).  The spec has "N requests per fixed window per caller",
    with "requests beyond the limit" receiving "a rate-limit error
    rather than being queued or delayed": the first request of a caller
    opens a window of [windowMs]; every request in the window counts
    one hit; a request whose hit count exceeds [max] is answered 429
    with [message] and goes no further; a request arriving once the
    window has ended opens a new one.  The caller is told by its IP,
    the package's default key. *)
Definition limiter (req : request) (next : M world response) : M world response :=
  entry <- gets (fun w => lookup (ip req) (store w)) ;;
  let fresh := {| totalHits := 0; resetTime := now req + windowMs |} in
  let current :=
    match entry with
    | Some e => if (now req <? resetTime e)%Z then e else fresh
    | None => fresh
    end in
  let hit := {| totalHits := totalHits current + 1;
                resetTime := resetTime current |} in
  modify (fun w => {| trace := trace w;
                      store := update (ip req) hit (store w) |}) ;;
  if (max <? totalHits hit)%Z
  then reply 429 (obj [("error", JS "Too many requests, please try again later.")])
  else next.

(** Routes are not strict: one slash at the end of a path is left out
    of account when a route is matched. *)
Fixpoint unslash (p : list jsstring) : list jsstring :=
  match p with
  | [] => []
  | s :: rest =>
      match rest with
      | [[]] => [s]
      | _ => s :: unslash rest
      end
  end.

Definition decodable (s : jsstring) : bool :=
  match decodeURIComponent s with Some _ => true | None => false end.

(** The framework's answer when a route parameter cannot be decoded:
    the error page of status 400, whatever the method. *)
Definition malformed : M world response := reply 400 (JS "Bad Request").

(** [express.static] and [GET *], the last route.  The parameter of [*]
    is the whole path, decoded like any other: a path with a malformed
    escape is answered 400.  Any other method than GET and HEAD falls
    to the framework's own 404. *)
Definition fallback (req : request) : M world response :=
  if negb (forallb decodable (path req)) then malformed
  else if String.eqb (method req) "GET" || String.eqb (method req) "HEAD" then
    if starts_with_api (path req)
    then reply 404 (obj [("error", JS "Not found")])
    else reply 200 (JS "index.html")
  else reply 404 (JS "Not Found").

(** The routes, in the order they are registered.  A route is found by
    its path alone, letter case and one final slash apart, and [:jobId]
    is decoded as soon as the path fits, before the method is looked
    at; the handler runs if the method fits too. *)
Definition routes (cfg : config) (req : request) (up : upstream)
  : M world response :=
  let get_like := String.eqb (method req) "GET" || String.eqb (method req) "HEAD" in
  let post := String.eqb (method req) "POST" in
  match unslash (path req) with
  | [a; h] =>
      if get_like && seg a "api" && seg h "health" then health cfg
      else if post && seg a "api" && seg h "generate"
      then generate cfg (body req) up
      else fallback req
  | [a; s; raw] =>
      let named := match raw with [] => false | _ => true end in
      if seg a "api" && (seg s "status" || seg s "cancel") && named then
        match decodeURIComponent raw with
        | None => malformed
        | Some jobId =>
            if get_like && seg s "status" then status cfg jobId up
            else if post && seg s "cancel" then cancel cfg jobId up
            else fallback req
        end
      else fallback req
  | _ => fallback req
  end.

(** Modelled from the spec: the middleware that [cors] builds (package
    cors, not part of the sources) around the [origin] callback above.
    "Requests from disallowed origins are rejected before reaching the
    gateway": the callback's error goes to the framework's error
    handler, which answers 500; a preflight is answered by the
    middleware itself and goes no further. *)
Definition cors (cfg : config) (req : request) (next : M world response)
  : M world response :=
  if negb (cors_allows cfg (origin req))
  then reply 500 (JS "Error: Not allowed by CORS")
  else if String.eqb (method req) "OPTIONS" then reply 204 JUndefined
  else next.

(** One request through the application, in the order of the [app.use]
    calls: [helmet] and [express.json] leave the outcome as it is; then
    [cors]; then the limiter, on [/api/]; then the routes.  A request
    has the body that [express.json] has parsed: one whose body does
    not parse is answered by [express.json] itself and is not a
    [request]. *)
Definition app (cfg : config) (req : request) (up : upstream)
  : M world response :=
  cors cfg req
    (if under_api (path req) then limiter req (routes cfg req up)
     else routes cfg req up).

End Server.

(* ===================================================================== *)
(** * The browser: [atob], [Uint8Array], [Blob] *)
(* ===================================================================== *)

Module Browser.
Import JS.
Local Open Scope N_scope.
Local Open Scope list_scope.

(** ASCII whitespace, as the forgiving-base64 decoder removes it. *)
Definition is_ascii_ws (c : N) : bool :=
  (c =? 9) || (c =? 10) || (c =? 12) || (c =? 13) || (c =? 32).

(** The value of a character of the base64 alphabet. *)
Definition b64_val (c : N) : option N :=
  if (65 <=? c) && (c <=? 90) then Some (c - 65)
  else if (97 <=? c) && (c <=? 122) then Some (c - 71)
  else if (48 <=? c) && (c <=? 57) then Some (c + 4)
  else if c =? 43 then Some 62
  else if c =? 47 then Some 63
  else None.

(** When the length is a multiple of four, one or two [=] at the end
    are dropped. *)
Definition strip_padding (data : jsstring) : jsstring :=
  if (N.of_nat (List.length data) mod 4 =? 0) then
    match rev data with
    | c1 :: c2 :: r =>
        if (c1 =? 61) && (c2 =? 61) then rev r
        else if c1 =? 61 then rev (c2 :: r) else data
    | _ => data
    end
  else data.

Fixpoint sextets (data : jsstring) : option (list N) :=
  match data with
  | [] => Some []
  | c :: rest =>
      match b64_val c, sextets rest with
      | Some v, Some vs => Some (v :: vs)
      | _, _ => None
      end
  end.

(** Four sextets make three bytes; a tail of two makes one byte and a
    tail of three makes two, the spare bits being dropped. *)
Fixpoint bytes_of (vs : list N) : list N :=
  match vs with
  | a :: b :: c :: d :: rest =>
      (a * 4 + b / 16) :: ((b mod 16) * 16 + c / 4) :: ((c mod 4) * 64 + d)
      :: bytes_of rest
  | [a; b; c] => [a * 4 + b / 16; (b mod 16) * 16 + c / 4]
  | [a; b] => [a * 4 + b / 16]
  | _ => []
  end.

(** The forgiving-base64 decode of the HTML standard, which is what
    [atob] runs on its argument. *)
Definition forgiving_base64_decode (input : jsstring) : option (list N) :=
  let data := filter (fun c => negb (is_ascii_ws c)) input in
  let data := strip_padding data in
  if (N.of_nat (List.length data) mod 4 =? 1) then None
  else option_map bytes_of (sextets data).

(** [atob(v)]: the argument is converted to a string first; the result
    is a binary string, one code unit per byte. *)
Definition atob (v : value) : result jsstring :=
  rbind (to_string v) (fun s =>
    match forgiving_base64_decode s with
    | Some bytes => Ok bytes
    | None => Throw InvalidCharacterError
    end).

(** [arr[i] = x] on a [Uint8Array]: the value is stored modulo 256; an
    index past the end is ignored. *)
Fixpoint store_byte (i : nat) (x : N) (arr : list N) : list N :=
  match arr, i with
  | [], _ => []
  | _ :: rest, O => (x mod 256) :: rest
  | y :: rest, S i' => y :: store_byte i' x rest
  end.

(** [s.charCodeAt(i)] for an index inside the string. *)
Definition charCodeAt (s : jsstring) (i : nat) : N := nth i s 0.

(** A [Blob]: its bytes and its media type. *)
Record blob := { data : list N; type : jsstring }.

(** The [type] option of the [Blob] constructor: lower-cased, or empty
    when it has a character outside U+0020..U+007E. *)
Definition blob_type (t : jsstring) : jsstring :=
  if forallb (fun c => (32 <=? c) && (c <=? 126)) t then map lower t else [].

Definition new_Blob (parts : list (list N)) (t : jsstring) : blob :=
  {| data := List.concat parts; type := blob_type t |}.

End Browser.

(* ===================================================================== *)
(** * The client: App.js *)
(* ===================================================================== *)

Module Client.
Import JS Eff Browser.
Local Open Scope string_scope.
Local Open Scope list_scope.
Local Open Scope eff_scope.

(** [process.env.REACT_APP_API_URL || "http://localhost:3001"], at its
    default. *)
Definition API_URL : jsstring := str "http://localhost:3001".
Definition POLL_INTERVAL : Z := 3000.

Definition DURATION_OPTIONS : list number :=
  map of_Z [30000; 60000; 120000; 180000; 240000]%Z.

Inductive effect :=
| Fetch (method : string) (url : jsstring) (body : option value)
| ConsoleError (label : jsstring) (err : exn).

(** A running [setInterval]: its id, its period, and the job id its
    callback closes over. *)
Record interval := { timer : positive; period : Z; job : value }.

(** The component: its React state, its ref, and what it holds in the
    browser (interval timers, object URLs, requests awaiting their
    response, and the calls made so far). *)
Record app := {
  lyrics : jsstring;
  tags : jsstring;
  durationMs : number;
  status : value;
  error : value;
  audioSrc : value;
  inferenceTime : value;
  loading : bool;
  pollRef : option positive;           (* pollRef.current *)
  intervals : list interval;
  next_timer : positive;
  object_urls : list (jsstring * blob);
  submitting : nat;                    (* POST /api/generate in flight *)
  trace : list effect
}.

Definition setLyrics (x : jsstring) (a : app) : app :=
  {| lyrics := x; tags := tags a; durationMs := durationMs a; status := status a; error := error a; audioSrc := audioSrc a; inferenceTime := inferenceTime a; loading := loading a; pollRef := pollRef a; intervals := intervals a; next_timer := next_timer a; object_urls := object_urls a; submitting := submitting a; trace := trace a |}.

Definition setTags (x : jsstring) (a : app) : app :=
  {| lyrics := lyrics a; tags := x; durationMs := durationMs a; status := status a; error := error a; audioSrc := audioSrc a; inferenceTime := inferenceTime a; loading := loading a; pollRef := pollRef a; intervals := intervals a; next_timer := next_timer a; object_urls := object_urls a; submitting := submitting a; trace := trace a |}.

Definition setDurationMs (x : number) (a : app) : app :=
  {| lyrics := lyrics a; tags := tags a; durationMs := x; status := status a; error := error a; audioSrc := audioSrc a; inferenceTime := inferenceTime a; loading := loading a; pollRef := pollRef a; intervals := intervals a; next_timer := next_timer a; object_urls := object_urls a; submitting := submitting a; trace := trace a |}.

Definition setStatus (x : value) (a : app) : app :=
  {| lyrics := lyrics a; tags := tags a; durationMs := durationMs a; status := x; error := error a; audioSrc := audioSrc a; inferenceTime := inferenceTime a; loading := loading a; pollRef := pollRef a; intervals := intervals a; next_timer := next_timer a; object_urls := object_urls a; submitting := submitting a; trace := trace a |}.

Definition setError (x : value) (a : app) : app :=
  {| lyrics := lyrics a; tags := tags a; durationMs := durationMs a; status := status a; error := x; audioSrc := audioSrc a; inferenceTime := inferenceTime a; loading := loading a; pollRef := pollRef a; intervals := intervals a; next_timer := next_timer a; object_urls := object_urls a; submitting := submitting a; trace := trace a |}.

Definition setAudioSrc (x : value) (a : app) : app :=
  {| lyrics := lyrics a; tags := tags a; durationMs := durationMs a; status := status a; error := error a; audioSrc := x; inferenceTime := inferenceTime a; loading := loading a; pollRef := pollRef a; intervals := intervals a; next_timer := next_timer a; object_urls := object_urls a; submitting := submitting a; trace := trace a |}.

Definition setInferenceTime (x : value) (a : app) : app :=
  {| lyrics := lyrics a; tags := tags a; durationMs := durationMs a; status := status a; error := error a; audioSrc := audioSrc a; inferenceTime := x; loading := loading a; pollRef := pollRef a; intervals := intervals a; next_timer := next_timer a; object_urls := object_urls a; submitting := submitting a; trace := trace a |}.

Definition setLoading (x : bool) (a : app) : app :=
  {| lyrics := lyrics a; tags := tags a; durationMs := durationMs a; status := status a; error := error a; audioSrc := audioSrc a; inferenceTime := inferenceTime a; loading := x; pollRef := pollRef a; intervals := intervals a; next_timer := next_timer a; object_urls := object_urls a; submitting := submitting a; trace := trace a |}.

Definition set_pollRef (x : option positive) (a : app) : app :=
  {| lyrics := lyrics a; tags := tags a; durationMs := durationMs a; status := status a; error := error a; audioSrc := audioSrc a; inferenceTime := inferenceTime a; loading := loading a; pollRef := x; intervals := intervals a; next_timer := next_timer a; object_urls := object_urls a; submitting := submitting a; trace := trace a |}.

Definition set_intervals (x : list interval) (a : app) : app :=
  {| lyrics := lyrics a; tags := tags a; durationMs := durationMs a; status := status a; error := error a; audioSrc := audioSrc a; inferenceTime := inferenceTime a; loading := loading a; pollRef := pollRef a; intervals := x; next_timer := next_timer a; object_urls := object_urls a; submitting := submitting a; trace := trace a |}.

Definition set_next_timer (x : positive) (a : app) : app :=
  {| lyrics := lyrics a; tags := tags a; durationMs := durationMs a; status := status a; error := error a; audioSrc := audioSrc a; inferenceTime := inferenceTime a; loading := loading a; pollRef := pollRef a; intervals := intervals a; next_timer := x; object_urls := object_urls a; submitting := submitting a; trace := trace a |}.

Definition set_object_urls (x : list (jsstring * blob)) (a : app) : app :=
  {| lyrics := lyrics a; tags := tags a; durationMs := durationMs a; status := status a; error := error a; audioSrc := audioSrc a; inferenceTime := inferenceTime a; loading := loading a; pollRef := pollRef a; intervals := intervals a; next_timer := next_timer a; object_urls := x; submitting := submitting a; trace := trace a |}.

Definition set_submitting (x : nat) (a : app) : app :=
  {| lyrics := lyrics a; tags := tags a; durationMs := durationMs a; status := status a; error := error a; audioSrc := audioSrc a; inferenceTime := inferenceTime a; loading := loading a; pollRef := pollRef a; intervals := intervals a; next_timer := next_timer a; object_urls := object_urls a; submitting := x; trace := trace a |}.

Definition set_trace (x : list effect) (a : app) : app :=
  {| lyrics := lyrics a; tags := tags a; durationMs := durationMs a; status := status a; error := error a; audioSrc := audioSrc a; inferenceTime := inferenceTime a; loading := loading a; pollRef := pollRef a; intervals := intervals a; next_timer := next_timer a; object_urls := object_urls a; submitting := submitting a; trace := x |}.

Definition initial : app :=
  {| lyrics := []; tags := []; durationMs := of_Z 120000;
     status := JNull; error := JNull; audioSrc := JNull;
     inferenceTime := JNull; loading := false;
     pollRef := None; intervals := []; next_timer := 1%positive;
     object_urls := []; submitting := O; trace := [] |}.

Definition emit (e : effect) : M app unit :=
  modify (fun a => set_trace (trace a ++ [e]) a).

(** What the client gets back from one request to the gateway: a
    rejected promise, or a response with its [ok] flag and the outcome
    of [res.json()]. *)
Inductive reply :=
| NoResponse (message : jsstring)
| Answer (ok : bool) (json : result value).

(** [await fetch(url, init)]. *)
Definition fetch (method : string) (url : jsstring) (body : option value)
  (r : reply) : M app (bool * result value) :=
  emit (Fetch method url body) ;;
  match r with
  | NoResponse m => throw (Rejected m)
  | Answer ok json => ret (ok, json)
  end.

(** ** Timers and object URLs *)

Definition setInterval (jobId : value) (ms : Z) : M app positive :=
  fun a =>
    let id := next_timer a in
    (set_next_timer (Pos.succ id)
       (set_intervals (intervals a ++ [{| timer := id; period := ms; job := jobId |}]) a),
     Ok id).

Definition clearInterval (id : positive) : M app unit :=
  modify (fun a =>
    set_intervals (filter (fun iv => negb (Pos.eqb (timer iv) id)) (intervals a)) a).

(** [URL.createObjectURL(blob)]: a fresh URL, kept until it is revoked
    (which App.js never does). *)
Definition createObjectURL (b : blob) : M app jsstring :=
  fun a =>
    let url := str "blob:" ++ digits (N.of_nat (List.length (object_urls a))) in
    (set_object_urls (object_urls a ++ [(url, b)]) a, Ok url).

(** ** [base64ToBlob] *)

(** The [for] loop, from index [i], with [fuel] iterations left. *)
Fixpoint fill (fuel : nat) (i : nat) (bytes : jsstring) (arr : list N) : list N :=
  match fuel with
  | O => arr
  | S fuel' =>
      if Nat.ltb i (List.length bytes)
      then fill fuel' (S i) bytes (store_byte i (charCodeAt bytes i) arr)
      else arr
  end.

Definition base64ToBlob (base64 : value) (mimeType : jsstring) : result blob :=
  rbind (atob base64) (fun bytes =>
    let arr := repeat 0%N (List.length bytes) in
    let arr := fill (List.length bytes) 0 bytes arr in
    Ok (new_Blob [arr] mimeType)).

(** ** [stopPolling] *)
Definition stopPolling : M app unit :=
  current <- gets pollRef ;;
  match current with
  | Some id => clearInterval id ;; modify (set_pollRef None)
  | None => ret tt
  end.

(** ** [pollStatus] *)

(** The body of the interval callback, run to completion on the reply
    to its status request. *)
Definition poll (jobId : value) (r : reply) : M app unit :=
  try_catch
    (id <- lift (to_string jobId) ;;
     res <- fetch "GET" (API_URL ++ str "/api/status/" ++ id) None r ;;
     data <- lift (snd res) ;;
     st <- lift (get data "status") ;;
     modify (setStatus st) ;;
     output <- (if is_str st "COMPLETED" then lift (get data "output")
                else ret JUndefined) ;;
     when (is_str st "COMPLETED" && truthy output)
       (stopPolling ;;
        modify (setLoading false) ;;
        ostatus <- lift (get output "status") ;;
        audio <- (if is_str ostatus "success"
                  then lift (get output "audio_base64") else ret JUndefined) ;;
        if is_str ostatus "success" && truthy audio then
          blob <- lift (base64ToBlob audio (str "audio/mpeg")) ;;
          url <- createObjectURL blob ;;
          modify (setAudioSrc (JStr url)) ;;
          seconds <- lift (get output "inference_time_sec") ;;
          modify (setInferenceTime seconds)
        else
          message <- lift (get output "message") ;;
          modify (setError (or_else message (JS "Generation failed")))) ;;
     when (is_str st "FAILED")
       (stopPolling ;;
        modify (setLoading false) ;;
        err <- lift (get data "error") ;;
        modify (setError (or_else err (JS "Job failed")))))
    (fun err => emit (ConsoleError (str "Poll error:") err)).

Definition pollStatus (jobId : value) : M app unit :=
  id <- setInterval jobId POLL_INTERVAL ;;
  modify (set_pollRef (Some id)).

(** ** [handleGenerate]

    The function runs up to its [await fetch], and resumes when the
    promise settles. *)
Definition is_empty (s : jsstring) : bool :=
  match s with [] => true | _ => false end.

Definition handleGenerate : M app unit :=
  l <- gets lyrics ;;
  t <- gets tags ;;
  if is_empty (trim l) || is_empty (trim t) then ret tt else
  modify (setLoading true) ;;
  modify (setError JNull) ;;
  modify (setAudioSrc JNull) ;;
  modify (setStatus (JS "SUBMITTING")) ;;
  modify (setInferenceTime JNull) ;;
  stopPolling ;;
  d <- gets durationMs ;;
  emit (Fetch "POST" (API_URL ++ str "/api/generate")
          (Some (Server.obj [("lyrics", JStr (trim l));
                             ("tags", JStr (trim t));
                             ("duration_ms", JNum d)]))) ;;
  modify (fun a => set_submitting (S (submitting a)) a).

Definition handleGenerate_resume (r : reply) : M app unit :=
  try_catch
    (match r with
     | NoResponse m => throw (Rejected m)
     | Answer ok json =>
         if negb ok then
           data <- lift json ;;
           e <- lift (get data "error") ;;
           message <- lift (to_string (or_else e (JS "Request failed"))) ;;
           throw (Error message)
         else
           data <- lift json ;;
           st <- lift (get data "status") ;;
           modify (setStatus (or_else st (JS "IN_QUEUE"))) ;;
           jobId <- lift (get data "jobId") ;;
           pollStatus jobId
     end)
    (fun err =>
       modify (setError (JStr (message_of err))) ;;
       modify (setLoading false) ;;
       modify (setStatus JNull)).

(** ** The component as a transition system *)

Inductive event :=
| TypeLyrics (s : jsstring)
| TypeTags (s : jsstring)
| PickDuration (i : nat)
| Click
| Settled (r : reply)
| Tick (id : positive) (r : reply).

(** The [disabled] attribute of the Generate button. *)
Definition disabled (a : app) : bool :=
  loading a || is_empty (trim (lyrics a)) || is_empty (trim (tags a)).

Definition exec (c : M app unit) (a : app) : app := fst (c a).

Definition step (e : event) (a : app) : app :=
  match e with
  | TypeLyrics s => if loading a then a else setLyrics s a
  | TypeTags s => if loading a then a else setTags s a
  | PickDuration i =>
      if loading a then a
      else match nth_error DURATION_OPTIONS i with
           | Some d => setDurationMs d a
           | None => a
           end
  | Click => if disabled a then a else exec handleGenerate a
  | Settled r =>
      match submitting a with
      | O => a
      | S n => exec (handleGenerate_resume r) (set_submitting n a)
      end
  | Tick id r =>
      match find (fun iv => Pos.eqb (timer iv) id) (intervals a) with
      | Some iv => exec (poll (job iv) r) a
      | None => a
      end
  end.

Fixpoint run (es : list event) (a : app) : app :=
  match es with
  | [] => a
  | e :: es' => run es' (step e a)
  end.

End Client.

(* ===================================================================== *)
(** * Vocabulary of the properties *)
(* ===================================================================== *)

Module Props.
Import JS Eff Server.
Local Open Scope string_scope.
Local Open Scope list_scope.

(** ** Gateway side *)

(** The provider could not be asked, or answered outside 200..299. *)
Definition upstream_failed (up : Server.upstream) : Prop :=
  match up with
  | Server.Unreachable _ => True
  | Server.Responds c _ _ => Server.ok c = false
  end.

Definition outbound (e : Server.effect) : bool :=
  match e with Server.Outbound _ _ _ => true | Server.Console _ _ => false end.

(** The calls to the provider recorded so far. *)
Definition calls (w : Server.world) : list Server.effect :=
  filter outbound (Server.trace w).

Definition fields_of (v : value) : list (jsstring * value) :=
  match v with JObj f => f | _ => [] end.

Definition sample : Server.config :=
  {| Server.RUNPOD_API_KEY := str "key";
     Server.RUNPOD_ENDPOINT_ID := str "ep";
     Server.allowedOrigins := [str "http://localhost:3000"] |}.

Definition idle : Server.world := {| Server.trace := []; Server.store := [] |}.

(** A field that is missing, [null], empty or made of white space. *)
Definition blankb (v : value) : bool :=
  match v with
  | JUndefined | JNull => true
  | JStr s => match trim s with [] => true | _ => false end
  | _ => false
  end.

(** A field that holds text. *)
Definition textb (v : value) : bool :=
  match v with JStr _ => true | _ => false end.

Definition bad_request (msg : string) : Server.response :=
  {| Server.code := 400; Server.payload := Server.obj [("error", JS msg)] |}.

(** The answer of the catch-all. *)
Definition server_error : Server.response :=
  {| Server.code := 500;
     Server.payload := Server.obj [("error", JS "Internal server error")] |}.

(** ** Decimal digits *)




(** ** Request fields *)



(** [ToString] succeeds on the value. *)
Definition printable (v : value) : bool :=
  match to_string v with Ok _ => true | Throw _ => false end.

(** A request that passes both checks and whose four numeric fields can
    be read: the requests that are submitted to the provider. *)
Definition accepted (fields : list (jsstring * value)) : bool :=
  textb (assoc (str "lyrics") fields)
  && negb (blankb (assoc (str "lyrics") fields))
  && textb (assoc (str "tags") fields)
  && negb (blankb (assoc (str "tags") fields))
  && printable (assoc (str "duration_ms") fields)
  && printable (assoc (str "temperature") fields)
  && printable (assoc (str "topk") fields)
  && printable (assoc (str "cfg_scale") fields).


(** The text of a printable value. *)
Definition text_of (v : value) : jsstring :=
  match to_string v with Ok s => s | Throw _ => [] end.

(** ** The rate limiter *)

(** A request that gets as far as the limiter. *)
Definition reaches_limiter (cfg : config) (req : request) : bool :=
  cors_allows cfg (origin req)
  && negb (String.eqb (method req) "OPTIONS")
  && under_api (path req).

(** A request for a path under [/api/], told by its first segment as
    the client writes it. *)
Definition under_api_path (req : request) : Prop :=
  exists rest, path req = str "api" :: rest.

(** The four routes of the gateway, as a client asks for them. *)
Definition get_health (o : option jsstring) (caller : jsstring) (t : Z) : request :=
  {| method := "GET"; path := [str "api"; str "health"];
     origin := o; ip := caller; body := JUndefined; now := t |}.

Definition post_generate (o : option jsstring) (caller : jsstring) (b : value)
  (t : Z) : request :=
  {| method := "POST"; path := [str "api"; str "generate"];
     origin := o; ip := caller; body := b; now := t |}.

Definition get_status (o : option jsstring) (caller jobId : jsstring) (t : Z)
  : request :=
  {| method := "GET"; path := [str "api"; str "status"; jobId];
     origin := o; ip := caller; body := JUndefined; now := t |}.

Definition post_cancel (o : option jsstring) (caller jobId : jsstring) (t : Z)
  : request :=
  {| method := "POST"; path := [str "api"; str "cancel"; jobId];
     origin := o; ip := caller; body := JUndefined; now := t |}.

(** The rate-limit error. *)
Definition too_many : response :=
  {| code := 429;
     payload := obj [("error", JS "Too many requests, please try again later.")] |}.

(** The answer is the limiter's 429. *)
Definition limited (r : result response) : bool :=
  match r with
  | Ok resp => (code resp =? 429)%Z
  | Throw _ => false
  end.

(** Requests served one after the other, each with what the provider
    would answer if asked. *)
Fixpoint serve (cfg : config) (reqs : list (request * upstream)) (w : world)
  : list (result response) * world :=
  match reqs with
  | [] => ([], w)
  | (req, up) :: rest =>
      let '(w', r) := app cfg req up w in
      let '(rs, w'') := serve cfg rest w' in
      (r :: rs, w'')
  end.

(** The status requests of one poller: one every [POLL_INTERVAL]. *)
Definition polls (o : option jsstring) (caller jobId : jsstring) (t0 : Z)
  (up : nat -> upstream) (n : nat) : list (request * upstream) :=
  map (fun i =>
         ({| method := "GET"; path := [str "api"; str "status"; jobId];
             origin := o; ip := caller; body := JUndefined;
             now := t0 + Client.POLL_INTERVAL * Z.of_nat i |}, up i))
      (seq 0 n).

(** A computation that leaves the rate-limit store alone and whose
    result, if any, satisfies [P]. *)
Definition safe {A} (P : A -> Prop) (c : M world A) : Prop :=
  forall s, store (fst (c s)) = store s /\
            match snd (c s) with Ok a => P a | Throw _ => True end.

Definition any {A} (_ : A) : Prop := True.
Definition not_429 (r : response) : Prop := code r <> 429%Z.

End Props.

(* ===================================================================== *)
(** * Vocabulary of the client properties *)
(* ===================================================================== *)

Module ClientProps.
Import JS Eff Browser Client.
Local Open Scope string_scope.
Local Open Scope list_scope.

Definition data_reply (d : value) : reply := Answer true (Ok d).

(** The one interval of a poller. *)
Definition poller (id : positive) (jobId : value) : interval :=
  {| timer := id; period := POLL_INTERVAL; job := jobId |}.

(** The component is polling for one job and has no other timer. *)
Definition polling (a : app) (id : positive) (jobId : value) : Prop :=
  pollRef a = Some id /\ intervals a = [poller id jobId].

Definition status_of (fields : list (jsstring * value)) : value :=
  assoc (str "status") fields.

(** A resolution at which the code stops: COMPLETED with an output, or
    FAILED. *)
Definition conclusive (fields : list (jsstring * value)) : bool :=
  (is_str (status_of fields) "COMPLETED" && truthy (assoc (str "output") fields))
  || is_str (status_of fields) "FAILED".

(** A resolution at which the poller carries on. *)
Definition pending (fields : list (jsstring * value)) : bool :=
  negb (conclusive fields).

Definition is_status_fetch (e : effect) : bool :=
  match e with
  | Fetch m url _ =>
      String.eqb m "GET" && starts_with (API_URL ++ str "/api/status/") url
  | ConsoleError _ _ => false
  end.

(** The status resolutions issued so far, and the results materialized
    so far. *)
Definition resolutions (a : app) : nat :=
  List.length (filter is_status_fetch (trace a)).
Definition materializations (a : app) : nat := List.length (object_urls a).

Definition status_url (jobId : value) : jsstring :=
  API_URL ++ str "/api/status/" ++ Props.text_of jobId.


(** The state once the status request has gone out. *)
Definition asked (jobId : value) (a : app) : app :=
  set_trace (trace a ++ [Fetch "GET" (status_url jobId) None]) a.

(** The next object URL. *)
Definition fresh_url (a : app) : jsstring :=
  str "blob:" ++ digits (N.of_nat (List.length (object_urls a))).

(** A property of a value that is neither [null] nor [undefined]. *)
Definition field (v : value) (k : string) : value :=
  match get v k with Ok x => x | Throw _ => JUndefined end.

(** What one run of the interval callback makes of a status resolution
    that is a JSON object, written out as a function of the state:
    [ClientFacts.poll_observes] proves that [poll] computes it. *)
Definition observe (jobId : value) (fields : list (jsstring * value)) (a : app)
  : app :=
  let output := assoc (str "output") fields in
  let a1 := setStatus (status_of fields) (asked jobId a) in
  if is_str (status_of fields) "COMPLETED" && truthy output then
    let a2 := setLoading false (exec stopPolling a1) in
    if is_str (field output "status") "success"
       && truthy (field output "audio_base64") then
      match base64ToBlob (field output "audio_base64") (str "audio/mpeg") with
      | Ok blob =>
          setInferenceTime (field output "inference_time_sec")
            (setAudioSrc (JStr (fresh_url a2))
               (set_object_urls (object_urls a2 ++ [(fresh_url a2, blob)]) a2))
      | Throw e => set_trace (trace a2 ++ [ConsoleError (str "Poll error:") e]) a2
      end
    else setError (or_else (field output "message") (JS "Generation failed")) a2
  else if is_str (status_of fields) "FAILED" then
    setError (or_else (assoc (str "error") fields) (JS "Job failed"))
      (setLoading false (exec stopPolling a1))
  else a1.

(** A session in which one job has been submitted and is being polled. *)
Definition started : app :=
  run [TypeLyrics (str "la la"); TypeTags (str "pop"); Click;
       Settled (Answer true
                  (Ok (Server.obj [("jobId", JS "job-1");
                                   ("status", JS "IN_QUEUE")])))]
      initial.

(** Timer slots of one poller, each answered with a status resolution. *)
Definition feed (id : positive) (ds : list (list (jsstring * value)))
  : list event :=
  map (fun fields => Tick id (data_reply (JObj fields))) ds.

Definition resolution (st : string) (extra : list (string * value))
  : list (jsstring * value) :=
  Props.fields_of (Server.obj (("jobId", JS "job-1") :: ("status", JS st) :: extra)).

(** Every running timer is the one [pollRef] holds. *)
Definition owned (a : app) : Prop :=
  match pollRef a with
  | Some id => exists jobId, intervals a = [poller id jobId]
  | None => intervals a = []
  end.

(** What holds of the component at every moment: the timer is owned,
    at most one submission is in flight and then no poller runs, and
    whenever the button is not loading there is neither. *)
Definition coherent (a : app) : Prop :=
  owned a /\
  (submitting a = 0%nat \/ (submitting a = 1%nat /\ pollRef a = None)) /\
  (loading a = false -> pollRef a = None /\ submitting a = 0%nat).

(** The state [handleGenerate] has built when it issues its request. *)
Definition reset (a : app) : app :=
  exec stopPolling
    (setInferenceTime JNull
       (setStatus (JS "SUBMITTING")
          (setAudioSrc JNull (setError JNull (setLoading true a))))).

(** The request [handleGenerate] issues. *)
Definition submission (a : app) : effect :=
  Fetch "POST" (API_URL ++ str "/api/generate")
    (Some (Server.obj [("lyrics", JStr (trim (lyrics a)));
                       ("tags", JStr (trim (tags a)));
                       ("duration_ms", JNum (durationMs a))])).

(** A session whose job has completed and whose audio is on display. *)
Definition played : app :=
  run (feed 1 [resolution "COMPLETED"
                 [("output", Server.obj [("status", JS "success");
                                         ("audio_base64", JS "AAAA")])]])
      started.

End ClientProps.

(* ===================================================================== *)
(** * Start-up of server.js: the environment and the origin list *)
(* ===================================================================== *)

Module Startup.
Import JS Server.
Local Open Scope string_scope.
Local Open Scope list_scope.

(** [process.env], once [dotenv] has loaded its file: the variables
    that are set, each with its text. *)
Definition environment := string -> option jsstring.

(** [process.env.NAME || fallback]: a variable that is not set reads as
    [undefined] and one that is set to nothing as the empty string;
    both are falsy. *)
Definition env_or (env : environment) (name : string) (fallback : jsstring)
  : jsstring :=
  match env name with
  | Some (c :: s) => c :: s
  | _ => fallback
  end.

(** [s.split(sep)] for a separator of one code unit: the pieces between
    the separators, in order.  The empty text has one piece, itself. *)
Fixpoint split (sep : N) (s : jsstring) : list jsstring :=
  match s with
  | [] => [[]]
  | c :: s' =>
      if (c =? sep)%N then [] :: split sep s'
      else match split sep s' with
           | piece :: pieces => (c :: piece) :: pieces
           | [] => [[c]]
           end
  end.

(** How the process ends its start-up: [process.exit(code)] after a
    line on the error console, or [app.listen(PORT)] with the constants
    the handlers close over. *)
Inductive outcome :=
| Exits (code : Z) (line : jsstring)
| Listens (port : jsstring) (cfg : config).

(** The top level of server.js, from the first line to [app.listen]. *)
Definition main (env : environment) : outcome :=
  match env "RUNPOD_API_KEY", env "RUNPOD_ENDPOINT_ID" with
  | Some (k :: key), Some (i :: id) =>
      Listens (env_or env "PORT" (str "3001"))
        {| RUNPOD_API_KEY := k :: key;
           RUNPOD_ENDPOINT_ID := i :: id;
           allowedOrigins :=
             map trim (split 44 (env_or env "ALLOWED_ORIGINS"
                                   (str "http://localhost:3000"))) |}
  | _, _ => Exits 1 (str "RUNPOD_API_KEY and RUNPOD_ENDPOINT_ID are required")
  end.

(** [xs.join(sep)], the inverse of [split] that the statements use. *)
Fixpoint join (sep : N) (xs : list jsstring) : jsstring :=
  match xs with
  | [] => []
  | [x] => x
  | x :: rest => x ++ sep :: join sep rest
  end.

(** An environment with the two required variables and a list of
    origins. *)
Definition configured (origins : jsstring) : environment :=
  fun name =>
    if String.eqb name "RUNPOD_API_KEY" then Some (str "key")
    else if String.eqb name "RUNPOD_ENDPOINT_ID" then Some (str "ep")
    else if String.eqb name "ALLOWED_ORIGINS" then Some origins
    else None.

End Startup.

(* ===================================================================== *)
(** * Between the client and the gateway: JSON over HTTP *)
(* ===================================================================== *)

Module Wire.
Import JS Eff.
Local Open Scope string_scope.
Local Open Scope list_scope.

(** A number as [JSON.stringify] writes it and [JSON.parse] reads it
    back: NaN and the infinities become [null]; minus zero becomes
    zero. *)
Definition json_number (x : number) : value :=
  match x with
  | NaN | Inf _ => JNull
  | Fin neg m e =>
      let '(m', e') := normal m e in
      JNum (Fin (neg && negb (m' =? 0)%N) m' e')
  end.

(** [JSON.parse(JSON.stringify(v))]: what the other side reads of a
    body.  A property whose value is [undefined] is left out; an
    [undefined] element of an array becomes [null]. *)
Fixpoint wire (v : value) : value :=
  match v with
  | JUndefined => JUndefined
  | JNull => JNull
  | JBool b => JBool b
  | JNum x => json_number x
  | JStr s => JStr s
  | JArr items =>
      JArr ((fix each (l : list value) : list value :=
               match l with
               | [] => []
               | JUndefined :: rest => JNull :: each rest
               | x :: rest => wire x :: each rest
               end) items)
  | JObj fields =>
      JObj ((fix each (l : list (jsstring * value)) : list (jsstring * value) :=
               match l with
               | [] => []
               | (_, JUndefined) :: rest => each rest
               | (k, x) :: rest => (k, wire x) :: each rest
               end) fields)
  end.

(** The properties of an object that are written: those whose value is
    not [undefined]. *)
Fixpoint wire_fields (l : list (jsstring * value)) : list (jsstring * value) :=
  match l with
  | [] => []
  | (_, JUndefined) :: rest => wire_fields rest
  | (k, x) :: rest => (k, wire x) :: wire_fields rest
  end.

(** What the client's [fetch] makes of a response of the gateway:
    [res.ok] is the same test on the status code, and [res.json()]
    reads the body that [res.json(body)] wrote.  A body of [undefined]
    is sent as no body at all, which does not parse. *)
Definition answer_of (r : Server.response) : Client.reply :=
  Client.Answer (Server.ok (Server.code r))
    (match Server.payload r with
     | JUndefined => Throw (Rejected (str "Unexpected end of JSON input"))
     | body => Ok (wire body)
     end).

(** What [express.json] leaves in [req.body] for a request of the
    client: the parsed body, or an empty object when there is none. *)
Definition received (e : Client.effect) : value :=
  match e with
  | Client.Fetch _ _ (Some body) => wire body
  | _ => JObj []
  end.

End Wire.

(* ===================================================================== *)
(** * Vocabulary of the further properties *)
(* ===================================================================== *)

Module Reach.
Import JS Eff Browser Client ClientProps.
Local Open Scope string_scope.
Local Open Scope list_scope.

(** The error answers of the two handlers that validate or translate,
    by status code. *)
Definition generate_errors : list (Z * string) :=
  [(400, "lyrics is required"); (400, "tags is required");
   (500, "Internal server error"); (502, "Failed to submit job to RunPod")]%Z.

Definition status_errors : list (Z * string) :=
  [(500, "Internal server error"); (502, "Failed to get job status")]%Z.

Definition error_response (cm : Z * string) : Server.response :=
  {| Server.code := fst cm;
     Server.payload := Server.obj [("error", JS (snd cm))] |}.

(** A text that is empty or begins with a character that is not white
    space. *)
Definition tight (s : jsstring) : Prop :=
  match s with [] => True | c :: _ => is_ws c = false end.

(** A text that [trim] leaves as it is and that is not empty. *)
Definition trimmed (s : jsstring) : Prop := s <> [] /\ trim s = s.

(** The submission of a form. *)
Definition generate_request (l t : jsstring) (d : number) : effect :=
  Fetch "POST" (API_URL ++ str "/api/generate")
    (Some (Server.obj [("lyrics", JStr l); ("tags", JStr t);
                       ("duration_ms", JNum d)])).

(** The calls the component may make: a submission with trimmed,
    non-empty lyrics and tags and one of the offered durations; a status
    request; a line on the console. *)
Inductive sendable : effect -> Prop :=
| send_generate l t d :
    trimmed l -> trimmed t -> In d DURATION_OPTIONS ->
    sendable (generate_request l t d)
| send_status jobId :
    Props.printable jobId = true ->
    sendable (Fetch "GET" (status_url jobId) None)
| send_log label err : sendable (ConsoleError label err).

(** A reply from which the interval callback learns nothing: the
    request was rejected, the body did not parse, or it parsed to
    [null]. *)
Definition unreadable (r : reply) : option exn :=
  match r with
  | NoResponse m => Some (Rejected m)
  | Answer _ (Throw e) => Some e
  | Answer _ (Ok JNull) | Answer _ (Ok JUndefined) => Some TypeError
  | Answer _ (Ok _) => None
  end.

(** The form is locked exactly while a submission or a poller is under
    way. *)
Definition engaged (a : app) : Prop :=
  loading a = true <-> (submitting a = 1%nat \/ pollRef a <> None).

(** At most one of "busy", "result" and "error" is on display, and a
    result on display is an object URL of an audio/mpeg blob. *)
Definition exclusive (a : app) : Prop :=
  (loading a = true -> audioSrc a = JNull /\ error a = JNull) /\
  (audioSrc a = JNull \/
   (error a = JNull /\
    exists url bytes,
      audioSrc a = JStr url /\
      In (url, {| data := bytes; type := str "audio/mpeg" |}) (object_urls a))).

(** What holds of the component at every moment. *)
Definition steady (a : app) : Prop :=
  coherent a /\ engaged a /\ exclusive a /\
  In (durationMs a) DURATION_OPTIONS /\ Forall sendable (trace a).

(** The state after a submission that failed with a message. *)
Definition refused (message : jsstring) (a : app) : app :=
  setStatus JNull (setLoading false (setError (JStr message) a)).

(** The state after a submission that was accepted for a job. *)
Definition accepted_for (st jobId : value) (a : app) : app :=
  exec (pollStatus jobId) (setStatus (or_else st (JS "IN_QUEUE")) a).

(** A session with a submission in flight. *)
Definition clicked : app :=
  run [TypeLyrics (str "la la"); TypeTags (str "pop"); Click] initial.

End Reach.

(* ===================================================================== *)
(** * scripts/local-stack.sh: stopping a process *)
(* ===================================================================== *)

Module Stack.
Local Open Scope string_scope.
Local Open Scope list_scope.

(** What the script does to the machine, in order. *)
Inductive action :=
| Echo (line : string)
| Kill (force : bool) (pid : string)   (* [kill pid], or [kill -9 pid] *)
| Sleep                                (* [sleep 0.2] *)
| Remove (file : string).              (* [rm -f file] *)

(** [[:space:]] of [tr]. *)
Definition is_space (c : ascii) : bool :=
  let n := nat_of_ascii c in
  (n =? 32)%nat || ((9 <=? n)%nat && (n <=? 13)%nat).

Fixpoint strip_space (s : string) : string :=
  match s with
  | EmptyString => EmptyString
  | String c s' => if is_space c then strip_space s' else String c (strip_space s')
  end.

(** [read_pid file]: the content of the file without its white space,
    with status 0; status 1 and no output when there is no such file. *)
Definition read_pid (content : option string) : option string :=
  option_map strip_space content.

(** [pid="$(read_pid "$file" || true)"]. *)
Definition pid_of (content : option string) : string :=
  match read_pid content with Some pid => pid | None => "" end.

(** [is_running pid]: an empty pid is not running, and is not probed;
    any other is probed with [kill -0].  What the machine answers to
    the probes, one after the other, is [alive]; [n] counts the probes
    made so far. *)
Definition is_running (pid : string) (alive : nat -> bool) (n : nat)
  : bool * nat :=
  if String.eqb pid "" then (false, n) else (alive n, S n).

(** The [for] loop of [stop_one], with [rounds] rounds left. *)
Fixpoint wait (rounds : nat) (pid : string) (alive : nat -> bool) (n : nat)
  : list action * nat :=
  match rounds with
  | O => ([], n)
  | S rounds' =>
      let '(running, n1) := is_running pid alive n in
      if negb running then ([], n1)
      else let '(acts, n2) := wait rounds' pid alive n1 in (Sleep :: acts, n2)
  end.

(** [stop_one name pid_file], on a pid file with the given content. *)
Definition stop_one (name pid_file : string) (content : option string)
  (alive : nat -> bool) : list action :=
  let pid := pid_of content in
  let '(running, n1) := is_running pid alive 0 in
  if negb running then
    [Echo (name ++ " is not running."); Remove pid_file]
  else
    let '(waited, n2) := wait 20 pid alive n1 in
    let '(still, _) := is_running pid alive n2 in
    [Echo ("Stopping " ++ name ++ " (pid: " ++ pid ++ ") ..."); Kill false pid]
    ++ waited
    ++ (if still
        then [Echo (name ++ " did not stop gracefully, forcing kill.");
              Kill true pid]
        else [])
    ++ [Remove pid_file; Echo (name ++ " stopped.")].

Definition is_sleep (a : action) : bool :=
  match a with Sleep => true | _ => false end.

Definition sleeps (acts : list action) : nat :=
  List.length (filter is_sleep acts).

End Stack.

(* ===================================================================== *)
(** * Facts about the ECMAScript fragment *)
(* ===================================================================== *)

Module JSFacts.
Import JS Props.
Local Open Scope N_scope.
Local Open Scope list_scope.

Lemma str_eqb_eq a b : str_eqb a b = true <-> a = b.
Proof.
  revert b; induction a as [|x a IH]; intros [|y b]; simpl;
    try (split; [discriminate | congruence]); try tauto.
  rewrite andb_true_iff, N.eqb_eq, IH. split.
  - intros [-> ->]; reflexivity.
  - intros [= -> ->]; auto.
Qed.

Lemma str_eqb_refl a : str_eqb a a = true.
Proof. apply str_eqb_eq; reflexivity. Qed.

Lemma is_str_eq v s : is_str v s = true <-> v = JS s.
Proof.
  destruct v; simpl; try (split; [discriminate | unfold JS; congruence]).
  rewrite str_eqb_eq. unfold JS. split; congruence.
Qed.

(** Two different literals are never both matched. *)
Lemma is_str_exclusive v s t :
  str s <> str t -> is_str v s = true -> is_str v t = false.
Proof.
  intros Hne Hs. apply is_str_eq in Hs. subst v. simpl.
  destruct (str_eqb (str s) (str t)) eqn:E; [|reflexivity].
  apply str_eqb_eq in E. contradiction.
Qed.

Lemma or_else_truthy a b : truthy b = true -> truthy (or_else a b) = true.
Proof. unfold or_else. destruct (truthy a) eqn:E; auto. Qed.

Ltac forget_divmod :=
  repeat match goal with
         | H : context [N.modulo ?a ?b] |- _ =>
             let r := fresh "r" in set (r := N.modulo a b) in *; clearbody r
         | |- context [N.modulo ?a ?b] =>
             let r := fresh "r" in set (r := N.modulo a b) in *; clearbody r
         | H : context [N.div ?a ?b] |- _ =>
             let q := fresh "q" in set (q := N.div a b) in *; clearbody q
         | |- context [N.div ?a ?b] =>
             let q := fresh "q" in set (q := N.div a b) in *; clearbody q
         end.
Ltac nlia := forget_divmod; lia.









Lemma strip_zeros_spec fuel : forall m e,
  m < 2 ^ N.of_nat fuel -> m <> 0 ->
  exists m' j, strip_zeros fuel m e = (m', (e + Z.of_N j)%Z) /\
               m' <> 0 /\ m' mod 10 <> 0 /\ m = m' * 10 ^ j.
Proof.
  induction fuel as [|fuel IH]; intros m e Hm Hm0.
  - cbn in Hm. lia.
  - cbn [strip_zeros]. destruct (m =? 0) eqn:E0; [apply N.eqb_eq in E0; lia|].
    destruct (m mod 10 =? 0) eqn:E.
    + apply N.eqb_eq in E.
      pose proof (N.div_mod m 10 ltac:(lia)) as Hdm.
      destruct (IH (m / 10) (e + 1)%Z) as (m' & j & Hrun & H1 & H2 & H3).
      * rewrite Nat2N.inj_succ, N.pow_succ_r' in Hm.
        apply N.Div0.div_lt_upper_bound. lia.
      * nlia.
      * exists m', (N.succ j). rewrite Hrun. split; [f_equal; lia|].
        split; [exact H1|]. split; [exact H2|].
        rewrite N.pow_succ_r'. rewrite E in Hdm. lia.
    + apply N.eqb_neq in E. exists m, 0. split; [f_equal; lia|].
      split; [exact Hm0|]. split; [exact E|]. rewrite N.pow_0_r. lia.
Qed.

Lemma normal_spec m e :
  m <> 0 ->
  exists m' j, normal m e = (m', (e + Z.of_N j)%Z) /\
               m' <> 0 /\ m' mod 10 <> 0 /\ m = m' * 10 ^ j.
Proof.
  intros Hm. apply strip_zeros_spec; [|exact Hm].
  rewrite Nat2N.inj_succ, N2Nat.id. apply N.log2_spec. lia.
Qed.

Lemma normal_zero e : normal 0 e = (0, 0%Z).
Proof. reflexivity. Qed.































(** ** Integers *)

Lemma to_Z_mk_fin neg m :
  to_Z (mk_fin neg m 0) = Some (if neg then (- Z.of_N m)%Z else Z.of_N m).
Proof.
  unfold mk_fin. destruct (N.eq_dec m 0) as [-> | Hm].
  - cbn. destruct neg; reflexivity.
  - destruct (normal_spec m 0 Hm) as (m' & j & -> & _ & _ & ->).
    cbn [to_Z]. replace (0 <=? 0 + Z.of_N j)%Z with true
      by (symmetry; apply Z.leb_le; lia).
    unfold scaled. replace (0 + Z.of_N j - 0)%Z with (Z.of_N j) by lia.
    rewrite N2Z.inj_mul, N2Z.inj_pow. reflexivity.
Qed.

(** What [parseInt] reads is no number at all, or the Number value of
    an integer. *)
Lemma parseInt_str_integer s :
  parseInt_str s = NaN \/
  exists neg m, parseInt_str s = round (mk_fin neg m 0).
Proof.
  unfold parseInt_str. destruct (strip_sign (trim_start s)) as [neg t].
  destruct (if hex_prefix t then _ else _) as [[mathInt count] rest].
  destruct count; [left; reflexivity|]. right. exists neg, mathInt. reflexivity.
Qed.



Lemma leb_Z a b za zb :
  to_Z a = Some za -> to_Z b = Some zb -> leb a b = (za <=? zb)%Z.
Proof.
  destruct a as [ | ? | na ma ea]; try discriminate.
  destruct b as [ | ? | nb mb eb]; try discriminate.
  cbn [to_Z leb].
  destruct (0 <=? ea)%Z eqn:Ea; [|discriminate].
  destruct (0 <=? eb)%Z eqn:Eb; [|discriminate].
  apply Z.leb_le in Ea, Eb. intros [= <-] [= <-].
  set (e0 := Z.min ea eb).
  assert (He0 : (0 <= e0 <= ea /\ e0 <= eb)%Z) by (unfold e0; lia).
  assert (Hp : (0 < 10 ^ e0)%Z) by (apply Z.pow_pos_nonneg; lia).
  assert (Hs : forall neg m e, (e0 <= e)%Z ->
            scaled neg m e 0 = (scaled neg m e e0 * 10 ^ e0)%Z).
  { intros neg m e He. unfold scaled. rewrite Z.sub_0_r.
    assert (Hpow : (10 ^ e = 10 ^ (e - e0) * 10 ^ e0)%Z)
      by (rewrite <- Z.pow_add_r by lia; f_equal; lia).
    rewrite Hpow. destruct neg; ring. }
  rewrite (Hs na ma ea), (Hs nb mb eb) by lia.
  destruct (Z.leb_spec (scaled na ma ea e0) (scaled nb mb eb e0));
    symmetry; [apply Z.leb_le | apply Z.leb_gt]; nia.
Qed.

Lemma Math_min_Z a b za zb :
  to_Z a = Some za -> to_Z b = Some zb ->
  to_Z (Math_min a b) = Some (Z.min za zb).
Proof.
  intros Ha Hb. assert (Hm : Math_min a b = if leb a b then a else b).
  { destruct a; try discriminate. destruct b; try discriminate. reflexivity. }
  rewrite Hm, (leb_Z _ _ _ _ Ha Hb).
  destruct (Z.leb_spec za zb); [rewrite Ha | rewrite Hb]; f_equal; lia.
Qed.






(** ** Order *)




End JSFacts.

(* ===================================================================== *)
(** * The status resolver (GET /api/status/:jobId) *)
(* ===================================================================== *)

Module StatusResolver.
Import JS Eff Server JSFacts Props.
Local Open Scope string_scope.
Local Open Scope list_scope.

(** C7.  When the status query to the provider fails in transport or
    comes back with a non-success HTTP status, the resolver answers
    with an error response of its own (502, or 500 when even the
    error body could not be read): the answer carries an [error]
    message and no [status] field at all, so it can never read as a
    job whose status is FAILED. *)
Theorem C7_upstream_failure_is_not_FAILED cfg jobId up w :
  upstream_failed up ->
  exists w' resp,
    status cfg jobId up w = (w', Ok resp) /\
    ((code resp = 502%Z /\
      payload resp = obj [("error", JS "Failed to get job status")]) \/
     (code resp = 500%Z /\
      payload resp = obj [("error", JS "Internal server error")])) /\
    get (payload resp) "status" = Ok JUndefined /\
    is_str (assoc (str "status") (fields_of (payload resp))) "FAILED" = false.
Proof.
  intros Hup. destruct up as [m | c text json]; simpl in Hup.
  - eexists _, _. split; [reflexivity|]. split; [right; split; reflexivity|].
    split; reflexivity.
  - unfold status, try_catch, bind, fetch, emit, modify, ret, lift. simpl.
    rewrite Hup. simpl. destruct text as [t | e]; simpl.
    + eexists _, _. split; [reflexivity|]. split; [left; split; reflexivity|].
      split; reflexivity.
    + eexists _, _. split; [reflexivity|]. split; [right; split; reflexivity|].
      split; reflexivity.
Qed.

Lemma C7_witness :
  exists w' resp,
    status sample (str "job-1")
      (Responds 503 (Ok (str "busy")) (Throw TypeError)) idle = (w', Ok resp) /\
    ((code resp = 502%Z /\
      payload resp = obj [("error", JS "Failed to get job status")]) \/
     (code resp = 500%Z /\
      payload resp = obj [("error", JS "Internal server error")])) /\
    get (payload resp) "status" = Ok JUndefined /\
    is_str (assoc (str "status") (fields_of (payload resp))) "FAILED" = false.
Proof.
  apply (@C7_upstream_failure_is_not_FAILED sample (str "job-1")
           (Responds 503 (Ok (str "busy")) (Throw TypeError)) idle).
  reflexivity.
Defined.

(** C6.  On a successful provider response the resolver answers 200
    with [jobId] and [status]; the answer has an [output] field only
    when the status is COMPLETED (exactly when, in addition, the
    provider sent a truthy output, and then it is that output), and an
    [error] field exactly when the status is FAILED,
    holding the provider's error when there is one and "Job failed"
    otherwise.  (A body that is not even an object, [null], is answered
    500 by the catch-all.) *)
Theorem C6_output_and_error_fields cfg jobId c text data w :
  ok c = true ->
  exists w' resp,
    status cfg jobId (Responds c text (Ok data)) w = (w', Ok resp) /\
    (data <> JNull -> data <> JUndefined -> code resp = 200%Z) /\
    (code resp = 200%Z ->
     let result := fields_of (payload resp) in
     let st := assoc (str "status") result in
     payload resp = JObj result /\
     st = assoc (str "status") (fields_of data) /\
     (has_key (str "output") result
      = is_str st "COMPLETED" && truthy (assoc (str "output") (fields_of data))) /\
     (has_key (str "output") result = true ->
        is_str st "COMPLETED" = true /\
        assoc (str "output") result = assoc (str "output") (fields_of data)) /\
     (has_key (str "error") result = is_str st "FAILED") /\
     (is_str st "FAILED" = true ->
        assoc (str "error") result
        = or_else (assoc (str "error") (fields_of data)) (JS "Job failed"))).
Proof.
  intros Hok.
  unfold status, try_catch, bind, fetch, emit, modify, ret, lift. simpl.
  rewrite Hok. simpl.
  destruct data as [ | | b | x | s | items | f]; simpl;
    try (eexists _, _; split; [reflexivity|];
         split; [intros; try congruence; reflexivity|];
         simpl; intros; try discriminate;
         repeat split; intros; try discriminate; reflexivity).
  set (st := assoc (str "status") f).
  destruct (is_str st "COMPLETED") eqn:Ec.
  - assert (Ef : is_str st "FAILED" = false).
    { apply is_str_exclusive with (s := "COMPLETED"); [discriminate | exact Ec]. }
    rewrite Ef. simpl.
    destruct (truthy (assoc (str "output") f)) eqn:Et; simpl;
      (eexists _, _; split; [reflexivity|]; split; [reflexivity|];
       simpl; intros _; fold st; rewrite ?Ec, ?Ef;
       repeat split; intros; try discriminate; try reflexivity).
  - simpl. destruct (is_str st "FAILED") eqn:Ef; simpl;
      (eexists _, _; split; [reflexivity|]; split; [reflexivity|];
       simpl; intros _; fold st; rewrite ?Ec, ?Ef;
       repeat split; intros; try discriminate; try reflexivity).
Qed.

Lemma C6_witness :
  exists w' resp,
    status sample (str "job-1")
      (Responds 200 (Ok []) (Ok (obj [("id", JS "job-1"); ("status", JS "FAILED")])))
      idle = (w', Ok resp) /\
    code resp = 200%Z /\
    assoc (str "error") (fields_of (payload resp)) = JS "Job failed" /\
    has_key (str "output") (fields_of (payload resp)) = false.
Proof.
  destruct (@C6_output_and_error_fields sample (str "job-1") 200 (Ok [])
              (obj [("id", JS "job-1"); ("status", JS "FAILED")]) idle eq_refl)
    as (w' & resp & Hrun & Hcode & Hres).
  exists w', resp. split; [exact Hrun|].
  assert (H200 : code resp = 200%Z) by (apply Hcode; discriminate).
  split; [exact H200|].
  vm_compute in Hrun. inversion Hrun; subst. split; reflexivity.
Defined.

End StatusResolver.

(* ===================================================================== *)
(** * The submission gateway (POST /api/generate) *)
(* ===================================================================== *)

Module Gateway.
Import JS Eff Server JSFacts Props.
Local Open Scope string_scope.
Local Open Scope list_scope.

Lemma blank_run v w :
  blank v w =
  (w, if negb (truthy v) then Ok true
      else match v with
           | JStr s => Ok (match trim s with [] => true | _ => false end)
           | _ => Throw TypeError
           end).
Proof.
  unfold blank. destruct (negb (truthy v)) eqn:E; [reflexivity|].
  destruct v; try reflexivity.
  unfold bind, lift, ret; simpl. destruct (trim s); reflexivity.
Qed.

Lemma calls_emit w e :
  outbound e = false ->
  calls {| trace := trace w ++ [e]; store := store w |} = calls w.
Proof.
  intros He. unfold calls; simpl. rewrite filter_app; simpl.
  rewrite He. apply app_nil_r.
Qed.

(** The first half of the handler: the six reads and the two checks. *)
Ltac open_generate :=
  unfold generate, try_catch, bind, lift, reply, ret; simpl;
  rewrite ?blank_run; simpl.

Ltac c4_close :=
  cbv beta iota; repeat split; intros;
  first [ reflexivity
        | discriminate
        | apply calls_emit; reflexivity
        | match goal with H : _ \/ _ |- _ => destruct H; discriminate end ].

(** C4, as the code has it.  A request whose [lyrics] or [tags] is
    missing, empty or white space only never reaches the provider.
    What it is answered depends on [lyrics], which is looked at first:
    400 "lyrics is required" when [lyrics] is falsy (missing, [null],
    empty, [0], [false]) or a text of white space; 400 "tags is
    required" when [lyrics] is a text with something in it, so that the
    blank field is [tags]; and 500 from the catch-all when [lyrics] is a
    truthy value that is no text (a number other than zero, [true], an
    array, an object), because [lyrics.trim()] then throws. *)
Theorem C4_blank_field_is_rejected cfg body up w lyrics tags :
  get body "lyrics" = Ok lyrics -> get body "tags" = Ok tags ->
  blankb lyrics = true \/ blankb tags = true ->
  calls (fst (generate cfg body up w)) = calls w /\
  (truthy lyrics = false \/ blankb lyrics = true ->
   generate cfg body up w = (w, Ok (bad_request "lyrics is required"))) /\
  (textb lyrics = true -> blankb lyrics = false ->
   generate cfg body up w = (w, Ok (bad_request "tags is required"))) /\
  (truthy lyrics = true -> textb lyrics = false ->
   snd (generate cfg body up w) = Ok server_error).
Proof.
  intros Hl Ht H.
  assert (Hg : forall k, exists v, get body k = Ok v).
  { intros k. destruct body; try discriminate Hl; eexists; reflexivity. }
  unfold generate, try_catch, bind, lift. rewrite Hl, Ht.
  destruct (Hg "duration_ms") as [d ->]. destruct (Hg "temperature") as [t ->].
  destruct (Hg "topk") as [k ->]. destruct (Hg "cfg_scale") as [c ->].
  clear Hg Hl Ht. rewrite blank_run.
  destruct lyrics as [ | | bl | xl | sl | il | fl];
    cbn [truthy negb blankb textb] in *.
  - c4_close.
  - c4_close.
  - destruct bl; cbn [negb]; c4_close.
  - destruct xl as [ | nx | nx mx ex]; cbn [negb];
      [ | | destruct (mx =? 0)%N; cbn [negb]]; c4_close.
  - destruct sl as [|c0 sl']; cbn [negb]; [c4_close|].
    destruct (trim (c0 :: sl')) eqn:El; [c4_close|].
    destruct H as [H | H]; [discriminate|].
    cbv beta iota. rewrite blank_run.
    destruct tags as [ | | ? | ? | st | ? | ?]; try discriminate;
      cbn [truthy negb]; try c4_close.
    cbn [blankb] in H. destruct st as [|c1 st']; cbn [negb]; [c4_close|].
    destruct (trim (c1 :: st')); [c4_close | discriminate].
  - c4_close.
  - c4_close.
Qed.

Lemma C4_witness :
  generate sample (JObj [(str "lyrics", JS "la la"); (str "tags", JS "  ")])
    (Unreachable []) idle
  = (idle, Ok (bad_request "tags is required")).
Proof.
  apply (@C4_blank_field_is_rejected sample
           (JObj [(str "lyrics", JS "la la"); (str "tags", JS "  ")])
           (Unreachable []) idle (JS "la la") (JS "  ")
           eq_refl eq_refl (or_intror eq_refl));
    reflexivity.
Defined.

(** The claim as first written asks for the 400 whenever either field
    is blank.  With a number for [lyrics] and an empty [tags], the
    first check calls [trim] on the number, the TypeError goes to the
    catch-all, and the answer is 500. *)
Lemma C4_counterexample :
  blankb (assoc (str "tags")
            [(str "lyrics", JNum (of_Z 5)); (str "tags", JStr [])]) = true /\
  exists w',
    generate sample
      (JObj [(str "lyrics", JNum (of_Z 5)); (str "tags", JStr [])])
      (Unreachable []) idle =
    (w', Ok server_error).
Proof.
  split; [reflexivity|]. eexists. reflexivity.
Qed.

Lemma printable_text v : printable v = true -> to_string v = Ok (text_of v).
Proof. unfold printable, text_of. destruct (to_string v); [reflexivity | discriminate]. Qed.

Lemma parseInt_text v : printable v = true -> parseInt v = Ok (parseInt_str (text_of v)).
Proof. intros H. unfold parseInt. rewrite (printable_text _ H). reflexivity. Qed.

Lemma parseFloat_text v : printable v = true -> parseFloat v = Ok (parseFloat_str (text_of v)).
Proof. intros H. unfold parseFloat. rewrite (printable_text _ H). reflexivity. Qed.

Lemma text_field v :
  textb v = true -> negb (blankb v) = true ->
  exists s, v = JStr s /\ trim s <> [] /\ truthy v = true.
Proof.
  destruct v; try discriminate. cbn. intros _ H. exists s.
  split; [reflexivity|]. destruct s as [|c s']; [discriminate H|].
  split; [|reflexivity]. destruct (trim (c :: s')); [discriminate H | discriminate].
Qed.

Lemma calls_app w e :
  calls {| trace := trace w ++ [e]; store := store w |} =
  calls w ++ (if outbound e then [e] else []).
Proof. unfold calls; cbn. rewrite filter_app. cbn. destruct (outbound e); reflexivity. Qed.

Ltac calls_norm :=
  unfold calls; cbn [trace store fst snd]; rewrite ?filter_app;
  cbn [filter outbound]; rewrite ?app_nil_r, <- ?app_assoc; reflexivity.

Ltac run_tail :=
  cbv beta iota zeta delta
    [console_log console_error fetch emit modify bind ret reply
     internal_error throw fst snd trace store].

Lemma generate_submits cfg fields up w :
  accepted fields = true ->
  exists l t,
    assoc (str "lyrics") fields = JStr l /\ assoc (str "tags") fields = JStr t /\
    calls (fst (generate cfg (JObj fields) up w)) =
    calls w ++
    [Outbound "POST" (RUNPOD_BASE cfg ++ str "/run")
       (Some (obj [("input",
          obj [("lyrics", JStr (trim l));
               ("tags", JStr (trim t));
               ("duration_ms",
                JNum (Math_min
                        (or_num (parseInt_str (text_of (assoc (str "duration_ms") fields)))
                                (of_Z 120000))
                        (of_Z 240000)));
               ("temperature",
                JNum (or_num (parseFloat_str (text_of (assoc (str "temperature") fields)))
                             (mk_fin false 1 0)));
               ("topk",
                JNum (or_num (parseInt_str (text_of (assoc (str "topk") fields)))
                             (of_Z 50)));
               ("cfg_scale",
                JNum (or_num (parseFloat_str (text_of (assoc (str "cfg_scale") fields)))
                             (mk_fin false 15 (-1))))])]))].
Proof.
  unfold accepted. rewrite !andb_true_iff.
  intros [[[[[[[Hl1 Hl2] Ht1] Ht2] Hd] Htemp] Hk] Hc].
  destruct (text_field _ Hl1 Hl2) as (l & El & Hl & Tl).
  destruct (text_field _ Ht1 Ht2) as (t & Et & Ht & Tt).
  exists l, t. split; [exact El|]. split; [exact Et|].
  unfold generate, try_catch, bind, lift, get. cbv beta iota.
  rewrite El in Tl. rewrite Et in Tt.
  rewrite El, Et, blank_run, Tl. cbn [negb]. cbv beta iota.
  destruct (trim l) as [|cl sl] eqn:Etl; [congruence|]. cbv beta iota.
  rewrite blank_run, Tt. cbn [negb]. cbv beta iota.
  destruct (trim t) as [|ct st] eqn:Ett; [congruence|]. cbv beta iota.
  rewrite (parseInt_text _ Hd), (parseFloat_text _ Htemp),
          (parseInt_text _ Hk), (parseFloat_text _ Hc).
  cbn [call_trim length_of to_string]. rewrite Etl, Ett.
  cbv beta iota.
  destruct up as [m | status text json].
  - run_tail. calls_norm.
  - run_tail. destruct (negb (ok status)); run_tail.
    + destruct text; run_tail; calls_norm.
    + destruct json as [data | e]; run_tail; [|calls_norm].
      destruct data; run_tail; try calls_norm;
        match goal with
        | |- context [to_string ?v] =>
            destruct (to_string v); run_tail; calls_norm
        end.
Qed.



Lemma text_of_number x : text_of (JNum x) = number_to_string x.
Proof. reflexivity. Qed.












End Gateway.

(* ===================================================================== *)
(** * The rate limiter on /api/ *)
(* ===================================================================== *)

Module RateLimiter.
Import JS Eff Server JSFacts Props.
Local Open Scope string_scope.
Local Open Scope list_scope.

Section Safe.
Context {A B : Type}.

Lemma safe_ret (P : A -> Prop) a : P a -> safe P (ret a).
Proof. intros H s. split; [reflexivity | exact H]. Qed.

Lemma safe_throw (P : A -> Prop) e : safe P (throw e).
Proof. intros s. split; [reflexivity | exact I]. Qed.

Lemma safe_lift (r : result A) : safe any (lift r).
Proof. intros s. split; [reflexivity | destruct r; exact I]. Qed.

Lemma safe_weaken (P : A -> Prop) c : safe P c -> safe any c.
Proof.
  intros H s. destruct (H s) as [H1 _]. split; [exact H1|].
  destruct (snd (c s)); exact I.
Qed.

Lemma safe_bind (P : B -> Prop) (c : M world A) (k : A -> M world B) :
  safe any c -> (forall a, safe P (k a)) -> safe P (bind c k).
Proof.
  intros Hc Hk s. unfold bind. destruct (Hc s) as [H1 _].
  destruct (c s) as [s' [a | e]]; cbn [fst snd] in *.
  - destruct (Hk a s') as [H2 H3]. split; [congruence | exact H3].
  - split; [exact H1 | exact I].
Qed.

Lemma safe_try (P : A -> Prop) (c : M world A) h :
  safe P c -> (forall e, safe P (h e)) -> safe P (try_catch c h).
Proof.
  intros Hc Hh s. unfold try_catch. destruct (Hc s) as [H1 H2].
  destruct (c s) as [s' [a | e]]; cbn [fst snd] in *.
  - split; assumption.
  - destruct (Hh e s') as [H3 H4]. split; [congruence | exact H4].
Qed.
End Safe.

Lemma safe_emit e : safe any (emit e).
Proof. intros s. split; [reflexivity | exact I]. Qed.

Lemma safe_reply c b : c <> 429%Z -> safe not_429 (reply c b).
Proof. intros H s. split; [reflexivity | exact H]. Qed.

Lemma safe_fetch m u b up : safe any (fetch m u b up).
Proof.
  unfold fetch. apply safe_bind; [apply safe_emit|]. intros _.
  destruct up; [apply safe_throw | apply safe_ret; exact I].
Qed.

Lemma safe_blank v : safe any (blank v).
Proof.
  unfold blank. destruct (negb (truthy v)); [apply safe_ret; exact I|].
  apply safe_bind; [apply safe_lift|]. intros; apply safe_ret; exact I.
Qed.

Ltac safe_step :=
  first
    [ apply safe_try
    | apply safe_reply; discriminate
    | apply safe_lift
    | apply safe_fetch
    | apply safe_blank
    | apply safe_emit
    | apply safe_throw
    | apply safe_bind
    | progress intros
    | match goal with
      | |- safe _ (if ?b then _ else _) => destruct b
      | |- safe _ (let '(_, _) := ?r in _) => destruct r
      | |- safe _ (match ?r with _ => _ end) => destruct r
      end ].

Ltac safe_auto :=
  unfold console_log, console_error, internal_error, health; repeat safe_step.

Lemma safe_generate cfg body up : safe not_429 (generate cfg body up).
Proof. unfold generate. safe_auto. Qed.

Lemma safe_status cfg jobId up : safe not_429 (status cfg jobId up).
Proof. unfold status. safe_auto. Qed.

Lemma safe_cancel cfg jobId up : safe not_429 (cancel cfg jobId up).
Proof. unfold cancel. safe_auto. Qed.

Lemma safe_malformed : safe not_429 malformed.
Proof. unfold malformed. apply safe_reply. discriminate. Qed.

Lemma safe_fallback req : safe not_429 (fallback req).
Proof. unfold fallback, malformed. safe_auto. Qed.

Lemma safe_routes cfg req up : safe not_429 (routes cfg req up).
Proof.
  unfold routes. cbv zeta.
  destruct (unslash (path req)) as [|a [|b [|c [|d rest]]]];
    try apply safe_fallback.
  - repeat match goal with
           | |- safe _ (if ?b then _ else _) => destruct b
           end;
      first [apply safe_generate | apply safe_fallback | unfold health; apply safe_reply; discriminate].
  - destruct (seg a "api" && (seg b "status" || seg b "cancel") && _);
      [|apply safe_fallback].
    destruct (decodeURIComponent c) as [jobId|]; [|apply safe_malformed].
    repeat match goal with
           | |- safe _ (if ?b then _ else _) => destruct b
           end;
      first [apply safe_status | apply safe_cancel | apply safe_fallback].
Qed.

Lemma lookup_update k v st : lookup k (update k v st) = Some v.
Proof.
  induction st as [|[k' v'] st IH]; cbn [update lookup].
  - rewrite str_eqb_refl. reflexivity.
  - destruct (str_eqb k k') eqn:E; cbn [lookup].
    + rewrite str_eqb_refl. reflexivity.
    + rewrite E. exact IH.
Qed.

Lemma app_reaches cfg req up :
  reaches_limiter cfg req = true ->
  app cfg req up = limiter req (routes cfg req up).
Proof.
  unfold reaches_limiter, app, cors. rewrite !andb_true_iff, negb_true_iff.
  intros [[-> ->] ->]. reflexivity.
Qed.

(** One request through the limiter: it is counted, whatever its route,
    and it is turned away exactly when the count passes [max]. *)
Lemma limiter_counts req next w h R :
  safe not_429 next ->
  lookup (ip req) (store w) = Some {| totalHits := h; resetTime := R |} ->
  (now req < R)%Z ->
  lookup (ip req) (store (fst (limiter req next w)))
    = Some {| totalHits := h + 1; resetTime := R |} /\
  limited (snd (limiter req next w)) = (max <? h + 1)%Z.
Proof.
  intros Hnext Hl Ht. unfold limiter, bind, gets, modify. cbv beta iota.
  rewrite Hl. cbv beta iota. cbn [resetTime totalHits].
  apply Z.ltb_lt in Ht. rewrite Ht. cbn [resetTime totalHits].
  destruct (max <? h + 1)%Z eqn:E.
  - cbn [reply ret fst snd store limited code]. rewrite lookup_update.
    split; reflexivity.
  - match goal with
    | |- context [next ?s] => destruct (Hnext s) as [Hs Hr]; destruct (next s) as [s' r]
    end.
    cbn [fst snd store] in *. rewrite Hs, lookup_update. split; [reflexivity|].
    destruct r as [resp | e]; [|reflexivity]. cbn [limited].
    apply Z.eqb_neq. exact Hr.
Qed.

Lemma limiter_opens req next w :
  safe not_429 next ->
  lookup (ip req) (store w) = None ->
  lookup (ip req) (store (fst (limiter req next w)))
    = Some {| totalHits := 1; resetTime := now req + windowMs |} /\
  limited (snd (limiter req next w)) = false.
Proof.
  intros Hnext Hl. unfold limiter, bind, gets, modify. cbv beta iota.
  rewrite Hl. cbv beta iota. cbn [resetTime totalHits].
  change (max <? 0 + 1)%Z with false. cbv beta iota.
  match goal with
  | |- context [next ?s] => destruct (Hnext s) as [Hs Hr]; destruct (next s) as [s' r]
  end.
  cbn [fst snd store] in *. rewrite Hs, lookup_update. split; [reflexivity|].
  destruct r as [resp | e]; [|reflexivity]. cbn [limited].
  apply Z.eqb_neq. exact Hr.
Qed.

Lemma serve_cons cfg req up rest w :
  serve cfg ((req, up) :: rest) w =
  (snd (app cfg req up w) :: fst (serve cfg rest (fst (app cfg req up w))),
   snd (serve cfg rest (fst (app cfg req up w)))).
Proof.
  cbn [serve]. destruct (app cfg req up w) as [w' r].
  cbn [fst snd]. destruct (serve cfg rest w') as [rs w'']. reflexivity.
Qed.

(** Inside a window opened by [caller], with [h] hits counted. *)
Lemma serve_in_window cfg caller R reqs : forall w (h : nat),
  lookup caller (store w)
    = Some {| totalHits := Z.of_nat h; resetTime := R |} ->
  Forall (fun ru => reaches_limiter cfg (fst ru) = true /\
                    ip (fst ru) = caller /\ (now (fst ru) < R)%Z) reqs ->
  map limited (fst (serve cfg reqs w))
  = map (fun i => (10 <=? i)%nat) (seq h (List.length reqs)).
Proof.
  induction reqs as [|[req up] rest IH]; intros w h Hl Hall; [reflexivity|].
  inversion Hall as [|? ? (Hreach & Hip & Ht) Hrest]; subst.
  cbn [fst] in *. rewrite serve_cons. cbn [fst snd map List.length seq].
  rewrite (app_reaches cfg req up Hreach).
  destruct (limiter_counts req (routes cfg req up) w (Z.of_nat h) R
              (safe_routes cfg req up) Hl Ht) as [Hl' Hr].
  rewrite Hr. f_equal.
  - unfold max. destruct (Nat.leb_spec 10 h);
      [apply Z.ltb_lt | apply Z.ltb_ge]; lia.
  - apply IH; [|exact Hrest].
    rewrite Hl'. do 2 f_equal. lia.
Qed.

Lemma polls_in o caller jobId t0 up n r u :
  In (r, u) (polls o caller jobId t0 up n) ->
  exists i, (i < n)%nat /\ method r = "GET" /\
            path r = [str "api"; str "status"; jobId] /\
            origin r = o /\ ip r = caller /\
            now r = (t0 + Client.POLL_INTERVAL * Z.of_nat i)%Z.
Proof.
  unfold polls. intros Hin.
  apply in_map_iff in Hin as (i & [= <- <-] & Hi). apply in_seq in Hi.
  exists i. repeat split; try reflexivity. lia.
Qed.

(** A caller whose quota is used up is turned away by the limiter
    before anything else is done. *)
Lemma limiter_refuses req next w h R :
  lookup (ip req) (store w) = Some {| totalHits := h; resetTime := R |} ->
  (now req < R)%Z -> (max <= h)%Z ->
  snd (limiter req next w) = Ok too_many /\
  trace (fst (limiter req next w)) = trace w.
Proof.
  intros Hl Ht Hh. unfold limiter, bind, gets, modify. cbv beta iota.
  rewrite Hl. cbv beta iota. cbn [resetTime totalHits].
  apply Z.ltb_lt in Ht. rewrite Ht. cbn [resetTime totalHits].
  assert (E : (max <? h + 1)%Z = true) by (apply Z.ltb_lt; lia).
  rewrite E. split; reflexivity.
Qed.

Lemma under_api_reaches cfg req :
  under_api_path req -> cors_allows cfg (origin req) = true ->
  method req <> "OPTIONS" -> reaches_limiter cfg req = true.
Proof.
  intros [rest Hp] Ho Hm. unfold reaches_limiter. rewrite Ho, Hp.
  apply String.eqb_neq in Hm. rewrite Hm. reflexivity.
Qed.

(** C10.  The limiter sits on every path under [/api/]: the requests of
    one caller that reach it within a window of 60 seconds are counted
    together, whatever their method and route, and from the eleventh on
    each is answered 429.  In particular a poller asking for the status
    every 3 seconds is turned away at its eleventh request, 30 seconds
    after its first.  Every request whose path starts with [/api/], of
    any method but OPTIONS and from an origin that is let in, is among
    the requests counted; and once the quota of a caller is used up,
    its requests for the health check, a submission, a status and a
    cancellation each get the rate-limit error, with no call to the
    provider. *)
Theorem C10_one_quota_for_all_api_routes :
  (forall cfg caller t0 reqs w,
      lookup caller (store w) = None ->
      Forall (fun ru => reaches_limiter cfg (fst ru) = true /\
                        ip (fst ru) = caller /\
                        (t0 <= now (fst ru) < t0 + windowMs)%Z) reqs ->
      map limited (fst (serve cfg reqs w))
      = map (fun i => (10 <=? i)%nat) (seq 0 (List.length reqs))) /\
  (forall cfg o caller jobId t0 up w,
      cors_allows cfg o = true ->
      lookup caller (store w) = None ->
      map limited (fst (serve cfg (polls o caller jobId t0 up 11) w))
      = repeat false 10 ++ [true]) /\
  (forall cfg caller t0 reqs w,
      lookup caller (store w) = None ->
      Forall (fun ru => under_api_path (fst ru) /\
                        method (fst ru) <> "OPTIONS" /\
                        cors_allows cfg (origin (fst ru)) = true /\
                        ip (fst ru) = caller /\
                        (t0 <= now (fst ru) < t0 + windowMs)%Z) reqs ->
      map limited (fst (serve cfg reqs w))
      = map (fun i => (10 <=? i)%nat) (seq 0 (List.length reqs))) /\
  (forall cfg o caller jobId b t up w h R,
      cors_allows cfg o = true ->
      lookup caller (store w) = Some {| totalHits := h; resetTime := R |} ->
      (t < R)%Z -> (max <= h)%Z ->
      Forall (fun req => snd (app cfg req up w) = Ok too_many /\
                         calls (fst (app cfg req up w)) = calls w)
        [get_health o caller t; post_generate o caller b t;
         get_status o caller jobId t; post_cancel o caller jobId t]).
Proof.
  assert (General : forall cfg caller t0 reqs w,
      lookup caller (store w) = None ->
      Forall (fun ru => reaches_limiter cfg (fst ru) = true /\
                        ip (fst ru) = caller /\
                        (t0 <= now (fst ru) < t0 + windowMs)%Z) reqs ->
      map limited (fst (serve cfg reqs w))
      = map (fun i => (10 <=? i)%nat) (seq 0 (List.length reqs))).
  { intros cfg caller t0 [|[req up] rest] w Hl Hall; [reflexivity|].
    inversion Hall as [|? ? (Hreach & Hip & Ht) Hrest]; subst.
    cbn [fst] in *. rewrite serve_cons. cbn [fst snd map List.length seq].
    rewrite (app_reaches cfg req up Hreach).
    destruct (limiter_opens req (routes cfg req up) w
                (safe_routes cfg req up) Hl) as [Hl' Hr].
    rewrite Hr. f_equal.
    apply (serve_in_window cfg (ip req) (now req + windowMs) rest _ 1 Hl').
    eapply Forall_impl; [|exact Hrest].
    intros [r u] (H1 & H2 & H3). cbn [fst] in *. repeat split; try assumption. lia. }
  split; [exact General|]. split; [|split].
  - intros cfg o caller jobId t0 up w Ho Hl.
    rewrite (General cfg caller t0 _ w Hl); [reflexivity|].
    apply Forall_forall. intros [r u] Hin.
    destruct (polls_in _ _ _ _ _ _ _ _ Hin) as (i & Hi & Hm & Hp & Hor & Hip & Hnow).
    cbn [fst]. unfold reaches_limiter. rewrite Hm, Hp, Hor, Hip, Hnow, Ho.
    split; [reflexivity|]. split; [reflexivity|].
    unfold Client.POLL_INTERVAL, windowMs. lia.
  - intros cfg caller t0 reqs w Hl Hall.
    apply (General cfg caller t0 reqs w Hl).
    eapply Forall_impl; [|exact Hall].
    intros [r u] (Hp & Hm & Ho & Hip & Ht). cbn [fst] in *.
    split; [apply under_api_reaches; assumption|]. split; assumption.
  - intros cfg o caller jobId b t up w h R Ho Hl Ht Hh.
    repeat (apply Forall_cons; [|]); [ | | | | apply Forall_nil];
      match goal with
      | |- snd (app cfg ?req up w) = _ /\ _ =>
          assert (Hreach : reaches_limiter cfg req = true)
            by (unfold reaches_limiter;
                cbv delta [get_health post_generate get_status post_cancel];
                cbn [origin method path]; rewrite Ho; reflexivity);
          rewrite (app_reaches cfg req up Hreach);
          destruct (limiter_refuses req (routes cfg req up) w h R Hl Ht Hh)
            as [Hr Htr];
          split; [exact Hr | unfold calls; rewrite Htr; reflexivity]
      end.
Qed.

Lemma C10_witness :
  map limited
    (fst (serve sample
            (polls (Some (str "http://localhost:3000")) (str "10.0.0.7")
                   (str "job-1") 0 (fun _ => Unreachable []) 11)
            idle))
  = repeat false 10 ++ [true].
Proof.
  apply (proj1 (proj2 C10_one_quota_for_all_api_routes) sample
           (Some (str "http://localhost:3000")) (str "10.0.0.7") (str "job-1")
           0%Z (fun _ => Unreachable []) idle); reflexivity.
Defined.

End RateLimiter.

(* ===================================================================== *)
(** * The interval callback in closed form *)
(* ===================================================================== *)

Module ClientFacts.
Import JS Eff Browser Client JSFacts ClientProps.
Local Open Scope string_scope.
Local Open Scope list_scope.

Ltac run_client :=
  cbv beta iota zeta delta
    [exec poll try_catch bind lift ret throw modify gets emit fetch when
     stopPolling clearInterval createObjectURL pollStatus setInterval
     setStatus setLoading setError setAudioSrc setInferenceTime set_pollRef
     set_intervals set_next_timer set_object_urls set_submitting set_trace
     setLyrics setTags setDurationMs asked observe fresh_url
     fst snd lyrics tags durationMs status error audioSrc inferenceTime
     loading pollRef intervals next_timer object_urls submitting trace
     data_reply status_of status_url].

Lemma get_truthy v k : truthy v = true -> get v k = Ok (field v k).
Proof. destruct v; try discriminate; reflexivity. Qed.

Ltac settle :=
  repeat first
    [ progress cbv beta iota
    | progress cbn [andb orb negb get]
    | match goal with
      | H : ?x = _ |- context [?x] => rewrite H
      end ];
  try reflexivity.

Lemma poll_observes a jobId fields :
  Props.printable jobId = true ->
  exec (poll jobId (data_reply (JObj fields))) a = observe jobId fields a.
Proof.
  intros Hj. apply Gateway.printable_text in Hj.
  assert (Hget : forall k, truthy (assoc (str "output") fields) = true ->
                 get (assoc (str "output") fields) k
                 = Ok (field (assoc (str "output") fields) k))
    by (intros k Ht; apply get_truthy, Ht).
  destruct a as [ly tg du st er au it ld pr ivs nt urls sub tr].
  destruct (is_str (assoc (str "status") fields) "COMPLETED") eqn:Ec.
  - assert (Ef : is_str (assoc (str "status") fields) "FAILED" = false).
    { apply is_str_exclusive with (s := "COMPLETED"); [discriminate | exact Ec]. }
    destruct (truthy (assoc (str "output") fields)) eqn:Et.
    + pose proof (Hget "status" eq_refl) as G1.
      pose proof (Hget "audio_base64" eq_refl) as G2.
      pose proof (Hget "inference_time_sec" eq_refl) as G3.
      pose proof (Hget "message" eq_refl) as G4. clear Hget.
      destruct (is_str (field (assoc (str "output") fields) "status") "success") eqn:Es;
      destruct (truthy (field (assoc (str "output") fields) "audio_base64")) eqn:Ea;
      destruct (base64ToBlob (field (assoc (str "output") fields) "audio_base64")
                  (str "audio/mpeg")) eqn:Eb;
      destruct pr as [id|]; run_client; settle.
    + clear Hget. destruct pr as [id|]; run_client; settle.
  - clear Hget.
    destruct (is_str (assoc (str "status") fields) "FAILED") eqn:Ef;
      destruct pr as [id|]; run_client; settle.
Qed.

Ltac project :=
  cbv beta iota zeta delta
    [setStatus setLoading setError setAudioSrc setInferenceTime set_pollRef
     set_intervals set_next_timer set_object_urls set_submitting set_trace
     setLyrics setTags setDurationMs asked fresh_url resolutions
     materializations
     lyrics tags durationMs status error audioSrc inferenceTime
     loading pollRef intervals next_timer object_urls submitting trace].

Lemma tick_runs a id jobId r :
  polling a id jobId -> step (Tick id r) a = exec (poll jobId r) a.
Proof.
  intros [_ Hi]. cbn [step]. rewrite Hi. cbn [find timer poller].
  rewrite Pos.eqb_refl. reflexivity.
Qed.

Lemma tick_observes a id jobId fields :
  polling a id jobId -> Props.printable jobId = true ->
  step (Tick id (data_reply (JObj fields))) a = observe jobId fields a.
Proof.
  intros Hp Hj. rewrite (tick_runs a id jobId _ Hp). apply poll_observes, Hj.
Qed.

(** With the poller as the only timer, [stopPolling] leaves none. *)
Lemma stop_polling a id jobId :
  polling a id jobId ->
  exec stopPolling a = set_pollRef None (set_intervals [] a).
Proof.
  destruct a. intros [Hp Hi]. cbn in Hp, Hi. subst.
  run_client. cbn [filter timer poller negb]. rewrite Pos.eqb_refl. reflexivity.
Qed.

Lemma polling_asked a id jobId st :
  polling a id jobId -> polling (setStatus st (asked jobId a)) id jobId.
Proof. destruct a. intros H. exact H. Qed.

(** A timer slot with no timer behind it changes nothing. *)
Lemma tick_idle a id r : intervals a = [] -> step (Tick id r) a = a.
Proof. intros H. cbn [step]. rewrite H. reflexivity. Qed.

Lemma ticks_idle a (ticks : list (positive * reply)) :
  intervals a = [] ->
  run (map (fun t => Tick (fst t) (snd t)) ticks) a = a.
Proof.
  intros H. induction ticks as [|[id r] ticks IH]; [reflexivity|].
  cbn [map run fst snd]. rewrite tick_idle by exact H. exact IH.
Qed.


Lemma started_polling : polling started 1 (JS "job-1").
Proof. split; reflexivity. Qed.

Lemma failed_decode audio t e :
  atob audio = Throw e -> base64ToBlob audio t = Throw e.
Proof. unfold base64ToBlob. intros ->. reflexivity. Qed.


(** ** [base64ToBlob] on input that decodes *)

Lemma store_byte_next pre x k :
  store_byte (List.length pre) x (pre ++ repeat 0%N (S k))
  = (pre ++ [(x mod 256)%N]) ++ repeat 0%N k.
Proof.
  induction pre as [|y pre IH]; cbn [List.length List.app store_byte repeat].
  - reflexivity.
  - rewrite <- IH. reflexivity.
Qed.

Lemma fill_copies rest : forall pre,
  fill (List.length rest) (List.length pre) (pre ++ rest)
       (map (fun b => (b mod 256)%N) pre ++ repeat 0%N (List.length rest))
  = map (fun b => (b mod 256)%N) (pre ++ rest).
Proof.
  induction rest as [|x rest IH]; intros pre.
  - cbn [fill List.length repeat]. rewrite !app_nil_r. reflexivity.
  - cbn [fill List.length].
    replace (Nat.ltb (List.length pre) (List.length (pre ++ x :: rest))) with true
      by (symmetry; apply Nat.ltb_lt; rewrite length_app; cbn; lia).
    unfold charCodeAt. rewrite nth_middle.
    rewrite <- (length_map (fun b => (b mod 256)%N) pre) at 2.
    rewrite store_byte_next.
    specialize (IH (pre ++ [x])).
    rewrite length_app, Nat.add_1_r, <- app_assoc, map_app in IH.
    exact IH.
Qed.

Lemma sextet_small c v : b64_val c = Some v -> (v < 64)%N.
Proof.
  unfold b64_val.
  repeat match goal with
         | |- context [if ?b then _ else _] => destruct b eqn:?
         end; intros [= <-]; try discriminate;
    repeat match goal with
           | H : (_ && _) = true |- _ => apply andb_true_iff in H as [? ?]
           | H : (_ <=? _)%N = true |- _ => apply N.leb_le in H
           | H : (_ =? _)%N = true |- _ => apply N.eqb_eq in H
           end; lia.
Qed.

Lemma sextets_small data : forall vs,
  sextets data = Some vs -> Forall (fun v => (v < 64)%N) vs.
Proof.
  induction data as [|c data IH]; intros vs; cbn [sextets].
  - intros [= <-]. constructor.
  - destruct (b64_val c) as [v|] eqn:Ev; [|discriminate].
    destruct (sextets data) as [vs'|]; [|discriminate].
    intros [= <-]. constructor; [exact (sextet_small c v Ev) | apply IH; reflexivity].
Qed.

Lemma byte1 a b : (a < 64 -> b < 64 -> a * 4 + b / 16 < 256)%N.
Proof.
  intros. assert (b / 16 < 4)%N by (apply N.Div0.div_lt_upper_bound; lia). nlia.
Qed.

Lemma byte2 b c : (c < 64 -> (b mod 16) * 16 + c / 4 < 256)%N.
Proof.
  intros. assert (b mod 16 < 16)%N by (apply N.mod_upper_bound; lia).
  assert (c / 4 < 16)%N by (apply N.Div0.div_lt_upper_bound; lia). nlia.
Qed.

Lemma byte3 c d : (d < 64 -> (c mod 4) * 64 + d < 256)%N.
Proof.
  intros. assert (c mod 4 < 4)%N by (apply N.mod_upper_bound; lia). nlia.
Qed.

Lemma bytes_small n : forall vs,
  (List.length vs <= n)%nat -> Forall (fun v => (v < 64)%N) vs ->
  Forall (fun b => (b < 256)%N) (bytes_of vs).
Proof.
  induction n as [|n IH]; intros vs Hn Hs.
  - destruct vs; [constructor | cbn in Hn; lia].
  - destruct vs as [|a [|b [|c [|d rest]]]]; cbn [bytes_of];
      repeat match goal with
             | H : Forall _ (_ :: _) |- _ => inversion H; subst; clear H
             end;
      repeat first [ apply Forall_nil
                   | apply Forall_cons
                   | apply byte1; assumption
                   | apply byte2; assumption
                   | apply byte3; assumption ].
    apply IH; [cbn in Hn; lia | assumption].
Qed.

Lemma atob_bytes v bytes :
  atob v = Ok bytes -> Forall (fun b => (b < 256)%N) bytes.
Proof.
  unfold atob. destruct (to_string v) as [s|]; [|discriminate]. cbn [rbind].
  unfold forgiving_base64_decode.
  destruct (_ =? 1)%N; [discriminate|].
  destruct (sextets _) as [vs|] eqn:Es; [|discriminate]. cbn [option_map].
  intros [= <-]. apply (bytes_small (List.length vs)); [lia|].
  exact (sextets_small _ _ Es).
Qed.

Lemma mod_small bytes :
  Forall (fun b => (b < 256)%N) bytes -> map (fun b => (b mod 256)%N) bytes = bytes.
Proof.
  induction 1 as [|b bytes Hb _ IH]; [reflexivity|]. cbn [map].
  rewrite IH, N.mod_small by exact Hb. reflexivity.
Qed.

(** Input that decodes gives a blob with exactly the decoded bytes,
    tagged with the declared type. *)
Lemma base64ToBlob_decodes v t bytes :
  atob v = Ok bytes ->
  base64ToBlob v t = Ok {| data := bytes; type := blob_type t |}.
Proof.
  intros H. unfold base64ToBlob. rewrite H. cbn [rbind]. unfold new_Blob.
  pose proof (fill_copies bytes []) as Hf. cbn [List.length List.app map] in Hf.
  rewrite Hf. cbn [List.concat]. rewrite app_nil_r, (mod_small _ (atob_bytes v bytes H)).
  reflexivity.
Qed.

Example base64ToBlob_AAAA :
  base64ToBlob (JS "AAAA") (str "audio/mpeg")
  = Ok {| data := [0; 0; 0]%N; type := str "audio/mpeg" |}.
Proof. reflexivity. Qed.

(** ** The poller over a sequence of resolutions *)

Lemma starts_with_app p s : starts_with p (p ++ s) = true.
Proof.
  induction p as [|c p IH]; [reflexivity|]. cbn [List.app starts_with].
  rewrite N.eqb_refl. exact IH.
Qed.

Lemma status_fetch jobId :
  is_status_fetch (Fetch "GET" (status_url jobId) None) = true.
Proof.
  unfold is_status_fetch, status_url. rewrite app_assoc, starts_with_app.
  reflexivity.
Qed.

Lemma resolutions_snoc tr jobId :
  List.length (filter is_status_fetch (tr ++ [Fetch "GET" (status_url jobId) None]))
  = S (List.length (filter is_status_fetch tr)).
Proof.
  rewrite filter_app, length_app. cbn [filter]. rewrite status_fetch.
  cbn [List.length]. lia.
Qed.

Lemma observe_pending jobId fields a :
  pending fields = true ->
  observe jobId fields a = setStatus (status_of fields) (asked jobId a).
Proof.
  unfold pending, conclusive. rewrite negb_true_iff, orb_false_iff.
  intros [Hc Hf]. unfold observe. rewrite Hc, Hf. reflexivity.
Qed.

Lemma tick_pending a id jobId fields :
  polling a id jobId -> Props.printable jobId = true ->
  pending fields = true ->
  polling (step (Tick id (data_reply (JObj fields))) a) id jobId /\
  resolutions (step (Tick id (data_reply (JObj fields))) a) = S (resolutions a) /\
  object_urls (step (Tick id (data_reply (JObj fields))) a) = object_urls a /\
  error (step (Tick id (data_reply (JObj fields))) a) = error a /\
  audioSrc (step (Tick id (data_reply (JObj fields))) a) = audioSrc a.
Proof.
  intros Hp Hj Hpend. rewrite (tick_observes a id jobId fields Hp Hj).
  rewrite (observe_pending jobId fields a Hpend).
  split; [apply polling_asked, Hp|].
  destruct a. project. rewrite resolutions_snoc. repeat split.
Qed.

(** A conclusive resolution ends the polling. *)
Lemma tick_conclusive a id jobId fields :
  polling a id jobId -> Props.printable jobId = true ->
  conclusive fields = true ->
  pollRef (step (Tick id (data_reply (JObj fields))) a) = None /\
  intervals (step (Tick id (data_reply (JObj fields))) a) = [] /\
  loading (step (Tick id (data_reply (JObj fields))) a) = false /\
  resolutions (step (Tick id (data_reply (JObj fields))) a) = S (resolutions a).
Proof.
  intros Hp Hj Hc. rewrite (tick_observes a id jobId fields Hp Hj).
  pose proof (stop_polling _ id jobId
                (polling_asked a id jobId (status_of fields) Hp)) as Hstop.
  unfold observe. unfold conclusive in Hc.
  destruct (is_str (status_of fields) "COMPLETED"
            && truthy (assoc (str "output") fields)) eqn:E1.
  - rewrite Hstop.
    destruct (is_str (field (assoc (str "output") fields) "status") "success"
              && truthy (field (assoc (str "output") fields) "audio_base64"));
      [destruct (base64ToBlob _ _)|];
      destruct a; project;
      rewrite ?filter_app; cbn [filter]; rewrite status_fetch;
      cbn [is_status_fetch]; rewrite ?length_app; cbn [List.length];
      repeat split; lia.
  - cbn [orb] in Hc. rewrite Hc, Hstop.
    destruct a; project; rewrite resolutions_snoc; repeat split.
Qed.

(** A successful resolution whose audio decodes is materialized. *)
Lemma tick_success a id jobId fields bytes :
  polling a id jobId -> Props.printable jobId = true ->
  status_of fields = JS "COMPLETED" ->
  truthy (assoc (str "output") fields) = true ->
  is_str (field (assoc (str "output") fields) "status") "success" = true ->
  truthy (field (assoc (str "output") fields) "audio_base64") = true ->
  atob (field (assoc (str "output") fields) "audio_base64") = Ok bytes ->
  object_urls (step (Tick id (data_reply (JObj fields))) a)
    = object_urls a ++ [(fresh_url a, {| data := bytes; type := str "audio/mpeg" |})] /\
  audioSrc (step (Tick id (data_reply (JObj fields))) a) = JStr (fresh_url a) /\
  error (step (Tick id (data_reply (JObj fields))) a) = error a.
Proof.
  intros Hp Hj Hst Hout Hos Haudio Hatob.
  rewrite (tick_observes a id jobId fields Hp Hj).
  unfold observe.
  rewrite Hst, Hout, Hos, Haudio, (base64ToBlob_decodes _ _ _ Hatob).
  cbn [is_str andb].
  change (str_eqb (str "COMPLETED") (str "COMPLETED")) with true. cbv iota.
  rewrite (stop_polling _ id jobId (polling_asked a id jobId _ Hp)).
  destruct a. project. repeat split.
Qed.

(** A resolution that is not conclusive changes the status shown and
    nothing else of what the user sees. *)
Lemma tick_pending_frame a id jobId fields :
  polling a id jobId -> Props.printable jobId = true ->
  pending fields = true ->
  loading (step (Tick id (data_reply (JObj fields))) a) = loading a /\
  status (step (Tick id (data_reply (JObj fields))) a) = status_of fields.
Proof.
  intros Hp Hj Hpend. rewrite (tick_observes a id jobId fields Hp Hj).
  rewrite (observe_pending jobId fields a Hpend).
  destruct a. project. split; reflexivity.
Qed.

(** As long as the resolutions are not conclusive the poller stays, and
    every slot issues one more. *)
Lemma pending_run id jobId ds : forall a,
  polling a id jobId -> Props.printable jobId = true ->
  Forall (fun fields => pending fields = true) ds ->
  polling (run (feed id ds) a) id jobId /\
  resolutions (run (feed id ds) a) = (List.length ds + resolutions a)%nat /\
  loading (run (feed id ds) a) = loading a /\
  error (run (feed id ds) a) = error a /\
  object_urls (run (feed id ds) a) = object_urls a.
Proof.
  induction ds as [|fields ds IH]; intros a Hp Hj Hall.
  - repeat split; try reflexivity; apply Hp.
  - inversion Hall as [|? ? Hpend Hrest]; subst.
    destruct (tick_pending a id jobId fields Hp Hj Hpend) as (Hp1 & R1 & U1 & E1 & _).
    destruct (tick_pending_frame a id jobId fields Hp Hj Hpend) as (L1 & _).
    cbn [feed map run].
    destruct (IH _ Hp1 Hj Hrest) as (Hp2 & R2 & L2 & E2 & U2).
    unfold feed in *. rewrite R2, L2, E2, U2, R1, L1, E1, U1.
    cbn [List.length]. repeat split; try apply Hp2. lia.
Qed.

End ClientFacts.

(* ===================================================================== *)
(** * The poller *)
(* ===================================================================== *)

Module Poller.
Import JS Eff Browser Client JSFacts ClientProps ClientFacts.
Local Open Scope string_scope.
Local Open Scope list_scope.

(** C1, the case the code misses.  A resolution of COMPLETED is
    terminal, with or without a result to handle; the callback stops
    under [data.status === "COMPLETED" && data.output] and under FAILED
    only.  While one poller is the only timer, resolutions of COMPLETED
    that carry no output leave the timer running: each slot issues one
    more status resolution, loading stays as it was and no error is
    shown, for as many such resolutions as come.  On the terminal
    resolutions the code does tell (COMPLETED with an output, FAILED)
    the timer is cancelled and no later slot issues anything; over
    IN_QUEUE, IN_PROGRESS, COMPLETED with an output whose status is
    "success" and whose [audio_base64] is non-empty base64, three
    resolutions are issued and exactly one result is materialized; and
    a COMPLETED output without success, without audio, or with audio
    that does not decode, materializes nothing. *)
Theorem C1_completed_without_output_keeps_polling a id jobId :
  polling a id jobId -> Props.printable jobId = true ->
  (forall ds,
      Forall (fun fields => status_of fields = JS "COMPLETED" /\
                            truthy (assoc (str "output") fields) = false) ds ->
      polling (run (feed id ds) a) id jobId /\
      resolutions (run (feed id ds) a) = (List.length ds + resolutions a)%nat /\
      loading (run (feed id ds) a) = loading a /\
      error (run (feed id ds) a) = error a /\
      object_urls (run (feed id ds) a) = object_urls a) /\
  (forall fields ticks,
      conclusive fields = true ->
      pollRef (step (Tick id (data_reply (JObj fields))) a) = None /\
      intervals (step (Tick id (data_reply (JObj fields))) a) = [] /\
      resolutions (step (Tick id (data_reply (JObj fields))) a)
        = S (resolutions a) /\
      run (map (fun t => Tick (fst t) (snd t)) ticks)
          (step (Tick id (data_reply (JObj fields))) a)
        = step (Tick id (data_reply (JObj fields))) a) /\
  (forall q p c bytes,
      status_of q = JS "IN_QUEUE" -> status_of p = JS "IN_PROGRESS" ->
      status_of c = JS "COMPLETED" ->
      truthy (assoc (str "output") c) = true ->
      is_str (field (assoc (str "output") c) "status") "success" = true ->
      truthy (field (assoc (str "output") c) "audio_base64") = true ->
      atob (field (assoc (str "output") c) "audio_base64") = Ok bytes ->
      materializations (run (feed id [q; p; c]) a) = S (materializations a) /\
      resolutions (run (feed id [q; p; c]) a) = (3 + resolutions a)%nat /\
      pollRef (run (feed id [q; p; c]) a) = None /\
      intervals (run (feed id [q; p; c]) a) = []) /\
  (forall c,
      status_of c = JS "COMPLETED" ->
      truthy (assoc (str "output") c) = true ->
      is_str (field (assoc (str "output") c) "status") "success" = false \/
      truthy (field (assoc (str "output") c) "audio_base64") = false \/
      (exists e, atob (field (assoc (str "output") c) "audio_base64") = Throw e) ->
      materializations (step (Tick id (data_reply (JObj c))) a)
      = materializations a).
Proof.
  intros Hp Hj. split; [|split; [|split]].
  - intros ds Hall. apply (pending_run id jobId ds a Hp Hj).
    eapply Forall_impl; [|exact Hall].
    intros fields [Hst Hout]. unfold pending, conclusive.
    rewrite Hst, Hout. reflexivity.
  - intros fields ticks Hc.
    destruct (tick_conclusive a id jobId fields Hp Hj Hc) as (H1 & H2 & _ & H3).
    repeat split; try assumption. apply ticks_idle, H2.
  - intros q p c bytes Hq Hpr Hc Hout Hos Haudio Hatob.
    assert (Pq : pending q = true)
      by (unfold pending, conclusive; rewrite Hq; reflexivity).
    assert (Pp : pending p = true)
      by (unfold pending, conclusive; rewrite Hpr; reflexivity).
    assert (Cc : conclusive c = true)
      by (unfold conclusive; rewrite Hc, Hout; reflexivity).
    cbn [feed map run].
    destruct (tick_pending a id jobId q Hp Hj Pq) as (Hp1 & R1 & U1 & _).
    set (a1 := step (Tick id (data_reply (JObj q))) a) in *.
    destruct (tick_pending a1 id jobId p Hp1 Hj Pp) as (Hp2 & R2 & U2 & _).
    set (a2 := step (Tick id (data_reply (JObj p))) a1) in *.
    destruct (tick_conclusive a2 id jobId c Hp2 Hj Cc) as (H1 & H2 & _ & R3).
    destruct (tick_success a2 id jobId c bytes Hp2 Hj Hc Hout Hos Haudio Hatob)
      as (U3 & _).
    unfold materializations. rewrite U3, length_app, U2, U1. cbn [List.length].
    repeat split; try assumption; lia.
  - intros c Hst Hout Hcase.
    rewrite (tick_observes a id jobId c Hp Hj).
    unfold observe. rewrite Hst, Hout. cbn [is_str andb].
    change (str_eqb (str "COMPLETED") (str "COMPLETED")) with true. cbv iota.
    rewrite (stop_polling _ id jobId (polling_asked a id jobId _ Hp)).
    destruct (is_str (field (assoc (str "output") c) "status") "success") eqn:Hos;
      [|destruct a; project; reflexivity].
    destruct (truthy (field (assoc (str "output") c) "audio_base64")) eqn:Ha;
      [|destruct a; project; reflexivity].
    destruct Hcase as [Hn | [Hn | [e He]]]; try discriminate.
    cbn [andb]. cbv iota. rewrite (failed_decode _ _ _ He).
    destruct a. project. reflexivity.
Qed.

Lemma C1_witness :
  intervals (run (feed 1 [resolution "COMPLETED" []; resolution "COMPLETED" []])
               started)
    = [poller 1 (JS "job-1")] /\
  resolutions (run (feed 1 [resolution "COMPLETED" []; resolution "COMPLETED" []])
                 started) = 2%nat /\
  loading (run (feed 1 [resolution "COMPLETED" []; resolution "COMPLETED" []])
             started) = true /\
  error (run (feed 1 [resolution "COMPLETED" []; resolution "COMPLETED" []])
           started) = JNull.
Proof.
  destruct (C1_completed_without_output_keeps_polling started 1 (JS "job-1")
              started_polling eq_refl)
    as [H _].
  destruct (H [resolution "COMPLETED" []; resolution "COMPLETED" []])
    as ((_ & Hi) & Hr & Hl & He & _).
  - apply Forall_cons; [split; reflexivity|].
    apply Forall_cons; [split; reflexivity | apply Forall_nil].
  - split; [exact Hi|]. split; [exact Hr|]. split; [exact Hl | exact He].
Defined.

(** C2, the part the code misses.  When a COMPLETED resolution reports
    success with an [audio_base64] that [atob] rejects, the exception
    leaves [base64ToBlob] and lands in the callback's own [catch]: the
    poller has stopped and nothing crashes, no object URL exists, but
    the only trace of the failure is a console line.  The error shown
    to the caller is what it was before. *)
Theorem C2_decode_failure_is_only_logged a id jobId fields e :
  polling a id jobId -> Props.printable jobId = true ->
  status_of fields = JS "COMPLETED" ->
  truthy (assoc (str "output") fields) = true ->
  is_str (field (assoc (str "output") fields) "status") "success" = true ->
  truthy (field (assoc (str "output") fields) "audio_base64") = true ->
  atob (field (assoc (str "output") fields) "audio_base64") = Throw e ->
  pollRef (step (Tick id (data_reply (JObj fields))) a) = None /\
  intervals (step (Tick id (data_reply (JObj fields))) a) = [] /\
  loading (step (Tick id (data_reply (JObj fields))) a) = false /\
  object_urls (step (Tick id (data_reply (JObj fields))) a) = object_urls a /\
  audioSrc (step (Tick id (data_reply (JObj fields))) a) = audioSrc a /\
  error (step (Tick id (data_reply (JObj fields))) a) = error a /\
  trace (step (Tick id (data_reply (JObj fields))) a)
    = trace a ++ [Fetch "GET" (status_url jobId) None;
                  ConsoleError (str "Poll error:") e].
Proof.
  intros Hp Hj Hst Hout Hos Haudio Hatob.
  rewrite (tick_observes a id jobId fields Hp Hj).
  unfold observe. rewrite Hst, Hout, Hos, Haudio, (failed_decode _ _ _ Hatob).
  cbn [is_str andb].
  change (str_eqb (str "COMPLETED") (str "COMPLETED")) with true. cbv iota.
  rewrite (stop_polling _ id jobId (polling_asked a id jobId _ Hp)).
  destruct a. project. repeat split. rewrite <- app_assoc. reflexivity.
Qed.

Lemma C2_witness :
  error (step (Tick 1 (data_reply (JObj
           (resolution "COMPLETED"
              [("output", Server.obj [("status", JS "success");
                                      ("audio_base64", JS "!!!!")])]))))
           started) = JNull /\
  object_urls (step (Tick 1 (data_reply (JObj
           (resolution "COMPLETED"
              [("output", Server.obj [("status", JS "success");
                                      ("audio_base64", JS "!!!!")])]))))
           started) = [].
Proof.
  destruct (C2_decode_failure_is_only_logged started 1 (JS "job-1")
              (resolution "COMPLETED"
                 [("output", Server.obj [("status", JS "success");
                                         ("audio_base64", JS "!!!!")])])
              InvalidCharacterError started_polling
              eq_refl eq_refl eq_refl eq_refl eq_refl eq_refl)
    as (_ & _ & _ & Hu & _ & He & _).
  split; [exact He | exact Hu].
Defined.

(** C8.  When a resolution says COMPLETED and carries an output whose
    own status is not "success", the poller stops (its timer is
    cancelled, loading ends) and the error shown is the output's
    message, or "Generation failed" without one; no audio resource is
    created and the audio source is left as it was. *)
Theorem C8_completed_without_success a id jobId fields :
  polling a id jobId -> Props.printable jobId = true ->
  status_of fields = JS "COMPLETED" ->
  truthy (assoc (str "output") fields) = true ->
  is_str (field (assoc (str "output") fields) "status") "success" = false ->
  pollRef (step (Tick id (data_reply (JObj fields))) a) = None /\
  intervals (step (Tick id (data_reply (JObj fields))) a) = [] /\
  loading (step (Tick id (data_reply (JObj fields))) a) = false /\
  error (step (Tick id (data_reply (JObj fields))) a)
    = or_else (field (assoc (str "output") fields) "message")
              (JS "Generation failed") /\
  truthy (error (step (Tick id (data_reply (JObj fields))) a)) = true /\
  object_urls (step (Tick id (data_reply (JObj fields))) a) = object_urls a /\
  audioSrc (step (Tick id (data_reply (JObj fields))) a) = audioSrc a.
Proof.
  intros Hp Hj Hst Hout Hos.
  rewrite (tick_observes a id jobId fields Hp Hj).
  unfold observe. rewrite Hst, Hout, Hos. cbn [is_str andb].
  change (str_eqb (str "COMPLETED") (str "COMPLETED")) with true. cbv iota.
  rewrite (stop_polling _ id jobId (polling_asked a id jobId _ Hp)).
  destruct a. project. repeat split. apply or_else_truthy. reflexivity.
Qed.

Lemma C8_witness :
  error (step (Tick 1 (data_reply (JObj
           (resolution "COMPLETED"
              [("output", Server.obj [("status", JS "error");
                                      ("message", JS "out of memory")])]))))
           started) = JS "out of memory" /\
  intervals (step (Tick 1 (data_reply (JObj
           (resolution "COMPLETED"
              [("output", Server.obj [("status", JS "error");
                                      ("message", JS "out of memory")])]))))
           started) = [] /\
  object_urls (step (Tick 1 (data_reply (JObj
           (resolution "COMPLETED"
              [("output", Server.obj [("status", JS "error");
                                      ("message", JS "out of memory")])]))))
           started) = [].
Proof.
  destruct (C8_completed_without_success started 1 (JS "job-1")
              (resolution "COMPLETED"
                 [("output", Server.obj [("status", JS "error");
                                         ("message", JS "out of memory")])])
              started_polling eq_refl eq_refl eq_refl eq_refl)
    as (_ & Hi & _ & He & _ & Hu & _).
  split; [exact He|]. split; [exact Hi | exact Hu].
Defined.

End Poller.

(* ===================================================================== *)
(** * Starting a new request *)
(* ===================================================================== *)

Module Session.
Import JS Eff Browser Client JSFacts ClientProps ClientFacts.
Local Open Scope string_scope.
Local Open Scope list_scope.



Ltac run_all :=
  cbv beta iota zeta delta
    [exec poll try_catch bind lift ret throw modify gets emit fetch when
     stopPolling clearInterval createObjectURL pollStatus setInterval
     handleGenerate handleGenerate_resume reset submission
     setStatus setLoading setError setAudioSrc setInferenceTime set_pollRef
     set_intervals set_next_timer set_object_urls set_submitting set_trace
     setLyrics setTags setDurationMs asked observe fresh_url
     fst snd lyrics tags durationMs status error audioSrc inferenceTime
     loading pollRef intervals next_timer object_urls submitting trace
     data_reply status_of status_url owned coherent disabled
     timer period job poller].

Lemma handleGenerate_runs a :
  is_empty (trim (lyrics a)) = false -> is_empty (trim (tags a)) = false ->
  exec handleGenerate a
  = set_submitting (S (submitting a))
      (set_trace (trace (reset a) ++ [submission a]) (reset a)).
Proof.
  destruct a as [ly tg du st er au it ld pr ivs nt urls sub tr].
  cbn [lyrics tags]. intros Hl Ht.
  unfold handleGenerate, exec. unfold bind at 1. unfold gets at 1. cbv beta iota.
  unfold bind at 1. unfold gets at 1. cbv beta iota. cbn [lyrics tags].
  rewrite Hl, Ht. cbn [orb]. cbv iota.
  destruct pr as [id|]; run_all; reflexivity.
Qed.

Lemma reset_clears a :
  owned a ->
  audioSrc (reset a) = JNull /\ pollRef (reset a) = None /\
  intervals (reset a) = [] /\ error (reset a) = JNull /\
  inferenceTime (reset a) = JNull /\ trace (reset a) = trace a /\
  object_urls (reset a) = object_urls a.
Proof.
  destruct a as [ly tg du st er au it ld pr ivs nt urls sub tr].
  unfold owned. cbn [pollRef intervals].
  destruct pr as [id|].
  - intros [jobId ->]. run_all. cbn [filter negb]. rewrite Pos.eqb_refl.
    repeat split.
  - intros ->. run_all. repeat split.
Qed.

(** ** What holds at every moment *)

Lemma coherent_initial : coherent initial.
Proof. repeat split; try reflexivity. left; reflexivity. Qed.

Ltac close_coherent :=
  solve [ repeat split; intros;
          try discriminate; try congruence;
          try (left; reflexivity); try (right; split; reflexivity);
          try (eexists; reflexivity); try reflexivity ].

Lemma coherent_poll a id jobId r :
  coherent a -> pollRef a = Some id -> intervals a = [poller id jobId] ->
  coherent (exec (poll jobId r) a).
Proof.
  destruct a as [ly tg du st er au it ld pr ivs nt urls sub tr].
  intros (Ho & Hs & Hl) Hp Hi. cbn [pollRef intervals loading submitting] in *.
  subst pr ivs.
  assert (Hld : ld = true).
  { destruct ld; [reflexivity|]. destruct (Hl eq_refl). discriminate. }
  subst ld.
  assert (Hsub : sub = 0%nat) by (destruct Hs as [? | [_ ?]]; congruence).
  subst sub. clear Ho Hs Hl.
  unfold poll, exec, try_catch. unfold bind at 1. unfold lift at 1.
  destruct (to_string jobId) as [text | e]; [|run_all; close_coherent].
  destruct r as [m | ok json]; [run_all; close_coherent|].
  destruct json as [data | e]; [|run_all; close_coherent].
  destruct data as [ | | b | x | s | items | fields];
    try (run_all; close_coherent).
  run_all. cbn [get].
  destruct (is_str (assoc (str "status") fields) "COMPLETED") eqn:Ec.
  - assert (Ef : is_str (assoc (str "status") fields) "FAILED" = false).
    { apply is_str_exclusive with (s := "COMPLETED"); [discriminate | exact Ec]. }
    rewrite Ef.
    destruct (truthy (assoc (str "output") fields)) eqn:Et;
      [|cbn [andb]; cbv beta iota; close_coherent].
    cbn [andb]. cbv beta iota. cbn [filter negb]. rewrite Pos.eqb_refl.
    cbn [negb].
    rewrite (get_truthy _ "status" Et). cbv beta iota.
    destruct (is_str (field (assoc (str "output") fields) "status") "success") eqn:Es.
    + rewrite (get_truthy _ "audio_base64" Et). cbv beta iota.
      destruct (truthy (field (assoc (str "output") fields) "audio_base64")) eqn:Ea.
      * cbn [andb]. cbv beta iota.
        destruct (base64ToBlob _ _) eqn:Eb; cbv beta iota.
        -- rewrite (get_truthy _ "inference_time_sec" Et). cbv beta iota.
           close_coherent.
        -- close_coherent.
      * cbn [andb]. rewrite (get_truthy _ "message" Et). cbv beta iota.
        close_coherent.
    + cbn [andb]. rewrite (get_truthy _ "message" Et). cbv beta iota.
      close_coherent.
  - cbn [andb]. cbv beta iota.
    destruct (is_str (assoc (str "status") fields) "FAILED") eqn:Ef;
      cbv beta iota; cbn [filter negb]; rewrite ?Pos.eqb_refl; cbn [negb];
      close_coherent.
Qed.

Lemma coherent_resume a r :
  coherent a -> submitting a = 1%nat ->
  coherent (exec (handleGenerate_resume r) (set_submitting 0 a)).
Proof.
  destruct a as [ly tg du st er au it ld pr ivs nt urls sub tr].
  intros (Ho & Hs & Hl) Hsub. cbn [pollRef intervals loading submitting] in *.
  subst sub.
  assert (Hpr : pr = None) by (destruct Hs as [? | [_ ?]]; congruence).
  subst pr. unfold owned in Ho. cbn [pollRef intervals] in Ho. subst ivs.
  assert (Hld : ld = true).
  { destruct ld; [reflexivity|]. destruct (Hl eq_refl). discriminate. }
  subst ld. clear Hs Hl.
  unfold handleGenerate_resume, exec, try_catch.
  destruct r as [m | ok json]; [run_all; close_coherent|].
  destruct ok; cbn [negb]; cbv iota.
  - destruct json as [data | e]; [|run_all; close_coherent].
    destruct data as [ | | b | x | s | items | fields];
      run_all; cbn [get List.app]; close_coherent.
  - destruct json as [data | e]; [|run_all; close_coherent].
    destruct data as [ | | b | x | s | items | fields];
      run_all; cbn [get]; cbv beta iota;
      try match goal with
          | |- context [to_string ?v] => destruct (to_string v)
          end; cbv beta iota; close_coherent.
Qed.

Lemma coherent_click a : coherent a -> coherent (step Click a).
Proof.
  intros H. cbn [step]. destruct (disabled a) eqn:Ed; [exact H|].
  unfold disabled in Ed. rewrite !orb_false_iff in Ed.
  destruct Ed as [[Hld Hl] Ht].
  rewrite (handleGenerate_runs a Hl Ht).
  destruct H as (Ho & Hs & Hload). destruct (Hload Hld) as [Hp Hsub].
  destruct (reset_clears a Ho) as (_ & Hp' & Hi' & _).
  destruct a as [ly tg du st er au it ld pr ivs nt urls sub tr].
  cbn [pollRef submitting loading] in *. subst pr sub ld.
  unfold owned in Ho. cbn [pollRef intervals] in Ho. subst ivs.
  run_all. close_coherent.
Qed.

Lemma coherent_step e a : coherent a -> coherent (step e a).
Proof.
  intros H. destruct e as [s | s | i | | r | id r].
  - cbn [step]. destruct (loading a) eqn:E; [exact H|]. destruct a; exact H.
  - cbn [step]. destruct (loading a) eqn:E; [exact H|]. destruct a; exact H.
  - cbn [step]. destruct (loading a) eqn:E; [exact H|].
    destruct (nth_error DURATION_OPTIONS i); [|exact H]. destruct a; exact H.
  - apply coherent_click, H.
  - cbn [step]. destruct (submitting a) as [|n] eqn:E; [exact H|].
    assert (Hn : n = 0%nat).
    { destruct H as (_ & [H0 | [H1 _]] & _); congruence. }
    subst n. apply coherent_resume; assumption.
  - cbn [step].
    destruct (find (fun iv => Pos.eqb (timer iv) id) (intervals a)) as [iv|] eqn:Ef;
      [|exact H].
    pose proof H as (Ho & _). unfold owned in Ho.
    destruct (pollRef a) as [id'|] eqn:Ep.
    + destruct Ho as [jobId Hi]. rewrite Hi in Ef. cbn [find timer poller] in Ef.
      destruct (Pos.eqb id' id); [|discriminate]. injection Ef as <-.
      cbn [job poller]. apply (coherent_poll a id' jobId r H Ep Hi).
    + rewrite Ho in Ef. discriminate.
Qed.

(** Every state the component can be in is coherent. *)
Lemma coherent_run es : forall a, coherent a -> coherent (run es a).
Proof.
  induction es as [|e es IH]; intros a H; [exact H|].
  cbn [run]. apply IH, coherent_step, H.
Qed.

(** A reachable component with a timer in [pollRef] is polling, in the
    sense the poller's theorems assume. *)
Lemma reachable_polling es id :
  pollRef (run es initial) = Some id ->
  exists jobId, polling (run es initial) id jobId.
Proof.
  intros Hp. destruct (coherent_run es initial coherent_initial) as (Ho & _).
  unfold owned in Ho. rewrite Hp in Ho. destruct Ho as [jobId Hi].
  exists jobId. split; assumption.
Qed.

(** C9, as the code has it.  [handleGenerate] issues its request from
    a state in which the audio source, the error and the inference time
    are null and no interval timer is left: the component lets go of
    the previous result and the previous poller is stopped before the
    submission goes out, and the submission is the only call it makes.
    This holds whenever the running timer is the one [pollRef] holds,
    which is so in every state the component can reach.  The previous
    result handle itself is not released: the object URLs the browser
    has handed out are the same before and after, none is revoked. *)
Theorem C9_new_request_drops_previous :
  (forall a,
      owned a ->
      is_empty (trim (lyrics a)) = false -> is_empty (trim (tags a)) = false ->
      audioSrc (reset a) = JNull /\ pollRef (reset a) = None /\
      intervals (reset a) = [] /\
      exec handleGenerate a
      = set_submitting (S (submitting a))
          (set_trace (trace (reset a) ++ [submission a]) (reset a)) /\
      audioSrc (exec handleGenerate a) = JNull /\
      pollRef (exec handleGenerate a) = None /\
      intervals (exec handleGenerate a) = [] /\
      trace (exec handleGenerate a) = trace a ++ [submission a] /\
      object_urls (exec handleGenerate a) = object_urls a) /\
  (forall es, owned (run es initial)).
Proof.
  split.
  - intros a Ho Hl Ht.
    destruct (reset_clears a Ho) as (Ha & Hp & Hi & _ & _ & Htr & Hu).
    pose proof (handleGenerate_runs a Hl Ht) as Hrun.
    repeat split; try assumption; rewrite Hrun;
      destruct (reset a); cbn in *; subst; reflexivity.
  - intros es. apply (coherent_run es initial coherent_initial).
Qed.

Lemma played_owned : owned played.
Proof. vm_compute. reflexivity. Qed.

Lemma started_owned : owned started.
Proof. vm_compute. eexists. reflexivity. Qed.

Lemma started_filled :
  is_empty (trim (lyrics started)) = false /\
  is_empty (trim (tags started)) = false.
Proof. vm_compute. split; reflexivity. Qed.

Lemma played_filled :
  is_empty (trim (lyrics played)) = false /\
  is_empty (trim (tags played)) = false.
Proof. vm_compute. split; reflexivity. Qed.

Lemma C9_witness :
  audioSrc (exec handleGenerate played) = JNull /\
  intervals (exec handleGenerate started) = [] /\
  pollRef (exec handleGenerate started) = None.
Proof.
  destruct C9_new_request_drops_previous as [H _].
  destruct (H played played_owned (proj1 played_filled) (proj2 played_filled))
    as (_ & _ & _ & _ & Ha & _).
  destruct (H started started_owned (proj1 started_filled) (proj2 started_filled))
    as (_ & _ & _ & _ & _ & Hp & Hi & _).
  split; [exact Ha|]. split; [exact Hi | exact Hp].
Defined.

Example played_has_audio : audioSrc played = JStr (str "blob:0").
Proof. vm_compute. reflexivity. Qed.

(** The claim as first written has the previous result handle released
    when a new request starts.  In a session whose result is on display
    under the object URL [blob:0], a new request clears the audio
    source, and the object URL stays registered with its three bytes:
    the code has no call that revokes it. *)
Lemma C9_counterexample :
  audioSrc played = JStr (str "blob:0") /\
  audioSrc (exec handleGenerate played) = JNull /\
  object_urls (exec handleGenerate played)
  = [(str "blob:0", {| data := [0; 0; 0]%N; type := str "audio/mpeg" |})].
Proof. vm_compute. repeat split; reflexivity. Qed.

End Session.

(* ===================================================================== *)
(** * The three handlers, whatever they are given *)
(* ===================================================================== *)

Module Handlers.
Import JS Eff Server JSFacts Props Reach.
Local Open Scope string_scope.
Local Open Scope list_scope.

Ltac run_handler :=
  cbv beta iota zeta delta
    [generate status cancel try_catch lift console_log console_error fetch emit
     modify bind ret reply internal_error throw fst snd trace store].

Ltac among :=
  solve [ left; reflexivity
        | right; cbn [map In]; repeat first [left; reflexivity | right] ].

Ltac told :=
  solve [ left; Gateway.calls_norm
        | right; eexists; Gateway.calls_norm ].

Ltac answered :=
  eexists; cbn [fst snd]; split; [reflexivity|];
  cbn [code payload trace store];
  split; [reflexivity|];
  split; [among|];
  split; [first [intros _; reflexivity | intros; discriminate]|];
  split; [told|];
  first [ intros [?|?]; discriminate
        | intros _; eexists; Gateway.calls_norm ].

(** Every outcome of POST /api/generate, read off the handler branch by
    branch. *)
Lemma generate_outcome cfg body up w :
  exists resp,
    snd (generate cfg body up w) = Ok resp /\
    store (fst (generate cfg body up w)) = store w /\
    (code resp = 200%Z \/ In resp (map error_response generate_errors)) /\
    (code resp = 400%Z -> fst (generate cfg body up w) = w) /\
    (calls (fst (generate cfg body up w)) = calls w \/
     exists payload,
       calls (fst (generate cfg body up w)) = calls w ++
         [Outbound "POST" (RUNPOD_BASE cfg ++ str "/run") (Some payload)]) /\
    (code resp = 200%Z \/ code resp = 502%Z ->
     exists payload,
       calls (fst (generate cfg body up w)) = calls w ++
         [Outbound "POST" (RUNPOD_BASE cfg ++ str "/run") (Some payload)]).
Proof.
  destruct w as [tr st].
  destruct body as [ | | b | x | s | items | fields];
    try (run_handler; cbn [get]; cbv beta iota; rewrite ?Gateway.blank_run;
         cbv beta iota; answered).
  unfold generate, try_catch, bind, lift, get. cbv beta iota.
  rewrite Gateway.blank_run.
  destruct (negb (truthy (assoc (str "lyrics") fields))) eqn:Tl;
    [run_handler; answered|].
  destruct (assoc (str "lyrics") fields) as [ | | b | x | l | items | f] eqn:El;
    try (run_handler; answered).
  destruct (trim l) as [|cl sl] eqn:Etl; [run_handler; answered|].
  cbv beta iota. rewrite Gateway.blank_run.
  destruct (negb (truthy (assoc (str "tags") fields))) eqn:Tt;
    [run_handler; answered|].
  destruct (assoc (str "tags") fields) as [ | | b | x | t | items | f] eqn:Et;
    try (run_handler; answered).
  destruct (trim t) as [|ct stt] eqn:Ett; [run_handler; answered|].
  cbv beta iota.
  unfold parseInt, parseFloat, rbind.
  destruct (to_string (assoc (str "duration_ms") fields)); [|run_handler; answered].
  cbn [call_trim]. rewrite Etl, Ett.
  destruct (to_string (assoc (str "temperature") fields)); [|run_handler; answered].
  destruct (to_string (assoc (str "topk") fields)); [|run_handler; answered].
  destruct (to_string (assoc (str "cfg_scale") fields)); [|run_handler; answered].
  cbn [length_of to_string]. cbv beta iota.
  destruct up as [m | c text json]; [run_handler; answered|].
  run_handler. destruct (negb (ok c)); run_handler.
  - destruct text; run_handler; answered.
  - destruct json as [data | e]; run_handler; [|answered].
    destruct data; run_handler; cbn [get]; try answered;
      match goal with
      | |- context [to_string ?v] => destruct (to_string v); run_handler; answered
      end.
Qed.

(** X1.  POST /api/generate answers every request, whatever the body and
    whatever the provider does: the handler never throws; the answer is
    a 200 or one of four fixed error bodies (400 for either missing
    field, 500, 502), so nothing the provider said is passed on in an
    error; a 400 leaves no trace at all, not even a console line; the
    provider is called at most once, at [/run], and exactly once when
    the answer is 200 or 502; the rate-limit store is not touched. *)
Theorem generate_always_answers cfg body up w :
  exists w' resp,
    generate cfg body up w = (w', Ok resp) /\
    store w' = store w /\
    (code resp = 200%Z \/ In resp (map error_response generate_errors)) /\
    (code resp = 400%Z -> w' = w) /\
    (calls w' = calls w \/
     exists payload,
       calls w' = calls w ++
         [Outbound "POST" (RUNPOD_BASE cfg ++ str "/run") (Some payload)]) /\
    (code resp = 200%Z \/ code resp = 502%Z ->
     exists payload,
       calls w' = calls w ++
         [Outbound "POST" (RUNPOD_BASE cfg ++ str "/run") (Some payload)]).
Proof.
  destruct (generate_outcome cfg body up w)
    as (resp & Hr & Hs & Hc & H400 & Hcalls & Hone).
  destruct (generate cfg body up w) as [w' r] eqn:E.
  cbn [fst snd] in Hr, Hs, H400, Hcalls, Hone. subst r.
  exists w', resp. split; [reflexivity|]. split; [exact Hs|].
  split; [exact Hc|]. split; [exact H400|]. split; [exact Hcalls | exact Hone].
Qed.

(** The handler on a request that passes the checks, up to the call. *)
Ltac submit Hacc :=
  let Hl1 := fresh in let Hl2 := fresh in let Ht1 := fresh in
  let Ht2 := fresh in let Hd := fresh in let Htemp := fresh in
  let Hk := fresh in let Hc := fresh in
  let l := fresh "l" in let t := fresh "t" in
  let El := fresh in let Et := fresh in let Hl := fresh in let Ht := fresh in
  let Tl := fresh in let Tt := fresh in
  unfold accepted in Hacc; rewrite !andb_true_iff in Hacc;
  destruct Hacc as [[[[[[[Hl1 Hl2] Ht1] Ht2] Hd] Htemp] Hk] Hc];
  destruct (Gateway.text_field _ Hl1 Hl2) as (l & El & Hl & Tl);
  destruct (Gateway.text_field _ Ht1 Ht2) as (t & Et & Ht & Tt);
  unfold generate, try_catch, bind, lift, get; cbv beta iota;
  rewrite El in Tl; rewrite Et in Tt;
  rewrite El, Et, Gateway.blank_run, Tl; cbn [negb]; cbv beta iota;
  destruct (trim l) eqn:?; [congruence|]; cbv beta iota;
  rewrite Gateway.blank_run, Tt; cbn [negb]; cbv beta iota;
  destruct (trim t) eqn:?; [congruence|]; cbv beta iota;
  rewrite (Gateway.parseInt_text _ Hd), (Gateway.parseFloat_text _ Htemp),
          (Gateway.parseInt_text _ Hk), (Gateway.parseFloat_text _ Hc);
  cbn [call_trim length_of to_string];
  cbv beta iota.

(** X2.  When the provider cannot be reached or answers outside
    200..299, a request that passed the checks is answered with a fixed
    error and the detail goes to the error console only: 502 "Failed to
    submit job to RunPod" with the provider's status code and body
    logged, or 500 "Internal server error" with the message logged when
    the call was rejected or the body could not be read. In each case
    the console has the submission line, then the one call, then the
    error line: the call is not repeated. *)
Theorem generate_reports_failure cfg fields up w :
  accepted fields = true -> upstream_failed up ->
  exists line payload,
    generate cfg (JObj fields) up w
    = ({| trace :=
            trace w ++
            [Console false line;
             Outbound "POST" (RUNPOD_BASE cfg ++ str "/run") (Some payload);
             Console true
               match up with
               | Responds c (Ok text) _ =>
                   str "[generate] RunPod error: "
                   ++ number_to_string (of_Z c) ++ str " " ++ text
               | Responds _ (Throw e) _ =>
                   str "[generate] Error: " ++ message_of e
               | Unreachable m => str "[generate] Error: " ++ m
               end];
          store := store w |},
       Ok (error_response
             match up with
             | Responds _ (Ok _) _ => (502%Z, "Failed to submit job to RunPod")
             | _ => (500%Z, "Internal server error")
             end)).
Proof.
  intros Hacc Hup. destruct w as [tr st]. submit Hacc.
  destruct up as [m | c text json]; cbn in Hup.
  - run_handler. eexists _, _. rewrite <- !app_assoc. reflexivity.
  - run_handler. rewrite Hup. cbn [negb].
    destruct text; run_handler; eexists _, _; rewrite <- !app_assoc;
      reflexivity.
Qed.

Lemma generate_reports_failure_witness :
  exists line payload,
    generate sample
      (JObj [(str "lyrics", JS "la la"); (str "tags", JS "pop")])
      (Responds 503 (Ok (str "busy")) (Throw TypeError)) idle
    = ({| trace :=
            [Console false line;
             Outbound "POST" (str "https://api.runpod.ai/v2/ep/run") (Some payload);
             Console true (str "[generate] RunPod error: 503 busy")];
          store := [] |},
       Ok {| code := 502;
             payload := obj [("error", JS "Failed to submit job to RunPod")] |}).
Proof.
  apply (generate_reports_failure sample
           [(str "lyrics", JS "la la"); (str "tags", JS "pop")]
           (Responds 503 (Ok (str "busy")) (Throw TypeError)) idle
           eq_refl eq_refl).
Defined.

(** X3.  When the provider accepts the job, a request that passed the
    checks is answered 200 with the provider's [id] as [jobId] and the
    provider's [status] as [status], both as they came (missing ones
    stay missing), and the job id is logged. *)
Theorem generate_hands_out_job cfg fields c text data w :
  accepted fields = true -> ok c = true ->
  printable (assoc (str "id") data) = true ->
  exists line payload,
    generate cfg (JObj fields) (Responds c text (Ok (JObj data))) w
    = ({| trace :=
            trace w ++
            [Console false line;
             Outbound "POST" (RUNPOD_BASE cfg ++ str "/run") (Some payload);
             Console false (str "[generate] Job submitted: "
                            ++ text_of (assoc (str "id") data))];
          store := store w |},
       Ok {| code := 200;
             payload := obj [("jobId", assoc (str "id") data);
                             ("status", assoc (str "status") data)] |}).
Proof.
  intros Hacc Hok Hid. destruct w as [tr st]. submit Hacc.
  run_handler. rewrite Hok. cbn [negb get]. cbv beta iota.
  rewrite (Gateway.printable_text _ Hid).
  eexists _, _; rewrite <- !app_assoc; reflexivity.
Qed.

Lemma generate_hands_out_job_witness :
  exists w',
    generate sample
      (JObj [(str "lyrics", JS "la la"); (str "tags", JS "pop")])
      (Responds 200 (Ok [])
         (Ok (obj [("id", JS "job-1"); ("status", JS "IN_QUEUE")]))) idle
    = (w', Ok {| code := 200;
                 payload := obj [("jobId", JS "job-1");
                                 ("status", JS "IN_QUEUE")] |}).
Proof.
  destruct (generate_hands_out_job sample
              [(str "lyrics", JS "la la"); (str "tags", JS "pop")]
              200 (Ok []) [(str "id", JS "job-1"); (str "status", JS "IN_QUEUE")]
              idle eq_refl eq_refl eq_refl) as (line & payload & H).
  eexists. exact H.
Defined.

(** Every outcome of GET /api/status/:jobId. *)
Lemma status_outcome cfg jobId up w :
  exists resp,
    snd (status cfg jobId up w) = Ok resp /\
    store (fst (status cfg jobId up w)) = store w /\
    calls (fst (status cfg jobId up w)) = calls w ++
      [Outbound "GET" (RUNPOD_BASE cfg ++ str "/status/" ++ jobId) None] /\
    (code resp = 200%Z \/ In resp (map error_response status_errors)).
Proof.
  destruct w as [tr st].
  assert (Hfin : forall tr' resp,
            calls {| trace := tr'; store := st |}
            = calls {| trace := tr; store := st |} ++
              [Outbound "GET" (RUNPOD_BASE cfg ++ str "/status/" ++ jobId) None] ->
            code resp = 200%Z \/ In resp (map error_response status_errors) ->
            exists resp',
              snd ({| trace := tr'; store := st |}, Ok resp) = Ok resp' /\
              store (fst ({| trace := tr'; store := st |}, Ok resp)) = st /\
              calls (fst ({| trace := tr'; store := st |}, Ok resp))
              = calls {| trace := tr; store := st |} ++
                [Outbound "GET" (RUNPOD_BASE cfg ++ str "/status/" ++ jobId) None] /\
              (code resp' = 200%Z \/ In resp' (map error_response status_errors))).
  { intros tr' resp H1 H2. eexists. split; [reflexivity|].
    split; [reflexivity|]. split; assumption. }
  cbn [store].
  destruct up as [m | c text json]; run_handler;
    [apply Hfin; [Gateway.calls_norm | among]|].
  destruct (negb (ok c)); run_handler.
  - destruct text; run_handler; apply Hfin; first [Gateway.calls_norm | among].
  - destruct json as [data | e]; run_handler;
      [|apply Hfin; [Gateway.calls_norm | among]].
    destruct data as [ | | b | x | s | items | f]; cbn [get]; cbv beta iota;
      try (apply Hfin; [Gateway.calls_norm | among]).
    destruct (is_str (assoc (str "status") f) "COMPLETED");
      destruct (is_str (assoc (str "status") f) "FAILED");
      cbv beta iota; apply Hfin; first [Gateway.calls_norm | among].
Qed.

(** X4.  GET /api/status/:jobId asks the provider exactly once, at the
    status URL of the job id it was given (the id goes into the URL as
    it is), whatever the provider does: there is no second attempt. It
    always answers, with a 200 or one of two fixed error bodies, and
    leaves the rate-limit store alone. *)
Theorem status_asks_once cfg jobId up w :
  exists w' resp,
    status cfg jobId up w = (w', Ok resp) /\
    store w' = store w /\
    calls w' = calls w ++
      [Outbound "GET" (RUNPOD_BASE cfg ++ str "/status/" ++ jobId) None] /\
    (code resp = 200%Z \/ In resp (map error_response status_errors)).
Proof.
  destruct (status_outcome cfg jobId up w) as (resp & Hr & Hs & Hcalls & Hc).
  destruct (status cfg jobId up w) as [w' r] eqn:E.
  cbn [fst snd] in Hr, Hs, Hcalls. subst r.
  exists w', resp. split; [reflexivity|]. split; [exact Hs|].
  split; [exact Hcalls | exact Hc].
Qed.

(** The one call of POST /api/cancel/:jobId. *)
Lemma cancel_calls cfg jobId up w :
  calls (fst (cancel cfg jobId up w))
  = calls w ++
    [Outbound "POST" (RUNPOD_BASE cfg ++ str "/cancel/" ++ jobId) None].
Proof.
  destruct up as [m | c text [data | e]];
    cbv beta iota zeta delta
      [cancel try_catch lift console_error fetch emit modify bind ret reply
       internal_error throw fst snd trace store];
    Gateway.calls_norm.
Qed.

(** X5.  POST /api/cancel/:jobId asks the provider exactly once, at the
    cancel URL of the job id, and relays whatever JSON comes back with
    status 200, without looking at the provider's own status code: a
    provider error is relayed as a success. Only a rejected call or a
    body that is not JSON gives the 500. *)
Theorem cancel_relays_verbatim cfg jobId up w :
  calls (fst (cancel cfg jobId up w))
    = calls w ++
      [Outbound "POST" (RUNPOD_BASE cfg ++ str "/cancel/" ++ jobId) None] /\
  store (fst (cancel cfg jobId up w)) = store w /\
  match up with
  | Responds c _ (Ok data) =>
      cancel cfg jobId up w
      = ({| trace :=
              trace w ++
              [Outbound "POST" (RUNPOD_BASE cfg ++ str "/cancel/" ++ jobId) None];
            store := store w |},
         Ok {| code := 200; payload := data |})
  | _ =>
      snd (cancel cfg jobId up w)
      = Ok (error_response (500%Z, "Internal server error"))
  end.
Proof.
  split; [apply cancel_calls|].
  destruct up as [m | c text [data | e]]; split; reflexivity.
Qed.

End Handlers.

(* ===================================================================== *)
(** * The routes and the provider *)
(* ===================================================================== *)

Module Routes.
Import JS Eff Server JSFacts Props Reach.
Local Open Scope string_scope.
Local Open Scope list_scope.

Lemma fallback_is_local req w : calls (fst (fallback req w)) = calls w.
Proof.
  unfold fallback, malformed.
  destruct (negb (forallb decodable (path req))); [reflexivity|].
  destruct (String.eqb (method req) "GET" || String.eqb (method req) "HEAD");
    [destruct (starts_with_api (path req))|]; reflexivity.
Qed.

(** X6.  The provider is called for three routes only, and once: a POST
    of /api/generate (when the request passes the checks), a GET of
    /api/status/:jobId and a POST of /api/cancel/:jobId, each with a job
    id that is not empty and can be decoded, which goes into the
    provider's URL decoded.  The paths are told letter case and one
    final slash apart.  The health check, an unknown path under /api/,
    a job id with a malformed escape, the page itself and every other
    method and path are answered without any call. *)
Theorem provider_is_called_by_three_routes_only cfg req up w :
  calls (fst (routes cfg req up w)) = calls w \/
  exists e,
    calls (fst (routes cfg req up w)) = calls w ++ [e] /\
    ((method req = "POST" /\
      (exists a g payload,
          unslash (path req) = [a; g] /\
          seg a "api" = true /\ seg g "generate" = true /\
          e = Outbound "POST" (RUNPOD_BASE cfg ++ str "/run") (Some payload))) \/
     (exists a s raw jobId,
         unslash (path req) = [a; s; raw] /\ seg a "api" = true /\ raw <> [] /\
         decodeURIComponent raw = Some jobId /\
         (((method req = "GET" \/ method req = "HEAD") /\
           seg s "status" = true /\
           e = Outbound "GET" (RUNPOD_BASE cfg ++ str "/status/" ++ jobId) None) \/
          (method req = "POST" /\ seg s "cancel" = true /\
           e = Outbound "POST" (RUNPOD_BASE cfg ++ str "/cancel/" ++ jobId) None)))).
Proof.
  unfold routes. cbv zeta.
  destruct (unslash (path req)) as [|a [|b [|c [|d rest]]]] eqn:Ep;
    try (left; apply fallback_is_local).
  - destruct (String.eqb (method req) "GET" || String.eqb (method req) "HEAD");
      destruct (seg a "api") eqn:E1; destruct (seg b "health");
      destruct (String.eqb (method req) "POST") eqn:Em;
      destruct (seg b "generate") eqn:E2; cbn [andb];
      try (left; first [apply fallback_is_local | reflexivity]).
    all: apply String.eqb_eq in Em;
      destruct (Handlers.generate_outcome cfg (body req) up w)
        as (resp & _ & _ & _ & _ & [Hc | (p & Hc)] & _);
      [left; exact Hc|];
      right; eexists; (split; [exact Hc|]); left; (split; [exact Em|]);
      exists a, b, p; repeat split; try reflexivity; assumption.
  - destruct (seg a "api") eqn:E1; cbn [andb];
      [|left; apply fallback_is_local].
    destruct c as [|c0 c'] eqn:Ec;
      [rewrite andb_false_r; left; apply fallback_is_local|].
    rewrite andb_true_r.
    destruct (seg b "status" || seg b "cancel") eqn:E23;
      [|left; apply fallback_is_local].
    destruct (decodeURIComponent (c0 :: c')) as [jobId|] eqn:Ed;
      [|left; reflexivity].
    destruct ((String.eqb (method req) "GET" || String.eqb (method req) "HEAD")
              && seg b "status") eqn:Eg.
    + apply andb_true_iff in Eg as [Eg E2].
      right. destruct (Handlers.status_outcome cfg jobId up w)
        as (resp & _ & _ & Hc & _).
      eexists. split; [exact Hc|]. right.
      exists a, b, (c0 :: c'), jobId.
      split; [reflexivity|]. split; [exact E1|]. split; [discriminate|].
      split; [exact Ed|]. left.
      split; [rewrite orb_true_iff, !String.eqb_eq in Eg; exact Eg|].
      split; [exact E2 | reflexivity].
    + destruct (String.eqb (method req) "POST" && seg b "cancel") eqn:Ec2;
        [|left; apply fallback_is_local].
      apply andb_true_iff in Ec2 as [Em E3].
      right. eexists. split; [apply (Handlers.cancel_calls cfg jobId up w)|].
      right. exists a, b, (c0 :: c'), jobId.
      split; [reflexivity|]. split; [exact E1|]. split; [discriminate|].
      split; [exact Ed|]. right.
      split; [apply String.eqb_eq, Em|]. split; [exact E3 | reflexivity].
Qed.

End Routes.

(* ===================================================================== *)
(** * The allow-list of origins *)
(* ===================================================================== *)

Module Origins.
Import JS Server JSFacts Startup.
Local Open Scope string_scope.
Local Open Scope list_scope.

Lemma split_nonempty sep s : split sep s <> [].
Proof.
  destruct s as [|c s]; cbn; [discriminate|].
  destruct (c =? sep)%N; [discriminate|]. destruct (split sep s); discriminate.
Qed.

Lemma split_plain sep x : ~ In sep x -> split sep x = [x].
Proof.
  induction x as [|c x IH]; intros H; cbn; [reflexivity|].
  destruct (N.eqb_spec c sep) as [->|Hne]; [exfalso; apply H; left; reflexivity|].
  rewrite IH; [reflexivity|]. intros Hin. apply H. right. exact Hin.
Qed.

Lemma split_piece sep x s :
  ~ In sep x -> split sep (x ++ sep :: s) = x :: split sep s.
Proof.
  induction x as [|c x IH]; intros H; cbn.
  - rewrite N.eqb_refl. reflexivity.
  - destruct (N.eqb_spec c sep) as [->|Hne]; [exfalso; apply H; left; reflexivity|].
    rewrite IH; [reflexivity|]. intros Hin. apply H. right. exact Hin.
Qed.

(** Splitting undoes joining, as long as no piece holds the separator. *)
Lemma split_join sep xs :
  xs <> [] -> Forall (fun x => ~ In sep x) xs -> split sep (join sep xs) = xs.
Proof.
  induction xs as [|x xs IH]; intros Hne Hall; [congruence|].
  inversion Hall as [|? ? Hx Hxs]; subst.
  destruct xs as [|y xs'].
  - cbn. apply split_plain, Hx.
  - change (join sep (x :: y :: xs')) with (x ++ sep :: join sep (y :: xs')).
    rewrite (split_piece sep x _ Hx), IH; [reflexivity | discriminate | exact Hxs].
Qed.

Lemma allows_iff cfg o :
  cors_allows cfg (Some o) = true <-> o = [] \/ In o (allowedOrigins cfg).
Proof.
  unfold cors_allows. destruct o as [|c o]; [tauto|].
  rewrite existsb_exists. split.
  - intros (x & Hin & Heq). apply str_eqb_eq in Heq. subst x. right. exact Hin.
  - intros [H | H]; [discriminate|]. exists (c :: o).
    split; [exact H | apply str_eqb_eq; reflexivity].
Qed.

(** X7.  The server starts exactly when both the API key and the
    endpoint id are set to something; otherwise it logs what is required
    and exits with code 1. When it starts with ALLOWED_ORIGINS set to
    entries joined by commas, the origins it lets in are exactly those
    entries with the white space around them removed, compared as
    written, together with a missing or empty Origin header, which is
    always let in; with ALLOWED_ORIGINS unset or empty only
    http://localhost:3000 is listed. *)
Theorem origins_are_the_trimmed_entries env :
  ((exists port cfg, main env = Listens port cfg) <->
   (exists k key i id, env "RUNPOD_API_KEY" = Some (k :: key) /\
                       env "RUNPOD_ENDPOINT_ID" = Some (i :: id))) /\
  (forall port cfg, main env = Listens port cfg ->
     cors_allows cfg None = true /\
     (forall xs,
        Forall (fun x => ~ In 44%N x) xs -> join 44 xs <> [] ->
        env "ALLOWED_ORIGINS" = Some (join 44 xs) ->
        allowedOrigins cfg = map trim xs /\
        forall o, cors_allows cfg (Some o) = true
                  <-> o = [] \/ In o (map trim xs)) /\
     (env "ALLOWED_ORIGINS" = None \/ env "ALLOWED_ORIGINS" = Some [] ->
      allowedOrigins cfg = [str "http://localhost:3000"])).
Proof.
  split.
  - unfold main. split.
    + intros (port & cfg & H).
      destruct (env "RUNPOD_API_KEY") as [[|k key]|]; try discriminate.
      destruct (env "RUNPOD_ENDPOINT_ID") as [[|i id]|]; try discriminate.
      eexists _, _, _, _. split; reflexivity.
    + intros (k & key & i & id & -> & ->). eexists _, _. reflexivity.
  - intros port cfg H. unfold main in H.
    destruct (env "RUNPOD_API_KEY") as [[|k key]|]; try discriminate.
    destruct (env "RUNPOD_ENDPOINT_ID") as [[|i id]|]; try discriminate.
    injection H as _ <-.
    split; [reflexivity|]. split.
    + intros xs Hall Hne Henv.
      assert (Hl : allowedOrigins
                     {| RUNPOD_API_KEY := k :: key; RUNPOD_ENDPOINT_ID := i :: id;
                        allowedOrigins :=
                          map trim (split 44 (env_or env "ALLOWED_ORIGINS"
                                                (str "http://localhost:3000"))) |}
                   = map trim xs).
      { cbn [allowedOrigins]. unfold env_or. rewrite Henv.
        destruct (join 44 xs) as [|c s] eqn:Ej; [congruence|].
        rewrite <- Ej, split_join; [reflexivity | | exact Hall].
        intros ->. discriminate Ej. }
      split; [exact Hl|]. intros o. rewrite allows_iff, Hl. reflexivity.
    + intros [Henv | Henv]; cbn [allowedOrigins]; unfold env_or; rewrite Henv;
        reflexivity.
Qed.

Lemma origins_are_the_trimmed_entries_witness :
  exists port cfg,
    main (configured (str "https://a.example, https://b.example")) = Listens port cfg /\
    allowedOrigins cfg = [str "https://a.example"; str "https://b.example"] /\
    cors_allows cfg (Some (str "https://b.example")) = true /\
    cors_allows cfg (Some (str " https://b.example")) = false.
Proof.
  destruct (origins_are_the_trimmed_entries
              (configured (str "https://a.example, https://b.example")))
    as [_ H].
  eexists _, _. split; [reflexivity|].
  destruct (H _ _ eq_refl) as (_ & Hx & _).
  destruct (Hx [str "https://a.example"; str " https://b.example"]) as [Hl Ho].
  - repeat constructor; vm_compute; intuition discriminate.
  - discriminate.
  - reflexivity.
  - split; [exact Hl|]. split; reflexivity.
Defined.

End Origins.

(* ===================================================================== *)
(** * Trimming *)
(* ===================================================================== *)

Module TrimFacts.
Import JS Reach.
Local Open Scope list_scope.

Lemma trim_start_tight s : tight (trim_start s).
Proof.
  induction s as [|c s IH]; cbn; [exact I|].
  destruct (is_ws c) eqn:E; [exact IH | exact E].
Qed.

Lemma trim_start_fix s : tight s -> trim_start s = s.
Proof. destruct s as [|c s]; cbn; [reflexivity|]. intros ->. reflexivity. Qed.

Lemma trim_start_suffix s :
  exists p, s = p ++ trim_start s /\ forallb is_ws p = true.
Proof.
  induction s as [|c s (p & Hs & Hp)]; cbn.
  - exists []. split; reflexivity.
  - destruct (is_ws c) eqn:E.
    + exists (c :: p). cbn. rewrite E, Hp. split; [f_equal; exact Hs | reflexivity].
    + exists []. split; reflexivity.
Qed.

Lemma trim_end_prefix s :
  exists q, s = trim_end s ++ q /\ forallb is_ws q = true.
Proof.
  unfold trim_end. destruct (trim_start_suffix (rev s)) as (p & Hs & Hp).
  exists (rev p). split.
  - rewrite <- rev_app_distr, <- Hs, rev_involutive. reflexivity.
  - rewrite forallb_forall in *. intros x Hx. apply Hp, in_rev, Hx.
Qed.

Lemma trim_end_fix s : tight (rev s) -> trim_end s = s.
Proof. intros H. unfold trim_end. rewrite (trim_start_fix _ H). apply rev_involutive. Qed.

Lemma trim_end_tight_rev s : tight (rev (trim_end s)).
Proof. unfold trim_end. rewrite rev_involutive. apply trim_start_tight. Qed.

Lemma trim_end_keeps_head s : tight s -> tight (trim_end s).
Proof.
  intros H. destruct (trim_end_prefix s) as (q & Hs & Hq).
  destruct (trim_end s) as [|c r] eqn:E; [exact I|].
  rewrite Hs in H. exact H.
Qed.

Lemma trim_tight s : tight (trim s) /\ tight (rev (trim s)).
Proof.
  unfold trim. split.
  - apply trim_end_keeps_head, trim_start_tight.
  - apply trim_end_tight_rev.
Qed.

Lemma trim_idem s : trim (trim s) = trim s.
Proof.
  destruct (trim_tight s) as [H1 H2].
  unfold trim at 1. rewrite (trim_start_fix _ H1). apply trim_end_fix, H2.
Qed.

End TrimFacts.


(* ===================================================================== *)
(** * The callbacks of the component, on every reply *)
(* ===================================================================== *)

Module Callbacks.
Import JS Eff Browser Client JSFacts ClientProps ClientFacts Reach.
Local Open Scope string_scope.
Local Open Scope list_scope.

Lemma poll_unprintable a jobId r e :
  to_string jobId = Throw e ->
  exec (poll jobId r) a
  = set_trace (trace a ++ [ConsoleError (str "Poll error:") e]) a.
Proof.
  intros Ht. destruct a as [ly tg du st er au it ld pr ivs nt urls sub tr].
  unfold poll, exec, try_catch. unfold bind at 1. unfold lift at 1.
  rewrite Ht. reflexivity.
Qed.

Lemma poll_unreadable a jobId r e :
  Props.printable jobId = true -> unreadable r = Some e ->
  exec (poll jobId r) a
  = set_trace (trace a ++ [Fetch "GET" (status_url jobId) None;
                           ConsoleError (str "Poll error:") e]) a.
Proof.
  intros Hj Hr. pose proof (Gateway.printable_text _ Hj) as Ht.
  destruct a as [ly tg du st er au it ld pr ivs nt urls sub tr].
  unfold poll, exec, try_catch. unfold bind at 1. unfold lift at 1.
  rewrite Ht. unfold status_url.
  destruct r as [m | ok [data | x]]; cbn in Hr.
  - injection Hr as <-. run_client. rewrite <- app_assoc. reflexivity.
  - destruct data; try discriminate; injection Hr as <-; run_client;
      cbn [get]; cbv beta iota; rewrite <- app_assoc; reflexivity.
  - injection Hr as <-. run_client. rewrite <- app_assoc. reflexivity.
Qed.

Lemma poll_primitive a jobId ok data :
  Props.printable jobId = true ->
  unreadable (Answer ok (Ok data)) = None ->
  exec (poll jobId (Answer ok (Ok data))) a
  = observe jobId (Props.fields_of data) a.
Proof.
  intros Hj Hr.
  destruct data as [ | | b | x | s | items | fields]; try discriminate.
  5: apply (poll_observes a jobId fields Hj).
  all: cbn [Props.fields_of]; rewrite <- (poll_observes a jobId [] Hj);
       pose proof (Gateway.printable_text _ Hj) as Ht;
       destruct a as [ly tg du st er au it ld pr ivs nt urls sub tr];
       unfold poll, exec, try_catch, data_reply;
       unfold bind at 1 3; unfold lift at 1 3; rewrite Ht; reflexivity.
Qed.

Lemma observe_cases a id jobId fields :
  polling a id jobId ->
  let a1 := setStatus (status_of fields) (asked jobId a) in
  let stopped := setLoading false (set_pollRef None (set_intervals [] a1)) in
  observe jobId fields a = a1 \/
  (exists msg, truthy msg = true /\ observe jobId fields a = setError msg stopped) \/
  (exists bytes,
      observe jobId fields a
      = setInferenceTime (field (assoc (str "output") fields) "inference_time_sec")
          (setAudioSrc (JStr (fresh_url a))
             (set_object_urls
                (object_urls a
                 ++ [(fresh_url a, {| data := bytes; type := str "audio/mpeg" |})])
                stopped))) \/
  (exists e,
      observe jobId fields a
      = set_trace (trace a1 ++ [ConsoleError (str "Poll error:") e]) stopped).
Proof.
  intros Hp a1 stopped.
  assert (Hs : exec stopPolling a1 = set_pollRef None (set_intervals [] a1))
    by (apply (stop_polling _ id jobId), polling_asked, Hp).
  unfold observe. fold a1. rewrite Hs.
  destruct (is_str (status_of fields) "COMPLETED"
            && truthy (assoc (str "output") fields)).
  - destruct (is_str (field (assoc (str "output") fields) "status") "success"
              && truthy (field (assoc (str "output") fields) "audio_base64")).
    + destruct (atob (field (assoc (str "output") fields) "audio_base64"))
        as [bytes | e] eqn:Ea.
      * rewrite (base64ToBlob_decodes _ _ _ Ea).
        right; right; left. exists bytes. destruct a; reflexivity.
      * rewrite (failed_decode _ _ _ Ea).
        right; right; right. exists e. destruct a; reflexivity.
    + right; left. eexists. split; [|reflexivity].
      apply or_else_truthy. reflexivity.
  - destruct (is_str (status_of fields) "FAILED").
    + right; left. eexists. split; [|reflexivity].
      apply or_else_truthy. reflexivity.
    + left. reflexivity.
Qed.

(** The outcomes of one run of the interval callback. *)
Lemma poll_cases a id jobId r :
  polling a id jobId ->
  let a1 := setStatus (status_of (Props.fields_of
                 match r with Answer _ (Ok d) => d | _ => JUndefined end))
              (asked jobId a) in
  let stopped := setLoading false (set_pollRef None (set_intervals [] a1)) in
  (exists e, exec (poll jobId r) a
             = set_trace (trace a ++ [ConsoleError (str "Poll error:") e]) a) \/
  (Props.printable jobId = true /\
   ((exists e, exec (poll jobId r) a
               = set_trace (trace a ++ [Fetch "GET" (status_url jobId) None;
                                        ConsoleError (str "Poll error:") e]) a) \/
    exec (poll jobId r) a = a1 \/
    (exists msg, truthy msg = true /\ exec (poll jobId r) a = setError msg stopped) \/
    (exists url bytes t,
        exec (poll jobId r) a
        = setInferenceTime t
            (setAudioSrc (JStr url)
               (set_object_urls
                  (object_urls a
                   ++ [(url, {| data := bytes; type := str "audio/mpeg" |})])
                  stopped))) \/
    (exists e, exec (poll jobId r) a
               = set_trace (trace a1 ++ [ConsoleError (str "Poll error:") e])
                   stopped))).
Proof.
  intros Hp a1 stopped.
  destruct (to_string jobId) as [text | e] eqn:Et;
    [|left; exists e; apply poll_unprintable, Et].
  assert (Hj : Props.printable jobId = true)
    by (unfold Props.printable; rewrite Et; reflexivity).
  right. split; [exact Hj|].
  destruct (unreadable r) as [e|] eqn:Er.
  - left. exists e. apply poll_unreadable; assumption.
  - right. destruct r as [m | ok [data | e]]; try discriminate.
    rewrite (poll_primitive a jobId ok data Hj Er).
    destruct (observe_cases a id jobId (Props.fields_of data) Hp)
      as [H | [(msg & Hm & H) | [(bytes & H) | (e & H)]]].
    + left. exact H.
    + right; left. exists msg. split; assumption.
    + right; right; left. eexists _, _, _. exact H.
    + right; right; right. exists e. exact H.
Qed.

(** The outcomes of a settled submission. *)
Lemma resume_cases a r :
  (exists m, exec (handleGenerate_resume r) a = refused m a) \/
  (exists st jobId, exec (handleGenerate_resume r) a = accepted_for st jobId a).
Proof.
  destruct a as [ly tg du st er au it ld pr ivs nt urls sub tr].
  unfold handleGenerate_resume, exec, try_catch, refused, accepted_for.
  destruct r as [m | ok json]; [left; eexists; reflexivity|].
  destruct ok; cbn [negb]; cbv iota.
  - destruct json as [data | e]; [|left; eexists; reflexivity].
    destruct data as [ | | b | x | s | items | fields];
      try (left; eexists; reflexivity);
      right; eexists _, _; reflexivity.
  - destruct json as [data | e]; [|left; eexists; reflexivity].
    left.
    destruct data as [ | | b | x | s | items | fields];
      try (eexists; reflexivity);
      Session.run_all; cbn [get]; cbv beta iota;
      match goal with
      | |- context [to_string ?v] => destruct (to_string v)
      end; cbv beta iota; eexists; reflexivity.
Qed.


(** ** What holds at every moment, continued *)

Lemma steady_initial : steady initial.
Proof.
  split; [apply Session.coherent_initial|].
  split; [split; [discriminate | intros [H|H]; [discriminate | exfalso; apply H; reflexivity]]|].
  split; [split; [discriminate | left; reflexivity]|].
  split; [cbn; tauto | constructor].
Qed.

Lemma polling_busy a id jobId :
  coherent a -> polling a id jobId ->
  loading a = true /\ submitting a = 0%nat.
Proof.
  intros (_ & Hs & Hl) [Hp _]. split.
  - destruct (loading a); [reflexivity|]. destruct (Hl eq_refl). congruence.
  - destruct Hs as [? | [_ ?]]; congruence.
Qed.

Ltac fields :=
  cbn [lyrics tags durationMs status error audioSrc inferenceTime loading
       pollRef intervals next_timer object_urls submitting trace] in *.

Ltac unfold_steady :=
  unfold engaged, exclusive; project.

Ltac absurd_or :=
  intros [H|H]; [discriminate | exfalso; apply H; reflexivity].

Lemma steady_poll a id jobId r :
  steady a -> polling a id jobId -> steady (exec (poll jobId r) a).
Proof.
  intros (Hc & He & Hx & Hd & Ht) Hp.
  split; [apply (Session.coherent_poll a id jobId r Hc); apply Hp|].
  destruct (polling_busy a id jobId Hc Hp) as [Hld Hsub].
  destruct Hx as [Hx1 Hx2]. destruct (Hx1 Hld) as [Hau Her]. clear Hx1 Hx2 Hc.
  destruct Hp as [Hpr Hiv].
  assert (Hstat : forall j, Props.printable j = true ->
                  Forall sendable (trace a ++ [Fetch "GET" (status_url j) None]))
    by (intros j Hj; apply Forall_app; split;
        [exact Ht | repeat constructor; exact Hj]).
  destruct (poll_cases a id jobId r (conj Hpr Hiv))
    as [(e & ->) | (Hj & [(e & ->) | [-> | [(msg & Hm & ->) | [(url & bytes & t & ->) | (e & ->)]]]])];
    try specialize (Hstat jobId Hj);
    destruct a as [ly tg du st er au it ld pr ivs nt urls sub tr];
    fields; subst; unfold_steady.
  - split; [exact He|]. split; [split; [tauto | left; reflexivity]|].
    split; [exact Hd|].
    apply Forall_app. split; [exact Ht | repeat constructor].
  - split; [exact He|]. split; [split; [tauto | left; reflexivity]|].
    split; [exact Hd|].
    apply Forall_app. split; [exact Ht | repeat constructor; exact Hj].
  - split; [exact He|]. split; [split; [tauto | left; reflexivity]|].
    split; [exact Hd | exact Hstat].
  - split; [split; [discriminate | absurd_or]|].
    split; [split; [discriminate | left; reflexivity]|].
    split; [exact Hd | exact Hstat].
  - split; [split; [discriminate | absurd_or]|].
    split; [|split; [exact Hd | exact Hstat]].
    split; [discriminate|]. right. split; [reflexivity|].
    exists url, bytes. split; [reflexivity|].
    apply in_or_app. right. left. reflexivity.
  - split; [split; [discriminate | absurd_or]|].
    split; [split; [discriminate | left; reflexivity]|].
    split; [exact Hd|].
    apply Forall_app. split; [exact Hstat | repeat constructor].
Qed.

Lemma steady_resume a r :
  steady a -> submitting a = 1%nat ->
  steady (exec (handleGenerate_resume r) (set_submitting 0 a)).
Proof.
  intros (Hc & He & Hx & Hd & Ht) Hsub.
  split; [apply Session.coherent_resume; assumption|].
  assert (Hld : loading a = true) by (apply He; left; exact Hsub).
  destruct Hx as [Hx1 _]. destruct (Hx1 Hld) as [Hau Her]. clear Hx1.
  destruct Hc as (Ho & Hs & _).
  assert (Hpr : pollRef a = None) by (destruct Hs as [? | [_ ?]]; congruence).
  clear Hs He. unfold owned in Ho. rewrite Hpr in Ho.
  destruct (resume_cases (set_submitting 0 a) r) as [(m & ->) | (st & jobId & ->)];
    destruct a as [ly tg du s0 er au it ld pr ivs nt urls sub tr];
    fields; subst; unfold refused, accepted_for; Session.run_all.
  - split; [split; [discriminate | absurd_or]|].
    split; [split; [discriminate | left; reflexivity]|].
    split; [exact Hd | exact Ht].
  - split; [split; [intros _; right; discriminate | reflexivity]|].
    split; [split; [split; reflexivity | left; reflexivity]|].
    split; [exact Hd | exact Ht].
Qed.

Lemma clicked_trimmed s : is_empty (trim s) = false -> trimmed (trim s).
Proof.
  intros H. split; [|apply TrimFacts.trim_idem].
  destruct (trim s); [discriminate H | discriminate].
Qed.

Lemma steady_click a : steady a -> steady (step Click a).
Proof.
  intros H. pose proof H as (Hc & He & Hx & Hd & Ht).
  split; [apply Session.coherent_click, Hc|].
  cbn [step]. destruct (disabled a) eqn:Ed; [tauto|].
  unfold disabled in Ed. rewrite !orb_false_iff in Ed.
  destruct Ed as [[Hld Hl] Htg].
  rewrite (Session.handleGenerate_runs a Hl Htg).
  assert (Hsend : sendable (submission a)).
  { apply send_generate; [apply clicked_trimmed, Hl | apply clicked_trimmed, Htg
                         | exact Hd]. }
  destruct Hc as (Ho & _ & Hload). destruct (Hload Hld) as [Hp Hsub].
  unfold owned in Ho. rewrite Hp in Ho.
  set (req := submission a) in *. clearbody req.
  destruct a as [ly tg du st er au it ld pr ivs nt urls sub tr].
  fields. subst. unfold reset. Session.run_all.
  split; [split; [intros _; left; reflexivity | reflexivity]|].
  split; [split; [split; reflexivity | left; reflexivity]|].
  split; [exact Hd|].
  apply Forall_app. split; [exact Ht | repeat constructor; exact Hsend].
Qed.

Lemma steady_step e a : steady a -> steady (step e a).
Proof.
  intros H. destruct e as [s | s | i | | r | id r].
  - cbn [step]. destruct (loading a) eqn:E; [exact H|]. destruct a; exact H.
  - cbn [step]. destruct (loading a) eqn:E; [exact H|]. destruct a; exact H.
  - cbn [step]. destruct (loading a) eqn:E; [exact H|].
    destruct (nth_error DURATION_OPTIONS i) as [d|] eqn:En; [|exact H].
    apply nth_error_In in En. destruct H as (Hc & He & Hx & _ & Ht).
    destruct a. repeat split; try apply Hc; try apply He; try apply Hx;
      assumption.
  - apply steady_click, H.
  - cbn [step]. destruct (submitting a) as [|n] eqn:E; [exact H|].
    assert (Hn : n = 0%nat).
    { destruct H as ((_ & [H0 | [H1 _]] & _) & _); congruence. }
    subst n. apply steady_resume; assumption.
  - cbn [step].
    destruct (find (fun iv => Pos.eqb (timer iv) id) (intervals a)) as [iv|] eqn:Ef;
      [|exact H].
    pose proof H as ((Ho & _) & _). unfold owned in Ho.
    destruct (pollRef a) as [id'|] eqn:Ep.
    + destruct Ho as [jobId Hi]. rewrite Hi in Ef. cbn [find timer poller] in Ef.
      destruct (Pos.eqb id' id); [|discriminate]. injection Ef as <-.
      cbn [job poller]. apply (steady_poll a id' jobId r H). split; assumption.
    + rewrite Ho in Ef. discriminate.
Qed.

Lemma steady_run es : forall a, steady a -> steady (run es a).
Proof.
  induction es as [|e es IH]; intros a H; [exact H|].
  cbn [run]. apply IH, steady_step, H.
Qed.


(** ** One run of the interval callback *)

(** X8.  A status request that fails in transport, whose body does not
    parse, or whose body is [null] is logged on the console and changes
    nothing else: the timer stays, the status, the error and the busy
    flag are what they were, and the next slot asks again. *)
Theorem poll_failure_is_transient a id jobId r e :
  polling a id jobId -> Props.printable jobId = true ->
  unreadable r = Some e ->
  step (Tick id r) a
  = set_trace (trace a ++ [Fetch "GET" (status_url jobId) None;
                           ConsoleError (str "Poll error:") e]) a /\
  polling (step (Tick id r) a) id jobId.
Proof.
  intros Hp Hj Hr. rewrite (tick_runs a id jobId r Hp).
  rewrite (poll_unreadable a jobId r e Hj Hr).
  split; [reflexivity|]. destruct a; exact Hp.
Qed.

Lemma poll_failure_is_transient_witness :
  step (Tick 1 (NoResponse (str "Failed to fetch"))) started
  = set_trace (trace started
               ++ [Fetch "GET" (status_url (JS "job-1")) None;
                   ConsoleError (str "Poll error:")
                     (Rejected (str "Failed to fetch"))]) started /\
  polling (step (Tick 1 (NoResponse (str "Failed to fetch"))) started)
    1 (JS "job-1").
Proof.
  apply (poll_failure_is_transient started 1 (JS "job-1")
           (NoResponse (str "Failed to fetch"))
           (Rejected (str "Failed to fetch")) started_polling eq_refl eq_refl).
Defined.

(** A body that reports neither COMPLETED with an output nor FAILED
    only replaces the status on display. *)
Lemma tick_carries_on a id jobId ok data :
  polling a id jobId -> Props.printable jobId = true ->
  unreadable (Answer ok (Ok data)) = None ->
  pending (Props.fields_of data) = true ->
  step (Tick id (Answer ok (Ok data))) a
  = setStatus (status_of (Props.fields_of data)) (asked jobId a).
Proof.
  intros Hp Hj Hr Hpend. rewrite (tick_runs a id jobId _ Hp).
  rewrite (poll_primitive a jobId ok data Hj Hr).
  apply (observe_pending jobId _ a Hpend).
Qed.

(** X9.  The callback never looks at [res.ok]. A body that is a JSON
    value but reports neither COMPLETED with an output nor FAILED,
    whatever the HTTP status it came with, only replaces the status on
    display by its [status] property ([undefined] when it has none, as
    in the error bodies of the gateway): no error is shown, the form
    stays busy and the poller goes on. *)
Theorem poll_ignores_http_status a id jobId ok data :
  polling a id jobId -> Props.printable jobId = true ->
  unreadable (Answer ok (Ok data)) = None ->
  pending (Props.fields_of data) = true ->
  step (Tick id (Answer ok (Ok data))) a
  = setStatus (status_of (Props.fields_of data)) (asked jobId a) /\
  step (Tick id (Answer ok (Ok data))) a
  = step (Tick id (Answer (negb ok) (Ok data))) a /\
  polling (step (Tick id (Answer ok (Ok data))) a) id jobId /\
  error (step (Tick id (Answer ok (Ok data))) a) = error a /\
  loading (step (Tick id (Answer ok (Ok data))) a) = loading a.
Proof.
  intros Hp Hj Hr Hpend.
  rewrite (tick_carries_on a id jobId ok data Hp Hj Hr Hpend).
  split; [reflexivity|].
  split; [symmetry; apply (tick_carries_on a id jobId (negb ok) data Hp Hj);
          [destruct data; (discriminate || reflexivity) | exact Hpend]|].
  destruct a. repeat split; apply Hp.
Qed.

Lemma poll_ignores_http_status_witness :
  status (step (Tick 1 (Answer false
                          (Ok (Server.obj
                                 [("error", JS "Failed to get job status")]))))
            started) = JUndefined /\
  polling (step (Tick 1 (Answer false
                           (Ok (Server.obj
                                  [("error", JS "Failed to get job status")]))))
             started) 1 (JS "job-1").
Proof.
  destruct (poll_ignores_http_status started 1 (JS "job-1") false
              (Server.obj [("error", JS "Failed to get job status")])
              started_polling eq_refl eq_refl eq_refl) as (H & _ & Hp & _).
  split; [rewrite H; reflexivity | exact Hp].
Defined.

(** X10.  A resolution that says FAILED stops the poller, ends the busy
    state and shows the error of the resolution, or "Job failed" when it
    has none; no audio resource is created. *)
Theorem failed_job_is_surfaced a id jobId fields :
  polling a id jobId -> Props.printable jobId = true ->
  status_of fields = JS "FAILED" ->
  step (Tick id (data_reply (JObj fields))) a
  = setError (or_else (assoc (str "error") fields) (JS "Job failed"))
      (setLoading false
         (set_pollRef None
            (set_intervals [] (setStatus (JS "FAILED") (asked jobId a))))) /\
  truthy (error (step (Tick id (data_reply (JObj fields))) a)) = true /\
  object_urls (step (Tick id (data_reply (JObj fields))) a) = object_urls a /\
  audioSrc (step (Tick id (data_reply (JObj fields))) a) = audioSrc a.
Proof.
  intros Hp Hj Hst.
  rewrite (tick_observes a id jobId fields Hp Hj).
  unfold observe. rewrite Hst. cbn [is_str andb].
  change (str_eqb (str "FAILED") (str "COMPLETED")) with false.
  change (str_eqb (str "FAILED") (str "FAILED")) with true. cbv iota.
  rewrite (stop_polling _ id jobId (polling_asked a id jobId _ Hp)).
  split; [reflexivity|]. destruct a. project.
  split; [apply or_else_truthy; reflexivity|]. split; reflexivity.
Qed.

Lemma failed_job_is_surfaced_witness :
  error (step (Tick 1 (data_reply (JObj
           (resolution "FAILED" [("error", JS "worker crashed")])))) started)
    = JS "worker crashed" /\
  error (step (Tick 1 (data_reply (JObj (resolution "FAILED" [])))) started)
    = JS "Job failed" /\
  intervals (step (Tick 1 (data_reply (JObj (resolution "FAILED" [])))) started)
    = [].
Proof.
  destruct (failed_job_is_surfaced started 1 (JS "job-1")
              (resolution "FAILED" [("error", JS "worker crashed")])
              started_polling eq_refl eq_refl) as (H1 & _).
  destruct (failed_job_is_surfaced started 1 (JS "job-1")
              (resolution "FAILED" [])
              started_polling eq_refl eq_refl) as (H2 & _).
  rewrite H1, H2. repeat split.
Defined.

(** X11.  A resolution that says COMPLETED with a successful output
    whose audio decodes stops the poller, ends the busy state, registers
    one new object URL for an audio/mpeg blob holding exactly the
    decoded bytes, puts that URL on display together with the inference
    time of the output, and leaves the error as it was. *)
Theorem success_shows_audio a id jobId fields bytes :
  polling a id jobId -> Props.printable jobId = true ->
  status_of fields = JS "COMPLETED" ->
  truthy (assoc (str "output") fields) = true ->
  is_str (field (assoc (str "output") fields) "status") "success" = true ->
  truthy (field (assoc (str "output") fields) "audio_base64") = true ->
  atob (field (assoc (str "output") fields) "audio_base64") = Ok bytes ->
  step (Tick id (data_reply (JObj fields))) a
  = setInferenceTime (field (assoc (str "output") fields) "inference_time_sec")
      (setAudioSrc (JStr (fresh_url a))
         (set_object_urls
            (object_urls a
             ++ [(fresh_url a, {| data := bytes; type := str "audio/mpeg" |})])
            (setLoading false
               (set_pollRef None
                  (set_intervals []
                     (setStatus (JS "COMPLETED") (asked jobId a))))))).
Proof.
  intros Hp Hj Hst Hout Hos Haudio Hatob.
  rewrite (tick_observes a id jobId fields Hp Hj).
  unfold observe.
  rewrite Hst, Hout, Hos, Haudio, (base64ToBlob_decodes _ _ _ Hatob).
  cbn [is_str andb].
  change (str_eqb (str "COMPLETED") (str "COMPLETED")) with true. cbv iota.
  rewrite (stop_polling _ id jobId (polling_asked a id jobId _ Hp)).
  destruct a. reflexivity.
Qed.

Lemma success_shows_audio_witness :
  audioSrc played = JS "blob:0" /\
  inferenceTime played = JUndefined /\
  object_urls played
  = [(str "blob:0", {| data := [0; 0; 0]%N; type := str "audio/mpeg" |})] /\
  loading played = false.
Proof.
  pose proof (success_shows_audio started 1 (JS "job-1")
                (resolution "COMPLETED"
                   [("output", Server.obj [("status", JS "success");
                                           ("audio_base64", JS "AAAA")])])
                [0; 0; 0]%N started_polling eq_refl eq_refl eq_refl eq_refl
                eq_refl eq_refl) as H.
  unfold played, feed. cbn [map run]. rewrite H. repeat split.
Defined.

(** ** The materializer *)

(** X12.  [base64ToBlob] gives back exactly what [atob] decoded: the
    loop copies every code unit into the array, none is changed by the
    modulo-256 store since each is a byte, the blob holds them in order
    under the media type it was asked for, and the function throws
    exactly when [atob] does, with the same exception. *)
Theorem base64ToBlob_copies_every_byte v t :
  base64ToBlob v t
  = match atob v with
    | Ok bytes => Ok {| data := bytes; type := blob_type t |}
    | Throw e => Throw e
    end /\
  (forall b, base64ToBlob v t = Ok b ->
     atob v = Ok (data b) /\ type b = blob_type t /\
     Forall (fun x => (x < 256)%N) (data b)).
Proof.
  assert (H : base64ToBlob v t
              = match atob v with
                | Ok bytes => Ok {| data := bytes; type := blob_type t |}
                | Throw e => Throw e
                end).
  { destruct (atob v) as [bytes | e] eqn:Ea.
    - apply base64ToBlob_decodes, Ea.
    - apply failed_decode, Ea. }
  split; [exact H|]. intros b Hb. rewrite H in Hb.
  destruct (atob v) as [bytes | e] eqn:Ea; [|discriminate].
  injection Hb as <-. cbn [data type].
  split; [reflexivity|]. split; [reflexivity|]. apply (atob_bytes v), Ea.
Qed.

Lemma base64ToBlob_copies_every_byte_witness :
  atob (JS "//79") = Ok [255; 254; 253]%N /\
  base64ToBlob (JS "//79") (str "Audio/MPEG")
  = Ok {| data := [255; 254; 253]%N; type := str "audio/mpeg" |}.
Proof.
  destruct (base64ToBlob_copies_every_byte (JS "//79") (str "Audio/MPEG"))
    as [H1 H2].
  destruct (H2 {| data := [255; 254; 253]%N; type := str "audio/mpeg" |} eq_refl)
    as (Ha & _).
  split; [exact Ha | exact H1].
Defined.

(** ** A settled submission *)

(** X13.  When the submission fails, the message shown is the one of the
    failure: the text of the rejection when no answer came, the [error]
    of the body when the answer was not a success and carried one,
    "Request failed" when it carried none, and the parser's message when
    the body could not be read. The busy state ends, the status is
    cleared and no poller is started. *)
Theorem submission_failure_is_shown a :
  (forall m, exec (handleGenerate_resume (NoResponse m)) a = refused m a) /\
  (forall fields msg,
      assoc (str "error") fields = JStr msg -> msg <> [] ->
      exec (handleGenerate_resume (Answer false (Ok (JObj fields)))) a
      = refused msg a) /\
  (forall fields,
      truthy (assoc (str "error") fields) = false ->
      exec (handleGenerate_resume (Answer false (Ok (JObj fields)))) a
      = refused (str "Request failed") a) /\
  (forall ok e,
      exec (handleGenerate_resume (Answer ok (Throw e))) a
      = refused (message_of e) a) /\
  (forall m, loading (refused m a) = false /\ error (refused m a) = JStr m /\
             status (refused m a) = JNull /\
             intervals (refused m a) = intervals a /\
             pollRef (refused m a) = pollRef a).
Proof.
  destruct a as [ly tg du st er au it ld pr ivs nt urls sub tr].
  split; [reflexivity|].
  split.
  { intros fields msg Hm Hne.
    unfold handleGenerate_resume, exec, try_catch, refused.
    Session.run_all. cbn [negb get]. cbv beta iota. rewrite Hm.
    destruct msg as [|c msg]; [congruence|]. reflexivity. }
  split.
  { intros fields Hm.
    unfold handleGenerate_resume, exec, try_catch, refused.
    Session.run_all. cbn [negb get]. cbv beta iota.
    unfold or_else. rewrite Hm. reflexivity. }
  split.
  { intros [|] e; reflexivity. }
  intros m. repeat split.
Qed.

Lemma submission_failure_is_shown_witness :
  exec (handleGenerate_resume
          (Answer false (Ok (Server.obj [("error", JS "tags is required")]))))
       clicked
  = refused (str "tags is required") clicked /\
  loading (refused (str "tags is required") clicked) = false.
Proof.
  destruct (submission_failure_is_shown clicked) as (_ & H & _ & _ & Hr).
  split.
  - apply (H (Props.fields_of (Server.obj [("error", JS "tags is required")]))
             (str "tags is required") eq_refl).
    discriminate.
  - apply (Hr (str "tags is required")).
Defined.

(** X14.  When the submission is answered with a success, the status
    shown is the one of the answer, or IN_QUEUE when it has none, and
    one poller is started for the [jobId] of the answer, at the fixed
    interval, whatever that [jobId] is: an answer without one starts a
    poller for [undefined], which asks for /api/status/undefined. *)
Theorem accepted_submission_starts_poller es fields :
  submitting (run es initial) = 1%nat ->
  let a := run es initial in
  let a' := step (Settled (Answer true (Ok (JObj fields)))) a in
  polling a' (next_timer a) (assoc (str "jobId") fields) /\
  period (poller (next_timer a) (assoc (str "jobId") fields)) = 3000%Z /\
  status a' = or_else (assoc (str "status") fields) (JS "IN_QUEUE") /\
  loading a' = true /\ error a' = JNull /\ audioSrc a' = JNull /\
  submitting a' = 0%nat /\
  status_url JUndefined = API_URL ++ str "/api/status/undefined".
Proof.
  intros Hsub a a'.
  pose proof (steady_run es initial steady_initial) as (Hc & He & Hx & _).
  fold a in Hc, He, Hx, Hsub.
  assert (Hld : loading a = true) by (apply He; left; exact Hsub).
  destruct Hx as [Hx _]. destruct (Hx Hld) as [Hau Her].
  destruct Hc as (Ho & Hs & _).
  assert (Hpr : pollRef a = None) by (destruct Hs as [? | [_ ?]]; congruence).
  unfold owned in Ho. rewrite Hpr in Ho.
  unfold a'. cbn [step]. rewrite Hsub. clearbody a. clear a'.
  destruct a as [ly tg du st er au it ld pr ivs nt urls sub tr].
  fields. subst. repeat split.
Qed.

Lemma accepted_submission_starts_poller_witness :
  polling (step (Settled (Answer true (Ok (JObj [])))) clicked) 1 JUndefined /\
  status (step (Settled (Answer true (Ok (JObj [])))) clicked) = JS "IN_QUEUE".
Proof.
  destruct (accepted_submission_starts_poller
              [TypeLyrics (str "la la"); TypeTags (str "pop"); Click] []
              eq_refl) as (H1 & _ & H2 & _).
  split; [exact H1 | exact H2].
Defined.

End Callbacks.

(* ===================================================================== *)
(** * Every state the component can reach *)
(* ===================================================================== *)

Module Reachable.
Import JS Eff Browser Client JSFacts ClientProps ClientFacts Reach Callbacks.
Local Open Scope string_scope.
Local Open Scope list_scope.

(** X15.  The form is busy exactly while a submission is in flight or a
    poller is running; there is never more than one submission in
    flight, never more than one timer, and never a timer during a
    submission or while the form is idle. *)
Theorem busy_exactly_while_pending es :
  let a := run es initial in
  (loading a = true <-> (submitting a = 1%nat \/ pollRef a <> None)) /\
  (submitting a <= 1)%nat /\ (List.length (intervals a) <= 1)%nat /\
  (submitting a = 1%nat -> intervals a = []) /\
  (loading a = false -> intervals a = []).
Proof.
  intros a. destruct (steady_run es initial steady_initial)
    as ((Ho & Hs & Hl) & He & _). fold a in Ho, Hs, Hl, He.
  assert (Hnone : pollRef a = None -> intervals a = [])
    by (intros H; unfold owned in Ho; rewrite H in Ho; exact Ho).
  split; [exact He|].
  split; [destruct Hs as [-> | [-> _]]; lia|].
  split.
  { unfold owned in Ho. destruct (pollRef a).
    - destruct Ho as [j ->]. cbn. lia.
    - rewrite Ho. cbn. lia. }
  split.
  - intros H1. apply Hnone. destruct Hs as [? | [_ ?]]; congruence.
  - intros H. apply Hnone, Hl, H.
Qed.

(** X16.  At most one of "busy", "result" and "error" is on display:
    while the form is busy neither audio nor error is shown; and when
    audio is shown no error is, and the audio is an object URL that is
    still registered, for a blob of type audio/mpeg. *)
Theorem one_display_at_a_time es :
  let a := run es initial in
  (loading a = true -> audioSrc a = JNull /\ error a = JNull) /\
  (truthy (audioSrc a) = true ->
   error a = JNull /\
   exists url bytes,
     audioSrc a = JStr url /\
     In (url, {| data := bytes; type := str "audio/mpeg" |}) (object_urls a)).
Proof.
  intros a. destruct (steady_run es initial steady_initial)
    as (_ & _ & [H1 H2] & _). fold a in H1, H2.
  split; [exact H1|].
  intros Ht. destruct H2 as [H | H]; [|exact H].
  rewrite H in Ht. discriminate.
Qed.

(** X17.  Every call the component ever makes is a submission with
    trimmed, non-empty lyrics and tags and one of the five offered
    durations, a status request, or a line on the console; and the
    duration on the form is always one of the five. *)
Theorem only_well_formed_requests es :
  Forall sendable (trace (run es initial)) /\
  In (durationMs (run es initial)) DURATION_OPTIONS.
Proof.
  destruct (steady_run es initial steady_initial) as (_ & _ & _ & Hd & Ht).
  split; assumption.
Qed.

Lemma urls_step e a :
  steady a -> exists more, object_urls (step e a) = object_urls a ++ more.
Proof.
  intros H. pose proof H as (Hc & _).
  assert (Hsame : forall b, object_urls b = object_urls a ->
                  exists more, object_urls b = object_urls a ++ more)
    by (intros b ->; exists []; symmetry; apply app_nil_r).
  destruct e as [s | s | i | | r | id r]; cbn [step].
  - apply Hsame. destruct (loading a); [reflexivity|]. destruct a; reflexivity.
  - apply Hsame. destruct (loading a); [reflexivity|]. destruct a; reflexivity.
  - apply Hsame. destruct (loading a); [reflexivity|].
    destruct (nth_error DURATION_OPTIONS i); [|reflexivity].
    destruct a; reflexivity.
  - apply Hsame. destruct (disabled a) eqn:Ed; [reflexivity|].
    unfold disabled in Ed. rewrite !orb_false_iff in Ed.
    destruct Ed as [[_ Hl] Ht].
    rewrite (Session.handleGenerate_runs a Hl Ht).
    destruct Hc as (Ho & _).
    destruct (Session.reset_clears a Ho) as (_ & _ & _ & _ & _ & _ & Hu).
    rewrite <- Hu. destruct (reset a); reflexivity.
  - apply Hsame. destruct (submitting a) as [|n]; [reflexivity|].
    destruct (resume_cases (set_submitting n a) r) as [(m & ->) | (st & j & ->)];
      destruct a; reflexivity.
  - destruct (find (fun iv => Pos.eqb (timer iv) id) (intervals a)) as [iv|] eqn:Ef;
      [|apply Hsame; reflexivity].
    destruct Hc as (Ho & _). unfold owned in Ho.
    destruct (pollRef a) as [id'|] eqn:Ep; [|rewrite Ho in Ef; discriminate].
    destruct Ho as [jobId Hi]. rewrite Hi in Ef. cbn [find timer poller] in Ef.
    destruct (Pos.eqb id' id); [|discriminate]. injection Ef as <-.
    cbn [job poller].
    destruct (poll_cases a id' jobId r (conj Ep Hi))
      as [(e & ->) | (Hj & [(e & ->) | [-> | [(msg & Hm & ->) | [(url & bytes & t & ->) | (e & ->)]]]])];
      try (apply Hsame; destruct a; reflexivity).
    eexists. destruct a; reflexivity.
Qed.

(** X18.  An object URL, once created, stays registered for the rest of
    the session: no event ever removes one, whatever happens afterwards. *)
Theorem object_urls_are_never_revoked es later :
  exists more,
    object_urls (run later (run es initial))
    = object_urls (run es initial) ++ more.
Proof.
  pose proof (steady_run es initial steady_initial) as H.
  revert H. generalize (run es initial) as a.
  induction later as [|e later IH]; intros a H; cbn [run].
  - exists []. symmetry. apply app_nil_r.
  - destruct (urls_step e a H) as [m1 H1].
    destruct (IH (step e a) (steady_step e a H)) as [m2 H2].
    exists (m1 ++ m2). rewrite H2, H1. symmetry. apply app_assoc.
Qed.

End Reachable.

(* ===================================================================== *)
(** * The client and the gateway together *)
(* ===================================================================== *)

Module EndToEnd.
Import JS Eff JSFacts Props ClientProps ClientFacts Reach Wire.
Local Open Scope string_scope.
Local Open Scope list_scope.

Lemma wire_obj l : wire (JObj l) = JObj (wire_fields l).
Proof. reflexivity. Qed.

Lemma offered_durations d :
  In d Client.DURATION_OPTIONS ->
  json_number d = JNum d /\
  Math_min (or_num (parseInt_str (number_to_string d)) (of_Z 120000))
           (of_Z 240000) = d.
Proof.
  cbn [Client.DURATION_OPTIONS map In].
  intros [<- | [<- | [<- | [<- | [<- | []]]]]]; split; vm_compute; reflexivity.
Qed.

(** X19.  Every submission the component can make passes the checks of
    the gateway and is forwarded to the provider as it was made: the
    same lyrics and tags (trimming them again changes nothing), the same
    duration (the cap is never hit), and the three defaults for the
    fields the form does not have. *)
Theorem gateway_takes_every_submission cfg up w l t d :
  trimmed l -> trimmed t -> In d Client.DURATION_OPTIONS ->
  calls (fst (Server.generate cfg (received (generate_request l t d)) up w))
  = calls w ++
    [Server.Outbound "POST" (Server.RUNPOD_BASE cfg ++ str "/run")
       (Some (Server.obj
          [("input",
            Server.obj [("lyrics", JStr l); ("tags", JStr t);
                        ("duration_ms", JNum d);
                        ("temperature", JNum (mk_fin false 1 0));
                        ("topk", JNum (of_Z 50));
                        ("cfg_scale", JNum (mk_fin false 15 (-1)))])]))].
Proof.
  intros [Hl1 Hl2] [Ht1 Ht2] Hd.
  destruct (offered_durations d Hd) as [Hj Hm].
  unfold received, generate_request, Server.obj. rewrite wire_obj.
  cbn [map fst snd wire_fields wire]. rewrite Hj.
  set (fields := [(str "lyrics", JStr l); (str "tags", JStr t);
                  (str "duration_ms", JNum d)]).
  assert (Hacc : accepted fields = true).
  { unfold accepted, fields.
    change (assoc (str "lyrics") _) with (JStr l).
    change (assoc (str "tags") _) with (JStr t).
    change (assoc (str "duration_ms") _) with (JNum d).
    change (assoc (str "temperature") _) with JUndefined.
    change (assoc (str "topk") _) with JUndefined.
    change (assoc (str "cfg_scale") _) with JUndefined.
    cbn [textb blankb printable to_string andb negb]. rewrite Hl2, Ht2.
    destruct l; [congruence|]. destruct t; [congruence|]. reflexivity. }
  destruct (Gateway.generate_submits cfg fields up w Hacc)
    as (l' & t' & El & Et & ->).
  unfold fields in El, Et.
  change (assoc (str "lyrics") _) with (JStr l) in El.
  change (assoc (str "tags") _) with (JStr t) in Et.
  injection El as <-. injection Et as <-. rewrite Hl2, Ht2.
  unfold fields.
  change (assoc (str "duration_ms") _) with (JNum d).
  change (assoc (str "temperature") _) with JUndefined.
  change (assoc (str "topk") _) with JUndefined.
  change (assoc (str "cfg_scale") _) with JUndefined.
  rewrite Gateway.text_of_number, Hm.
  reflexivity.
Qed.

Lemma gateway_takes_every_submission_witness :
  calls (fst (Server.generate sample
                (received (generate_request (str "la la") (str "pop")
                             (of_Z 240000)))
                (Server.Unreachable []) idle))
  = [Server.Outbound "POST" (str "https://api.runpod.ai/v2/ep/run")
       (Some (Server.obj
          [("input",
            Server.obj [("lyrics", JS "la la"); ("tags", JS "pop");
                        ("duration_ms", JNum (of_Z 240000));
                        ("temperature", JNum (mk_fin false 1 0));
                        ("topk", JNum (of_Z 50));
                        ("cfg_scale", JNum (mk_fin false 15 (-1)))])]))].
Proof.
  apply (gateway_takes_every_submission sample (Server.Unreachable []) idle
           (str "la la") (str "pop") (of_Z 240000)).
  - split; [discriminate | reflexivity].
  - split; [discriminate | reflexivity].
  - cbn. tauto.
Defined.

(** X20.  Whatever makes the gateway refuse or fail a submission, the
    user is told: an answer of POST /api/generate other than 200 is one
    of the four fixed errors, and the component that receives it shows
    exactly that message, ends the busy state, clears the status and
    starts no poller. *)
Theorem gateway_refusal_reaches_user cfg body up w w' resp a :
  Server.generate cfg body up w = (w', Ok resp) ->
  Server.code resp <> 200%Z ->
  exists c m,
    In (c, m) generate_errors /\ Server.code resp = c /\
    Client.exec (Client.handleGenerate_resume (answer_of resp)) a
    = refused (str m) a.
Proof.
  intros Hrun Hcode.
  destruct (Handlers.generate_outcome cfg body up w) as (resp' & Hrun' & _ & Hres & _).
  rewrite Hrun in Hrun'. cbn [snd] in Hrun'. injection Hrun' as <-.
  destruct Hres as [H | H]; [congruence|].
  cbn [map generate_errors In] in H.
  destruct H as [<- | [<- | [<- | [<- | []]]]];
    eexists _, _; (split; [|split; [reflexivity|]]);
    [ left; reflexivity | destruct a; reflexivity
    | right; left; reflexivity | destruct a; reflexivity
    | right; right; left; reflexivity | destruct a; reflexivity
    | right; right; right; left; reflexivity | destruct a; reflexivity ].
Qed.

Lemma gateway_refusal_reaches_user_witness :
  exists c m,
    In (c, m) generate_errors /\ c = 400%Z /\
    Client.exec
      (Client.handleGenerate_resume
         (answer_of (bad_request "tags is required"))) clicked
    = refused (str m) clicked.
Proof.
  destruct (gateway_refusal_reaches_user sample
              (JObj [(str "lyrics", JS "la la"); (str "tags", JS "  ")])
              (Server.Unreachable []) idle idle
              (bad_request "tags is required") clicked eq_refl)
    as (c & m & Hin & Hc & H); [discriminate|].
  exists c, m. split; [exact Hin|]. split; [symmetry; exact Hc | exact H].
Defined.

(** X21.  A provider outage is silent on the client: when the status
    query of the gateway fails in transport or comes back outside
    200..299, the poller that receives the gateway's error answer shows
    no error, keeps the form busy, keeps its timer, and only has
    [undefined] as the status on display. *)
Theorem outage_is_silent cfg job up w w' resp a id jobId :
  upstream_failed up ->
  Server.status cfg job up w = (w', Ok resp) ->
  polling a id jobId -> printable jobId = true ->
  Client.step (Client.Tick id (answer_of resp)) a
  = Client.setStatus JUndefined (asked jobId a) /\
  polling (Client.step (Client.Tick id (answer_of resp)) a) id jobId /\
  Client.error (Client.step (Client.Tick id (answer_of resp)) a)
  = Client.error a.
Proof.
  intros Hup Hrun Hp Hj.
  assert (Hresp : resp = error_response (500%Z, "Internal server error") \/
                  resp = error_response (502%Z, "Failed to get job status")).
  { destruct up as [m | c text json]; cbn in Hup.
    - injection Hrun as _ <-. left. reflexivity.
    - unfold Server.status, try_catch, bind, Server.fetch, Server.emit,
        modify, ret, lift in Hrun. cbn in Hrun. rewrite Hup in Hrun.
      cbn in Hrun. destruct text; cbn in Hrun; injection Hrun as _ <-;
        [right | left]; reflexivity. }
  assert (Hgo : forall m,
            Client.step
              (Client.Tick id
                 (Client.Answer false (Ok (Server.obj [("error", JS m)])))) a
            = Client.setStatus JUndefined (asked jobId a))
    by (intros m; apply (Callbacks.tick_carries_on a id jobId false
                           (Server.obj [("error", JS m)]) Hp Hj);
        reflexivity).
  assert (Hfin : forall m,
            Client.step (Client.Tick id
                           (answer_of (error_response (Server.code resp, m)))) a
            = Client.setStatus JUndefined (asked jobId a) ->
            resp = error_response (Server.code resp, m) ->
            Client.step (Client.Tick id (answer_of resp)) a
            = Client.setStatus JUndefined (asked jobId a) /\
            polling (Client.step (Client.Tick id (answer_of resp)) a) id jobId /\
            Client.error (Client.step (Client.Tick id (answer_of resp)) a)
            = Client.error a).
  { intros m H Hr. rewrite <- Hr in H. rewrite H.
    split; [reflexivity|]. destruct a. split; [exact Hp | reflexivity]. }
  destruct Hresp as [-> | ->].
  - apply (Hfin "Internal server error"); [|reflexivity].
    exact (Hgo "Internal server error").
  - apply (Hfin "Failed to get job status"); [|reflexivity].
    exact (Hgo "Failed to get job status").
Qed.

Lemma outage_is_silent_witness :
  Client.status
    (Client.step
       (Client.Tick 1
          (answer_of (error_response (502%Z, "Failed to get job status"))))
       started) = JUndefined /\
  Client.error
    (Client.step
       (Client.Tick 1
          (answer_of (error_response (502%Z, "Failed to get job status"))))
       started) = JNull.
Proof.
  destruct (outage_is_silent sample (str "job-1")
              (Server.Responds 503 (Ok (str "busy")) (Throw TypeError))
              idle _ _ started 1 (JS "job-1")
              eq_refl eq_refl started_polling eq_refl) as (H1 & _ & H3).
  split; [exact (eq_trans (f_equal Client.status H1) eq_refl)
         | exact (eq_trans H3 eq_refl)].
Defined.

Lemma wire_fields_length l : (List.length (wire_fields l) <= List.length l)%nat.
Proof.
  induction l as [|[k x] l IH]; [apply le_n|].
  destruct x; cbn [wire_fields List.length]; lia.
Qed.

(** In a body that the wire leaves as it is, every property reads the
    same before and after. *)
Lemma clean_assoc k l : wire_fields l = l -> wire (assoc k l) = assoc k l.
Proof.
  induction l as [|[k' x] l IH]; intros H; [reflexivity|].
  assert (Hx : wire x = x /\ wire_fields l = l).
  { destruct x; cbn [wire_fields] in H; try (split; congruence).
    exfalso. pose proof (wire_fields_length l) as Hlen.
    rewrite H in Hlen. cbn [List.length] in Hlen. lia. }
  destruct Hx as [Hx Hl]. cbn [assoc].
  destruct (str_eqb k k'); [exact Hx | apply IH, Hl].
Qed.

Lemma assoc_absent k l : ~ In k (map fst l) -> assoc k l = JUndefined.
Proof.
  induction l as [|[k' x] l IH]; intros H; [reflexivity|]. cbn [assoc].
  destruct (str_eqb k k') eqn:E.
  - apply str_eqb_eq in E. subst k'. exfalso. apply H. left. reflexivity.
  - apply IH. intros Hin. apply H. right. exact Hin.
Qed.

(** Reading a property after the wire is reading it before, for an
    object whose keys are distinct and whose values the wire leaves
    alone: a property that was [undefined] is left out, and reads as
    [undefined] again. *)
Lemma assoc_wire_fields k l :
  NoDup (map fst l) -> Forall (fun kv => wire (snd kv) = snd kv) l ->
  assoc k (wire_fields l) = assoc k l.
Proof.
  induction l as [|[k' x] l IH]; intros Hnd Hall; [reflexivity|].
  inversion Hnd as [|? ? Hk Hnd']; subst.
  inversion Hall as [|? ? Hx Hall']; subst. cbn [snd] in Hx.
  specialize (IH Hnd' Hall').
  assert (Hstep : wire_fields ((k', x) :: l)
                  = match x with
                    | JUndefined => wire_fields l
                    | _ => (k', x) :: wire_fields l
                    end)
    by (destruct x; cbn [wire_fields]; rewrite ?Hx; reflexivity).
  rewrite Hstep. cbn [assoc].
  destruct x; cbn [assoc]; try (rewrite IH; reflexivity).
  destruct (str_eqb k k') eqn:E; [|exact IH].
  apply str_eqb_eq in E. subst k'. rewrite IH. apply assoc_absent, Hk.
Qed.

Lemma observe_ext j f g a :
  status_of f = status_of g ->
  (is_str (status_of g) "COMPLETED" = true ->
   truthy (assoc (str "output") f) = truthy (assoc (str "output") g) /\
   (truthy (assoc (str "output") g) = true ->
    assoc (str "output") f = assoc (str "output") g)) ->
  (is_str (status_of g) "FAILED" = true ->
   or_else (assoc (str "error") f) (JS "Job failed")
   = or_else (assoc (str "error") g) (JS "Job failed")) ->
  observe j f a = observe j g a.
Proof.
  intros Hs Hc Hf. unfold observe. rewrite Hs.
  destruct (is_str (status_of g) "COMPLETED") eqn:Ec.
  - destruct (Hc eq_refl) as [Ht Ho]. rewrite Ht.
    destruct (truthy (assoc (str "output") g)) eqn:Eo.
    + rewrite (Ho eq_refl). reflexivity.
    + cbn [andb].
      assert (Ef : is_str (status_of g) "FAILED" = false)
        by (apply is_str_exclusive with (s := "COMPLETED");
            [discriminate | exact Ec]).
      rewrite Ef. reflexivity.
  - cbn [andb]. destruct (is_str (status_of g) "FAILED") eqn:Ef; [|reflexivity].
    rewrite (Hf eq_refl). reflexivity.
Qed.


Ltac keys :=
  repeat match goal with
         | |- context [str_eqb (str ?a) (str ?b)] =>
             let v := eval vm_compute in (str_eqb (str a) (str b)) in
             change (str_eqb (str a) (str b)) with v
         end;
  cbv iota.

Ltac keys_in H :=
  repeat match type of H with
         | context [str_eqb (str ?a) (str ?b)] =>
             let v := eval vm_compute in (str_eqb (str a) (str b)) in
             change (str_eqb (str a) (str b)) with v in H
         end;
  cbv iota in H.

Ltac clean_values :=
  repeat (apply Forall_cons; [cbn [snd]; assumption|]); apply Forall_nil.

Ltac reads := cbn [assoc]; keys.

Lemma clean_or_else a b : wire a = a -> wire b = b -> wire (or_else a b) = or_else a b.
Proof. unfold or_else. destruct (truthy a); auto. Qed.

Lemma or_else_idem a b : or_else (or_else a b) b = or_else a b.
Proof.
  unfold or_else. destruct (truthy a) eqn:Ea; [rewrite Ea; reflexivity|].
  destruct (truthy b); reflexivity.
Qed.

(** X22.  The gateway is transparent to the poller: for a provider
    answer in 200..299 that is a JSON object, the component reacts to
    the gateway's answer exactly as it would react to the provider's own
    body. The status, the output under COMPLETED and the error under
    FAILED all come through; what the gateway leaves out (an output
    under another status, a falsy output, an error under another status,
    any other property) the callback does not read. *)
Theorem gateway_is_transparent cfg job c text data w w' resp a id jobId :
  Server.ok c = true -> wire (JObj data) = JObj data ->
  Server.status cfg job (Server.Responds c text (Ok (JObj data))) w
  = (w', Ok resp) ->
  polling a id jobId -> printable jobId = true ->
  Client.step (Client.Tick id (answer_of resp)) a
  = Client.step (Client.Tick id (data_reply (JObj data))) a.
Proof.
  intros Hok Hclean Hrun Hp Hj.
  assert (Hc : wire_fields data = data) by (injection Hclean as H; exact H).
  pose proof (clean_assoc (str "id") data Hc) as Cid.
  pose proof (clean_assoc (str "status") data Hc) as Cst.
  pose proof (clean_assoc (str "output") data Hc) as Cout.
  pose proof (clean_assoc (str "error") data Hc) as Cerr.
  assert (Cerr' : wire (or_else (assoc (str "error") data) (JS "Job failed"))
                  = or_else (assoc (str "error") data) (JS "Job failed"))
    by (apply clean_or_else; [exact Cerr | reflexivity]).
  cbv beta iota zeta delta
    [Server.status try_catch bind Server.fetch Server.emit modify ret lift
     Server.reply fst snd] in Hrun.
  rewrite Hok in Hrun. cbn [negb get] in Hrun. cbv beta iota in Hrun.
  set (idv := assoc (str "id") data) in *.
  set (st := assoc (str "status") data) in *.
  set (out := assoc (str "output") data) in *.
  set (err := or_else (assoc (str "error") data) (JS "Job failed")) in *.
  assert (Hfin : forall result,
            resp = {| Server.code := 200; Server.payload := JObj result |} ->
            (forall k, assoc k (wire_fields result) = assoc k result) ->
            status_of result = st ->
            (is_str st "COMPLETED" = true ->
             truthy (assoc (str "output") result) = truthy out /\
             (truthy out = true -> assoc (str "output") result = out)) ->
            (is_str st "FAILED" = true ->
             or_else (assoc (str "error") result) (JS "Job failed") = err) ->
            Client.step (Client.Tick id (answer_of resp)) a
            = Client.step (Client.Tick id (data_reply (JObj data))) a).
  { intros result -> Hw H1 H2 H3.
    rewrite (tick_observes a id jobId data Hp Hj).
    change (answer_of _) with (data_reply (JObj (wire_fields result))).
    rewrite (tick_observes a id jobId (wire_fields result) Hp Hj).
    apply observe_ext; unfold status_of in *; rewrite !Hw; fold st out.
    - exact H1.
    - exact H2.
    - intros H. exact (H3 H). }
  assert (Hw : forall result,
            NoDup (map fst result) ->
            Forall (fun kv => wire (snd kv) = snd kv) result ->
            forall k, assoc k (wire_fields result) = assoc k result)
    by (intros result H1 H2 k; apply assoc_wire_fields; assumption).
  assert (Hkeys : forall x y z : value,
            NoDup (map fst [(str "jobId", x); (str "status", y)]) /\
            NoDup (map fst [(str "jobId", x); (str "status", y);
                            (str "output", z)]) /\
            NoDup (map fst [(str "jobId", x); (str "status", y);
                            (str "error", z)]))
    by (intros x y z; repeat split; cbn [map fst];
        repeat (apply NoDup_cons; [vm_compute; intuition discriminate|]);
        apply NoDup_nil).
  destruct (is_str st "COMPLETED") eqn:Ec.
  - assert (Ef : is_str st "FAILED" = false)
      by (apply is_str_exclusive with (s := "COMPLETED");
          [discriminate | exact Ec]).
    rewrite Ef in Hrun. cbv beta iota in Hrun.
    destruct (truthy out) eqn:Eo; cbn [andb set_field] in Hrun;
      keys_in Hrun; injection Hrun as _ Hresp; symmetry in Hresp;
      apply (Hfin _ Hresp); clear Hfin;
      [ apply Hw; [apply (Hkeys idv st out) | clean_values]
      | unfold status_of; reads; reflexivity
      | intros _; reads; split; [assumption | reflexivity]
      | intros H; congruence
      | apply Hw; [apply (Hkeys idv st out) | clean_values]
      | unfold status_of; reads; reflexivity
      | intros _; reads; split; [reflexivity | discriminate]
      | intros H; congruence ].
  - cbv beta iota in Hrun. cbn [andb] in Hrun.
    destruct (is_str st "FAILED") eqn:Ef; cbn [set_field] in Hrun;
      keys_in Hrun; injection Hrun as _ Hresp; symmetry in Hresp;
      apply (Hfin _ Hresp); clear Hfin.
    + apply Hw; [apply (Hkeys idv st err) | clean_values].
    + unfold status_of; reads; reflexivity.
    + intros H; congruence.
    + intros _. reads. apply or_else_idem.
    + apply Hw; [apply (Hkeys idv st out) | clean_values].
    + unfold status_of; reads; reflexivity.
    + intros H; congruence.
    + intros H; congruence.
Qed.

Lemma gateway_is_transparent_witness :
  Client.error
    (Client.step
       (Client.Tick 1
          (answer_of
             {| Server.code := 200;
                Server.payload :=
                  Server.obj [("jobId", JS "job-1"); ("status", JS "FAILED");
                              ("error", JS "Job failed")] |}))
       started) = JS "Job failed".
Proof.
  pose proof (gateway_is_transparent sample (str "job-1") 200 (Ok [])
                [(str "id", JS "job-1"); (str "status", JS "FAILED")]
                idle _ _ started 1 (JS "job-1")
                eq_refl eq_refl eq_refl started_polling eq_refl) as H.
  exact (eq_trans (f_equal Client.error H) eq_refl).
Defined.

End EndToEnd.

(* ===================================================================== *)
(** * Stopping a process of the local stack *)
(* ===================================================================== *)

Module StackFacts.
Import Stack.
Local Open Scope string_scope.
Local Open Scope list_scope.

Lemma wait_spec pid alive : forall rounds n,
  pid <> "" ->
  let '(acts, n') := wait rounds pid alive n in
  Forall (fun a => a = Sleep) acts /\
  (List.length acts <= rounds)%nat /\
  (n <= n' <= n + rounds)%nat /\
  ((List.length acts = rounds /\ n' = (n + rounds)%nat /\
    forall i, (n <= i < n + rounds)%nat -> alive i = true) \/
   (List.length acts < rounds /\ n' = (n + List.length acts + 1)%nat /\
    alive (n + List.length acts)%nat = false /\
    forall i, (n <= i < n + List.length acts)%nat -> alive i = true)).
Proof.
  induction rounds as [|r IH]; intros n Hpid; cbn [wait].
  - split; [constructor|]. split; [apply le_n|]. split; [lia|].
    left. split; [reflexivity|]. split; [lia|]. intros i Hi. lia.
  - unfold is_running. destruct (String.eqb_spec pid ""); [congruence|].
    destruct (alive n) eqn:Ea; cbn [negb].
    + specialize (IH (S n) Hpid). destruct (wait r pid alive (S n)) as [acts n'].
      destruct IH as (Hs & Hlen & Hn & Hcase). cbn [List.length].
      split; [constructor; [reflexivity | exact Hs]|].
      split; [lia|]. split; [lia|].
      destruct Hcase as [(H1 & H2 & H3) | (H1 & H2 & H3 & H4)].
      * left. split; [lia|]. split; [lia|]. intros i Hi.
        destruct (Nat.eq_dec i n) as [->|Hne]; [exact Ea | apply H3; lia].
      * right. split; [lia|]. split; [lia|]. split.
        -- replace (n + S (List.length acts))%nat with (S n + List.length acts)%nat
             by lia. exact H3.
        -- intros i Hi.
           destruct (Nat.eq_dec i n) as [->|Hne]; [exact Ea | apply H4; lia].
    + cbn [List.length]. split; [constructor|]. split; [lia|]. split; [lia|].
      right. split; [lia|]. split; [lia|]. split.
      * rewrite Nat.add_0_r. exact Ea.
      * intros i Hi. lia.
Qed.

Lemma sleeps_all acts : Forall (fun a => a = Sleep) acts -> sleeps acts = List.length acts.
Proof.
  unfold sleeps. induction 1 as [|a l Ha _ IH]; [reflexivity|].
  subst a. cbn. f_equal. exact IH.
Qed.

(** What [stop_one] does on a pid that is probed. *)
Lemma stop_one_probed name pid_file content alive :
  pid_of content <> "" -> alive 0%nat = true ->
  stop_one name pid_file content alive
  = [Echo ("Stopping " ++ name ++ " (pid: " ++ pid_of content ++ ") ...");
     Kill false (pid_of content)]
    ++ fst (wait 20 (pid_of content) alive 1)
    ++ (if alive (snd (wait 20 (pid_of content) alive 1))
        then [Echo (name ++ " did not stop gracefully, forcing kill.");
              Kill true (pid_of content)]
        else [])
    ++ [Remove pid_file; Echo (name ++ " stopped.")].
Proof.
  intros Hpid H0. unfold stop_one, is_running.
  destruct (String.eqb_spec (pid_of content) "") as [He | _]; [congruence|].
  rewrite H0. cbn [negb]. destruct (wait 20 (pid_of content) alive 1) as [acts m].
  reflexivity.
Qed.

Lemma stop_one_idle name pid_file content alive :
  pid_of content = "" \/ alive 0%nat = false ->
  stop_one name pid_file content alive
  = [Echo (name ++ " is not running."); Remove pid_file].
Proof.
  intros H. unfold stop_one, is_running.
  destruct (String.eqb_spec (pid_of content) "") as [He | Hne]; [reflexivity|].
  destruct H as [H | H]; [congruence|]. rewrite H. reflexivity.
Qed.

(** X23.  [stop_one] is bounded and tidy. Whatever the machine answers,
    it removes the pid file, after every signal it sends; it sleeps at
    most 20 times; it signals no process other than the one named in the
    pid file, and none at all when the file is missing or empty or the
    first probe finds nothing. If a process that is gone stays gone, the
    forced kill is sent exactly when the process is still there at the
    last of the 22 probes, after 20 sleeps; and a process that is there
    at probe [k] and gone at the next is waited for with exactly [k]
    sleeps. *)
Theorem stop_one_is_bounded name pid_file content alive :
  let acts := stop_one name pid_file content alive in
  let pid := pid_of content in
  (exists before line,
      acts = before ++ [Remove pid_file] ++ line /\
      Forall (fun a => exists text, a = Echo text) line) /\
  (sleeps acts <= 20)%nat /\
  (forall force p, In (Kill force p) acts ->
                   p = pid /\ pid <> "" /\ alive 0%nat = true) /\
  ((forall i j, (i <= j)%nat -> alive i = false -> alive j = false) ->
   pid <> "" ->
   (In (Kill true pid) acts <-> alive 21%nat = true) /\
   (alive 21%nat = true -> sleeps acts = 20%nat) /\
   (forall k, (k <= 20)%nat -> alive k = true -> alive (S k) = false ->
              sleeps acts = k /\ ~ In (Kill true pid) acts)).
Proof.
  intros acts pid. subst acts.
  destruct (String.eqb_spec (pid_of content) "") as [He | Hne].
  { fold pid in He. rewrite (stop_one_idle name pid_file content alive (or_introl He)).
    split; [exists [Echo (name ++ " is not running.")], []; split;
            [reflexivity | constructor]|].
    split; [cbn; lia|].
    split; [intros force p [H | [H | []]]; discriminate|].
    intros _ H. congruence. }
  fold pid in Hne.
  destruct (alive 0%nat) eqn:H0.
  2:{ rewrite (stop_one_idle name pid_file content alive (or_intror H0)).
      split; [exists [Echo (name ++ " is not running.")], []; split;
              [reflexivity | constructor]|].
      split; [cbn; lia|].
      split; [intros force p [H | [H | []]]; discriminate|].
      intros Hmono _.
      assert (Hdead : forall j, alive j = false)
        by (intros j; apply (Hmono 0%nat j); [lia | exact H0]).
      split; [split; [intros [H | [H | []]]; discriminate
                     | intros H; rewrite Hdead in H; discriminate]|].
      split; [intros H; rewrite Hdead in H; discriminate|].
      intros k _ Hk. rewrite Hdead in Hk. discriminate. }
  rewrite (stop_one_probed name pid_file content alive Hne H0). fold pid.
  pose proof (wait_spec pid alive 20 1 Hne) as Hw.
  destruct (wait 20 pid alive 1) as [waited n] eqn:Ew. cbn [fst snd].
  destruct Hw as (Hs & Hlen & Hn & Hcase).
  set (forced := if alive n
                 then [Echo (name ++ " did not stop gracefully, forcing kill.");
                       Kill true pid]
                 else []).
  assert (Hsl : sleeps ([Echo ("Stopping " ++ name ++ " (pid: " ++ pid ++ ") ...");
                         Kill false pid] ++ waited ++ forced
                        ++ [Remove pid_file; Echo (name ++ " stopped.")])
                = List.length waited).
  { unfold sleeps. rewrite !filter_app, !length_app.
    change (List.length (filter is_sleep waited)) with (sleeps waited).
    rewrite (sleeps_all _ Hs). unfold forced.
    destruct (alive n); cbn; lia. }
  assert (Hk9 : In (Kill true pid)
                  ([Echo ("Stopping " ++ name ++ " (pid: " ++ pid ++ ") ...");
                    Kill false pid] ++ waited ++ forced
                   ++ [Remove pid_file; Echo (name ++ " stopped.")])
                <-> alive n = true).
  { rewrite !in_app_iff. unfold forced. split.
    - intros [[H | [H | []]] | [H | [H | H]]]; try discriminate.
      + rewrite Forall_forall in Hs. specialize (Hs _ H). discriminate.
      + destruct (alive n); [reflexivity | destruct H].
      + destruct H as [H | [H | []]]; discriminate.
    - intros ->. right. right. left. right. left. reflexivity. }
  split.
  { exists ([Echo ("Stopping " ++ name ++ " (pid: " ++ pid ++ ") ...");
             Kill false pid] ++ waited ++ forced),
           [Echo (name ++ " stopped.")].
    split; [rewrite <- !app_assoc; reflexivity|].
    repeat constructor. eexists. reflexivity. }
  split; [rewrite Hsl; exact Hlen|].
  split.
  { intros force p. rewrite !in_app_iff. unfold forced.
    intros [[H | [H | []]] | [H | [H | H]]]; try discriminate.
    - injection H as _ <-. repeat split; assumption.
    - rewrite Forall_forall in Hs. specialize (Hs _ H). discriminate.
    - destruct (alive n); [|destruct H].
      destruct H as [H | [H | []]]; try discriminate.
      injection H as _ <-. repeat split; assumption.
    - destruct H as [H | [H | []]]; discriminate. }
  intros Hmono _.
  assert (Hup : forall i j, (i <= j)%nat -> alive j = true -> alive i = true).
  { intros i j Hij Hj. destruct (alive i) eqn:Ei; [reflexivity|].
    rewrite (Hmono i j Hij Ei) in Hj. discriminate. }
  destruct Hcase as [(H1 & H2 & H3) | (H1 & H2 & H3 & H4)].
  - assert (Hn21 : n = 21%nat) by lia. clear H2. subst n.
    split; [exact Hk9|]. split; [intros _; rewrite Hsl; exact H1|].
    intros k Hk Ha Hd. rewrite Hsl. split.
    + destruct (Nat.eq_dec k 20) as [->|Hne']; [exact H1|].
      exfalso. rewrite (H3 (S k)) in Hd; [discriminate | lia].
    + intros Hin. apply Hk9 in Hin.
      rewrite (Hmono (S k) 21%nat) in Hin; [discriminate | lia | exact Hd].
  - assert (Hdead : alive n = false).
    { apply (Hmono (1 + List.length waited)%nat n); [lia | exact H3]. }
    assert (Hd21 : alive 21%nat = false).
    { apply (Hmono (1 + List.length waited)%nat 21%nat); [lia | exact H3]. }
    split; [rewrite Hk9, Hdead, Hd21; reflexivity|].
    split; [rewrite Hd21; discriminate|].
    intros k Hk Ha Hd. rewrite Hsl. split.
    + destruct (Nat.lt_trichotomy k (List.length waited)) as [Hlt | [Heq | Hgt]].
      * exfalso. rewrite (H4 (S k)) in Hd; [discriminate | lia].
      * symmetry. exact Heq.
      * exfalso.
        rewrite (Hup (1 + List.length waited)%nat k) in H3;
          [discriminate | lia | exact Ha].
    + intros Hin. apply Hk9 in Hin. congruence.
Qed.

Lemma stop_one_is_bounded_witness :
  sleeps (stop_one "Backend" ".run/backend.pid" (Some "4242")
            (fun i => (i <=? 3)%nat)) = 3%nat /\
  ~ In (Kill true "4242")
       (stop_one "Backend" ".run/backend.pid" (Some "4242")
          (fun i => (i <=? 3)%nat)).
Proof.
  destruct (stop_one_is_bounded "Backend" ".run/backend.pid" (Some "4242")
              (fun i => (i <=? 3)%nat)) as (_ & _ & _ & H).
  destruct H as (_ & _ & H).
  - intros i j Hij Hi. apply Nat.leb_gt in Hi. apply Nat.leb_gt. lia.
  - discriminate.
  - apply (H 3%nat); [lia | reflexivity | reflexivity].
Defined.

End StackFacts.
